(** * FormatTokenLexer: a shallow embedding of lib/CPPFormat/FormatTokenLexer.cpp

    The lexer turns the raw, whitespace-preserving token sequence of the
    clang raw [Lexer] into the [FormatToken] stream of the formatter.  The
    C++ object keeps its tokens in an arena and works on pointers to them
    ([FormatTok], the elements of [Tokens]); the merge rules mutate tokens
    through these pointers.  The embedding keeps that structure: the arena
    is a list of token records, a pointer is an index into it, and every
    member function is a state transformer in a small outcome monad whose
    [Undefined] result stands for an out-of-range access or a failed
    assertion. *)

From Stdlib Require Import ZArith Ascii String List Bool Lia.
From stdpp Require Import base option list numbers.
Import ListNotations.
Local Open Scope Z_scope.

(** ** Machine integers and text *)

(** [unsigned] arithmetic: the C++ type is 32 bits wide and wraps. *)
Definition u32 (x : Z) : Z := x mod 2 ^ 32.

(** [size_t] arithmetic (64 bits). *)
Definition usize (x : Z) : Z := x mod 2 ^ 64.

Abbreviation text := (list ascii).

Definition lit (s : string) : text := list_ascii_of_string s.
Arguments lit : simpl never.

Definition ch_nl : ascii := "010"%char.
Definition ch_cr : ascii := "013"%char.
Definition ch_ff : ascii := "012"%char.
Definition ch_vt : ascii := "011"%char.
Definition ch_tab : ascii := "009"%char.
Definition ch_space : ascii := " "%char.
Definition ch_bslash : ascii := "\"%char.
Definition ch_dquote : ascii := "034"%char.

Definition text_eqb (a b : text) : bool :=
  String.eqb (string_of_list_ascii a) (string_of_list_ascii b).

(** ** llvm::StringRef

    A [StringRef] is a pointer and a length.  Token texts point into the
    source buffer; the only other text the lexer ever stores is the string
    literal ["<<"] of [tryMergeLessLess], which lives outside the buffer. *)
Inductive StringRef : Type :=
  | SrcRef (data : Z) (size : Z)   (* Buffer.data() + data, size bytes *)
  | LessLessLit.                   (* the static literal "<<" *)

Definition sub_text (b : text) (data size : Z) : text :=
  take (Z.to_nat size) (drop (Z.to_nat data) b).

Definition str (b : text) (r : StringRef) : text :=
  match r with
  | SrcRef d n => sub_text b d n
  | LessLessLit => lit "<<"
  end.

Definition ref_size (r : StringRef) : Z :=
  match r with SrcRef _ n => n | LessLessLit => 2 end.

(** [StringRef::substr(Start, N)], with N possibly [npos] ([None]). *)
Definition ref_substr (r : StringRef) (start : Z) (n : option Z) : StringRef :=
  let len := ref_size r in
  let s := Z.min start len in
  let m := match n with Some k => Z.min k (len - s) | None => len - s end in
  match r with
  | SrcRef d _ => SrcRef (d + s) m
  | LessLessLit => LessLessLit
  end.

(** [StringRef::find(C)] from position [from]: first index holding [C]. *)
Fixpoint find_from (p : ascii -> bool) (t : text) (i : Z) : option Z :=
  match t with
  | [] => None
  | c :: r => if p c then Some i else find_from p r (i + 1)
  end.

Definition text_find (p : ascii -> bool) (t : text) (from : Z) : option Z :=
  find_from p (drop (Z.to_nat from) t) (Z.min from (Z.of_nat (length t))).

(** [StringRef::rfind(C, From)]: the last index strictly below
    [min From size] holding [C] (LLVM starts at [From] and decrements
    before it compares). *)
Fixpoint rfind_upto (p : ascii -> bool) (t : text) (i : Z) (acc : option Z)
  : option Z :=
  match t with
  | [] => acc
  | c :: r => rfind_upto p r (i + 1) (if p c then Some i else acc)
  end.

Definition text_rfind (p : ascii -> bool) (t : text) (from : Z) : option Z :=
  rfind_upto p (take (Z.to_nat from) t) 0 None.

Definition is_char (c : ascii) : ascii -> bool := Ascii.eqb c.

(** [Text[pos]] for an in-range position. *)
Definition char_at (t : text) (pos : Z) : option ascii :=
  if pos <? 0 then None else t !! Z.to_nat pos.

(** ** Token kinds and types *)

Inductive TokenKind : Type :=
  | tk_unknown | tk_eof | tk_comment | tk_raw_identifier | tk_identifier
  | tk_string_literal | tk_l_paren | tk_r_paren
  | tk_less | tk_greater | tk_lessless | tk_greatergreater
  | tk_kw___unknown_anytype
  | tk_other (n : nat).            (* every other keyword or punctuator *)

Definition kind_eqb (a b : TokenKind) : bool :=
  match a, b with
  | tk_unknown, tk_unknown | tk_eof, tk_eof | tk_comment, tk_comment
  | tk_raw_identifier, tk_raw_identifier | tk_identifier, tk_identifier
  | tk_string_literal, tk_string_literal | tk_l_paren, tk_l_paren
  | tk_r_paren, tk_r_paren | tk_less, tk_less | tk_greater, tk_greater
  | tk_lessless, tk_lessless | tk_greatergreater, tk_greatergreater
  | tk_kw___unknown_anytype, tk_kw___unknown_anytype => true
  | tk_other n, tk_other m => Nat.eqb n m
  | _, _ => false
  end.

Inductive PPKeywordKind : Type := pp_not_keyword | pp_define | pp_other.

Inductive TokenType : Type :=
  | TT_Unknown | TT_ImplicitStringLiteral | TT_ForEachMacro
  | TT_MacroBlockBegin | TT_MacroBlockEnd
  | TT_ConflictStart | TT_ConflictAlternative | TT_ConflictEnd.

Definition type_eqb (a b : TokenType) : bool :=
  match a, b with
  | TT_Unknown, TT_Unknown
  | TT_ImplicitStringLiteral, TT_ImplicitStringLiteral
  | TT_ForEachMacro, TT_ForEachMacro
  | TT_MacroBlockBegin, TT_MacroBlockBegin
  | TT_MacroBlockEnd, TT_MacroBlockEnd
  | TT_ConflictStart, TT_ConflictStart
  | TT_ConflictAlternative, TT_ConflictAlternative
  | TT_ConflictEnd, TT_ConflictEnd => true
  | _, _ => false
  end.

Inductive LexerState : Type := NORMAL | TOKEN_STASHED.

(** ** clang::Token and FormatToken *)

(** The raw token: kind, start offset in the file, byte length and the
    identifier-table entry.  An [IdentifierInfo] pointer is represented by
    the name it was interned under: the table hands out one entry per
    spelling, so pointer equality is equality of names. *)
Record Token : Type := mkToken {
  Kind : TokenKind;
  Loc : Z;
  Length : Z;
  IdentInfo : option text
}.

Definition setKind (k : TokenKind) (t : Token) : Token :=
  mkToken k (Loc t) (Length t) (IdentInfo t).
Definition setLocation (l : Z) (t : Token) : Token :=
  mkToken (Kind t) l (Length t) (IdentInfo t).
Definition setIdentifierInfo (i : option text) (t : Token) : Token :=
  mkToken (Kind t) (Loc t) (Length t) i.

Record FormatToken : Type := mkFormatToken {
  Tok : Token;
  TokenText : StringRef;
  IsFirst : bool;
  IsMultiline : bool;
  IsUnterminatedLiteral : bool;
  Finalized : bool;
  UserNewlinesBefore : Z;
  HasUnescapedNewlineBefore : bool;
  LastNewlineOffset : Z;
  PrecedingWhitespaceRange : Z * Z;     (* SourceRange(begin, end) *)
  OriginalColumn : Z;
  FirstLineColumnWidth : Z;
  LastLineColumnWidth : Z;
  Type_ : TokenType
}.

Definition set_Tok (v : Token) (t : FormatToken) : FormatToken :=
  mkFormatToken v (TokenText t) (IsFirst t) (IsMultiline t)
    (IsUnterminatedLiteral t) (Finalized t) (UserNewlinesBefore t)
    (HasUnescapedNewlineBefore t) (LastNewlineOffset t)
    (PrecedingWhitespaceRange t) (OriginalColumn t) (FirstLineColumnWidth t)
    (LastLineColumnWidth t) (Type_ t).
Definition set_TokenText (v : StringRef) (t : FormatToken) : FormatToken :=
  mkFormatToken (Tok t) v (IsFirst t) (IsMultiline t)
    (IsUnterminatedLiteral t) (Finalized t) (UserNewlinesBefore t)
    (HasUnescapedNewlineBefore t) (LastNewlineOffset t)
    (PrecedingWhitespaceRange t) (OriginalColumn t) (FirstLineColumnWidth t)
    (LastLineColumnWidth t) (Type_ t).
Definition set_IsFirst (v : bool) (t : FormatToken) : FormatToken :=
  mkFormatToken (Tok t) (TokenText t) v (IsMultiline t)
    (IsUnterminatedLiteral t) (Finalized t) (UserNewlinesBefore t)
    (HasUnescapedNewlineBefore t) (LastNewlineOffset t)
    (PrecedingWhitespaceRange t) (OriginalColumn t) (FirstLineColumnWidth t)
    (LastLineColumnWidth t) (Type_ t).
Definition set_IsMultiline (v : bool) (t : FormatToken) : FormatToken :=
  mkFormatToken (Tok t) (TokenText t) (IsFirst t) v
    (IsUnterminatedLiteral t) (Finalized t) (UserNewlinesBefore t)
    (HasUnescapedNewlineBefore t) (LastNewlineOffset t)
    (PrecedingWhitespaceRange t) (OriginalColumn t) (FirstLineColumnWidth t)
    (LastLineColumnWidth t) (Type_ t).
Definition set_IsUnterminatedLiteral (v : bool) (t : FormatToken)
  : FormatToken :=
  mkFormatToken (Tok t) (TokenText t) (IsFirst t) (IsMultiline t)
    v (Finalized t) (UserNewlinesBefore t)
    (HasUnescapedNewlineBefore t) (LastNewlineOffset t)
    (PrecedingWhitespaceRange t) (OriginalColumn t) (FirstLineColumnWidth t)
    (LastLineColumnWidth t) (Type_ t).
Definition set_Finalized (v : bool) (t : FormatToken) : FormatToken :=
  mkFormatToken (Tok t) (TokenText t) (IsFirst t) (IsMultiline t)
    (IsUnterminatedLiteral t) v (UserNewlinesBefore t)
    (HasUnescapedNewlineBefore t) (LastNewlineOffset t)
    (PrecedingWhitespaceRange t) (OriginalColumn t) (FirstLineColumnWidth t)
    (LastLineColumnWidth t) (Type_ t).
Definition set_UserNewlinesBefore (v : Z) (t : FormatToken) : FormatToken :=
  mkFormatToken (Tok t) (TokenText t) (IsFirst t) (IsMultiline t)
    (IsUnterminatedLiteral t) (Finalized t) v
    (HasUnescapedNewlineBefore t) (LastNewlineOffset t)
    (PrecedingWhitespaceRange t) (OriginalColumn t) (FirstLineColumnWidth t)
    (LastLineColumnWidth t) (Type_ t).
Definition set_HasUnescapedNewlineBefore (v : bool) (t : FormatToken)
  : FormatToken :=
  mkFormatToken (Tok t) (TokenText t) (IsFirst t) (IsMultiline t)
    (IsUnterminatedLiteral t) (Finalized t) (UserNewlinesBefore t)
    v (LastNewlineOffset t)
    (PrecedingWhitespaceRange t) (OriginalColumn t) (FirstLineColumnWidth t)
    (LastLineColumnWidth t) (Type_ t).
Definition set_LastNewlineOffset (v : Z) (t : FormatToken) : FormatToken :=
  mkFormatToken (Tok t) (TokenText t) (IsFirst t) (IsMultiline t)
    (IsUnterminatedLiteral t) (Finalized t) (UserNewlinesBefore t)
    (HasUnescapedNewlineBefore t) v
    (PrecedingWhitespaceRange t) (OriginalColumn t) (FirstLineColumnWidth t)
    (LastLineColumnWidth t) (Type_ t).
Definition set_PrecedingWhitespaceRange (v : Z * Z) (t : FormatToken)
  : FormatToken :=
  mkFormatToken (Tok t) (TokenText t) (IsFirst t) (IsMultiline t)
    (IsUnterminatedLiteral t) (Finalized t) (UserNewlinesBefore t)
    (HasUnescapedNewlineBefore t) (LastNewlineOffset t)
    v (OriginalColumn t) (FirstLineColumnWidth t)
    (LastLineColumnWidth t) (Type_ t).
Definition set_OriginalColumn (v : Z) (t : FormatToken) : FormatToken :=
  mkFormatToken (Tok t) (TokenText t) (IsFirst t) (IsMultiline t)
    (IsUnterminatedLiteral t) (Finalized t) (UserNewlinesBefore t)
    (HasUnescapedNewlineBefore t) (LastNewlineOffset t)
    (PrecedingWhitespaceRange t) v (FirstLineColumnWidth t)
    (LastLineColumnWidth t) (Type_ t).
Definition set_FirstLineColumnWidth (v : Z) (t : FormatToken) : FormatToken :=
  mkFormatToken (Tok t) (TokenText t) (IsFirst t) (IsMultiline t)
    (IsUnterminatedLiteral t) (Finalized t) (UserNewlinesBefore t)
    (HasUnescapedNewlineBefore t) (LastNewlineOffset t)
    (PrecedingWhitespaceRange t) (OriginalColumn t) v
    (LastLineColumnWidth t) (Type_ t).
Definition set_LastLineColumnWidth (v : Z) (t : FormatToken) : FormatToken :=
  mkFormatToken (Tok t) (TokenText t) (IsFirst t) (IsMultiline t)
    (IsUnterminatedLiteral t) (Finalized t) (UserNewlinesBefore t)
    (HasUnescapedNewlineBefore t) (LastNewlineOffset t)
    (PrecedingWhitespaceRange t) (OriginalColumn t) (FirstLineColumnWidth t)
    v (Type_ t).
Definition set_Type (v : TokenType) (t : FormatToken) : FormatToken :=
  mkFormatToken (Tok t) (TokenText t) (IsFirst t) (IsMultiline t)
    (IsUnterminatedLiteral t) (Finalized t) (UserNewlinesBefore t)
    (HasUnescapedNewlineBefore t) (LastNewlineOffset t)
    (PrecedingWhitespaceRange t) (OriginalColumn t) (FirstLineColumnWidth t)
    (LastLineColumnWidth t) v.

(** Modelled from the spec: the member initialisers of [FormatToken]
    (FormatToken.h is not among the sources).  A token created by
    [new (Allocator.Allocate()) FormatToken] has no newlines before it, no
    width, the semantic type "none", and is neither multi-line, first,
    unterminated nor finalized; its [Tok] is the cleared token that
    [Token::startToken] produces. *)
Definition new_FormatToken : FormatToken :=
  mkFormatToken (mkToken tk_unknown 0 0 None) (SrcRef 0 0)
    false false false false 0 false 0 (0, 0) 0 0 0 TT_Unknown.

Definition is_kind (t : FormatToken) (k : TokenKind) : bool :=
  kind_eqb (Kind (Tok t)) k.

(** Modelled from the spec: [FormatToken::getStartOfNonWhitespace]
    (FormatToken.h), the end of the whitespace range that precedes the
    token, which is where its first character sits in the file. *)
Definition getStartOfNonWhitespace (t : FormatToken) : Z :=
  snd (PrecedingWhitespaceRange t).

(** ** The outcome monad *)

Inductive Outcome (A : Type) : Type :=
  | Ok (a : A)
  | Undefined      (* out-of-range access, null dereference, assertion *)
  | OutOfFuel.     (* a loop of the model ran out of fuel *)
Arguments Ok {A} a.
Arguments Undefined {A}.
Arguments OutOfFuel {A}.

Definition bind {A B} (m : Outcome A) (k : A -> Outcome B) : Outcome B :=
  match m with
  | Ok a => k a
  | Undefined => Undefined
  | OutOfFuel => OutOfFuel
  end.

Declare Scope outcome_scope.
Delimit Scope outcome_scope with outcome.
Notation "'let*' x ':=' m 'in' k" := (bind m (fun x => k))
  (at level 10, x pattern, m at level 100, k at level 200) : outcome_scope.
Local Open Scope outcome_scope.

Definition of_option {A} (o : option A) : Outcome A :=
  match o with Some a => Ok a | None => Undefined end.

(** ** Lexer state *)

Record State : Type := mkState {
  Arena : list FormatToken;        (* Allocator: pointer = index *)
  FormatTok : option nat;          (* nullptr = None *)
  IsFirstToken : bool;
  StateStack : list LexerState;    (* top = head *)
  Column : Z;
  TrailingWhitespace : Z;
  LexPos : Z;                      (* Lex->BufferPtr, as a file offset *)
  Tokens : list nat;
  FirstInLineIndex : nat;
  FormattingDisabled : bool
}.

Definition set_Arena (v : list FormatToken) (s : State) : State :=
  mkState v (FormatTok s) (IsFirstToken s) (StateStack s) (Column s)
    (TrailingWhitespace s) (LexPos s) (Tokens s) (FirstInLineIndex s)
    (FormattingDisabled s).
Definition set_FormatTok (v : option nat) (s : State) : State :=
  mkState (Arena s) v (IsFirstToken s) (StateStack s) (Column s)
    (TrailingWhitespace s) (LexPos s) (Tokens s) (FirstInLineIndex s)
    (FormattingDisabled s).
Definition set_IsFirstToken (v : bool) (s : State) : State :=
  mkState (Arena s) (FormatTok s) v (StateStack s) (Column s)
    (TrailingWhitespace s) (LexPos s) (Tokens s) (FirstInLineIndex s)
    (FormattingDisabled s).
Definition set_StateStack (v : list LexerState) (s : State) : State :=
  mkState (Arena s) (FormatTok s) (IsFirstToken s) v (Column s)
    (TrailingWhitespace s) (LexPos s) (Tokens s) (FirstInLineIndex s)
    (FormattingDisabled s).
Definition set_Column (v : Z) (s : State) : State :=
  mkState (Arena s) (FormatTok s) (IsFirstToken s) (StateStack s) v
    (TrailingWhitespace s) (LexPos s) (Tokens s) (FirstInLineIndex s)
    (FormattingDisabled s).
Definition set_TrailingWhitespace (v : Z) (s : State) : State :=
  mkState (Arena s) (FormatTok s) (IsFirstToken s) (StateStack s) (Column s)
    v (LexPos s) (Tokens s) (FirstInLineIndex s)
    (FormattingDisabled s).
Definition set_LexPos (v : Z) (s : State) : State :=
  mkState (Arena s) (FormatTok s) (IsFirstToken s) (StateStack s) (Column s)
    (TrailingWhitespace s) v (Tokens s) (FirstInLineIndex s)
    (FormattingDisabled s).
Definition set_Tokens (v : list nat) (s : State) : State :=
  mkState (Arena s) (FormatTok s) (IsFirstToken s) (StateStack s) (Column s)
    (TrailingWhitespace s) (LexPos s) v (FirstInLineIndex s)
    (FormattingDisabled s).
Definition set_FirstInLineIndex (v : nat) (s : State) : State :=
  mkState (Arena s) (FormatTok s) (IsFirstToken s) (StateStack s) (Column s)
    (TrailingWhitespace s) (LexPos s) (Tokens s) v
    (FormattingDisabled s).
Definition set_FormattingDisabled (v : bool) (s : State) : State :=
  mkState (Arena s) (FormatTok s) (IsFirstToken s) (StateStack s) (Column s)
    (TrailingWhitespace s) (LexPos s) (Tokens s) (FirstInLineIndex s) v.

(** The state the constructor leaves behind (lines 28-55). *)
Definition initial_state : State :=
  mkState [] None true [NORMAL] 0 0 0 [] 0 false.

(** Dereference of an arena pointer. *)
Definition deref (s : State) (p : nat) : Outcome FormatToken :=
  of_option (Arena s !! p).

(** In-place modification of the token a pointer refers to. *)
Definition update (p : nat) (f : FormatToken -> FormatToken) (s : State)
  : Outcome State :=
  let* t := deref s p in
  Ok (set_Arena (<[p := f t]> (Arena s)) s).

(** [new (Allocator.Allocate()) FormatToken]. *)
Definition allocate (s : State) : State * nat :=
  (set_Arena (Arena s ++ [new_FormatToken]) s, length (Arena s)).

(** [Tokens[i]] and [Tokens.back()]. *)
Definition Tokens_at (s : State) (i : nat) : Outcome nat :=
  of_option (Tokens s !! i).

Definition Tokens_back (s : State) : Outcome nat :=
  of_option (list.last (Tokens s)).

(** [Tokens[Tokens.size() - k]] for [1 <= k]. *)
Definition Tokens_from_end (s : State) (k : nat) : Outcome nat :=
  if (length (Tokens s) <? k)%nat then Undefined
  else Tokens_at s (length (Tokens s) - k).

(** ** External collaborators

    Everything the lexer receives from outside: the source buffer, the
    style, the identifier table, the two macro-block regular expressions,
    the width function of Encoding.h and the raw lexer.  The raw lexer runs
    in keep-whitespace mode, so the token it forms at a buffer position
    starts at that position; [LexFromRawLexer] therefore maps the current
    position to the kind and byte length of the token found there. *)
Record Env : Type := mkEnv {
  Buffer : text;
  TabWidth : Z;
  columnWidthWithTabs : text -> Z -> Z -> Z;  (* Text, StartColumn, TabWidth *)
  ForEachMacros : list text;
  MacroBlockBeginRegex : text -> bool;
  MacroBlockEndRegex : text -> bool;
  getTokenID : text -> TokenKind;
  getPPKeywordID : text -> PPKeywordKind;
  LexFromRawLexer : Z -> TokenKind * Z
}.

Section Lexer.

Context (E : Env).

Definition text_of (t : FormatToken) : text := str (Buffer E) (TokenText t).

(** ** Merge rules *)

(** Lines 83-109. *)
Definition lessless_merged (t : FormatToken) : FormatToken :=
  set_FirstLineColumnWidth (u32 (FirstLineColumnWidth t + 1))
    (set_TokenText LessLessLit (set_Tok (setKind tk_lessless (Tok t)) t)).

Definition has_whitespace_before (t : FormatToken) : bool :=
  negb (fst (PrecedingWhitespaceRange t) =? snd (PrecedingWhitespaceRange t)).

Definition tryMergeLessLess (s : State) : Outcome (State * bool) :=
  let n := length (Tokens s) in
  if (n <? 3)%nat then Ok (s, false) else
  let* FourthTokenIsLess :=
    (if (3 <? n)%nat
     then let* p := Tokens_from_end s 4 in
          let* t := deref s p in Ok (is_kind t tk_less)
     else Ok false) in
  let* p0 := Tokens_from_end s 3 in
  let* p1 := Tokens_from_end s 2 in
  let* p2 := Tokens_from_end s 1 in
  let* t2 := deref s p2 in
  if is_kind t2 tk_less then Ok (s, false) else
  let* t1 := deref s p1 in
  if negb (is_kind t1 tk_less) then Ok (s, false) else
  let* t0 := deref s p0 in
  if negb (is_kind t0 tk_less) || FourthTokenIsLess then Ok (s, false) else
  if has_whitespace_before t1 then Ok (s, false) else
  let* s1 := update p0 lessless_merged s in
  Ok (set_Tokens (delete (n - 2)%nat (Tokens s1)) s1, true).

(** Lines 139-176.  [End - Start] subtracts two pointers, which is only
    defined when both point into the source buffer. *)
Definition TMacro_span (macro last : StringRef) : Outcome StringRef :=
  match macro, last with
  | SrcRef dm _, SrcRef dl nl => Ok (SrcRef dm (usize (dl + nl - dm)))
  | _, _ => Undefined
  end.

Definition TMacro_merged (span : StringRef) (Macro Str : FormatToken)
  : FormatToken :=
  let t1 := set_TokenText span Str in
  let t2 := set_IsFirst (IsFirst Macro) t1 in
  let t3 := set_LastNewlineOffset (LastNewlineOffset Macro) t2 in
  let t4 := set_PrecedingWhitespaceRange (PrecedingWhitespaceRange Macro) t3 in
  let t5 := set_OriginalColumn (OriginalColumn Macro) t4 in
  let t6 := set_FirstLineColumnWidth
              (columnWidthWithTabs E (text_of t5) (OriginalColumn t5)
                 (TabWidth E)) t5 in
  let t7 := set_UserNewlinesBefore (UserNewlinesBefore Macro) t6 in
  set_HasUnescapedNewlineBefore (HasUnescapedNewlineBefore Macro) t7.

Definition tryMerge_TMacro (s : State) : Outcome (State * bool) :=
  let n := length (Tokens s) in
  if (n <? 4)%nat then Ok (s, false) else
  let* pLast := Tokens_back s in
  let* Last := deref s pLast in
  if negb (is_kind Last tk_r_paren) then Ok (s, false) else
  let* pString := Tokens_from_end s 2 in
  let* Str := deref s pString in
  if negb (is_kind Str tk_string_literal) || IsMultiline Str
  then Ok (s, false) else
  let* pParen := Tokens_from_end s 3 in
  let* Paren := deref s pParen in
  if negb (is_kind Paren tk_l_paren) then Ok (s, false) else
  let* pMacro := Tokens_from_end s 4 in
  let* Macro := deref s pMacro in
  if negb (text_eqb (text_of Macro) (lit "_T")) then Ok (s, false) else
  let* span := TMacro_span (TokenText Macro) (TokenText Last) in
  let* s1 := update pString (TMacro_merged span Macro) s in
  Ok (set_Tokens (take (n - 4)%nat (Tokens s1) ++ [pString]) s1, true).

(** Lines 178-252. *)
Definition is_space_or_newline (c : ascii) : bool :=
  Ascii.eqb c ch_space || Ascii.eqb c ch_nl.

(** The leading word of the physical line that contains file offset
    [FirstInLineOffset] (lines 199-219). *)
Definition LineStart (FirstInLineOffset : Z) : text :=
  let LineOffset :=
    match text_rfind (is_char ch_nl) (Buffer E) FirstInLineOffset with
    | None => 0
    | Some k => k + 1
    end in
  match text_find is_space_or_newline (Buffer E) LineOffset with
  | None => drop (Z.to_nat LineOffset) (Buffer E)
  | Some FirstSpace =>
      sub_text (Buffer E) LineOffset (FirstSpace - LineOffset)
  end.

Definition conflict_type (w : text) : TokenType :=
  if text_eqb w (lit "<<<<<<<") || text_eqb w (lit ">>>>")
  then TT_ConflictStart
  else if text_eqb w (lit "|||||||") || text_eqb w (lit "=======")
          || text_eqb w (lit "====")
  then TT_ConflictAlternative
  else if text_eqb w (lit ">>>>>>>") || text_eqb w (lit "<<<<")
  then TT_ConflictEnd
  else TT_Unknown.

Definition conflict_merged (ty : TokenType) (t : FormatToken) : FormatToken :=
  set_Tok (setKind tk_kw___unknown_anytype (Tok (set_Type ty t)))
    (set_Type ty t).

Definition tryMergeConflictMarkers (s : State) : Outcome (State * bool) :=
  let* pBack := Tokens_back s in
  let* Back := deref s pBack in
  if (UserNewlinesBefore Back =? 0) && negb (is_kind Back tk_eof)
  then Ok (s, false) else
  let* pFirst := Tokens_at s (FirstInLineIndex s) in
  let* First := deref s pFirst in
  let ty := conflict_type (LineStart (getStartOfNonWhitespace First)) in
  if type_eqb ty TT_Unknown then Ok (s, false) else
  let Next := pBack in
  let s1 := set_Tokens (take (FirstInLineIndex s + 1)%nat (Tokens s)) s in
  let* pNewBack := Tokens_back s1 in
  let* s2 := update pNewBack (conflict_merged ty) s1 in
  Ok (set_Tokens (Tokens s2 ++ [Next]) s2, true).

(** Lines 72-81. *)
Definition tryMergePreviousTokens (s : State) : Outcome State :=
  let* r1 := tryMerge_TMacro s in
  if snd r1 then Ok (fst r1) else
  let* r2 := tryMergeConflictMarkers (fst r1) in
  if snd r2 then Ok (fst r2) else
  let* r3 := tryMergeLessLess (fst r2) in
  Ok (fst r3).

(** ** Token production *)

(** Lines 254-273.  The synthesized second half of a split [<<] or [>>]
    copies [Tok], [TokenText] and [OriginalColumn] from the token
    [FormatTok] points to at that moment. *)
Definition stashed_token (old : FormatToken) : FormatToken :=
  let TokLocation := Loc (Tok old) + (Length (Tok old) - 1) in
  let t1 := set_Tok (setLocation TokLocation (Tok old)) new_FormatToken in
  let t2 := set_PrecedingWhitespaceRange (TokLocation, TokLocation) t1 in
  let t3 := set_TokenText (TokenText old) t2 in
  let t4 := set_FirstLineColumnWidth 1 t3 in
  set_OriginalColumn (u32 (OriginalColumn old + 1)) t4.

Definition getStashedToken (s : State) : Outcome (State * nat) :=
  let* pOld := of_option (FormatTok s) in
  let* old := deref s pOld in
  let '(s1, p) := allocate s in
  let s2 := set_FormatTok (Some p) s1 in
  let* s3 := update p (fun _ => stashed_token old) s2 in
  Ok (s3, p).

(** Lines 458-490, on the token [p] points to. *)
Definition is_format_on (t : text) : bool :=
  text_eqb t (lit "// clang-format on")
  || text_eqb t (lit "/* clang-format on */").

Definition is_format_off (t : text) : bool :=
  text_eqb t (lit "// clang-format off")
  || text_eqb t (lit "/* clang-format off */").

Definition readRawToken (p : nat) (s : State) : Outcome State :=
  let* t := deref s p in
  let pos := LexPos s in
  let '(k, len) := LexFromRawLexer E pos in
  let s := set_LexPos (pos + len) s in
  let t := set_Tok (mkToken k pos len None) t in
  let t := set_TokenText (SrcRef (Loc (Tok t)) (Length (Tok t))) t in
  let t :=
    if is_kind t tk_unknown
    then match text_of t with
         | c :: _ =>
             if Ascii.eqb c ch_dquote
             then set_IsUnterminatedLiteral true
                    (set_Tok (setKind tk_string_literal (Tok t)) t)
             else t
         | [] => t
         end
    else t in
  let s :=
    if is_kind t tk_comment && is_format_on (text_of t)
    then set_FormattingDisabled false s else s in
  let t := set_Finalized (FormattingDisabled s) t in
  let s :=
    if is_kind t tk_comment && is_format_off (text_of t)
    then set_FormattingDisabled true s else s in
  update p (fun _ => t) s.

(** The lambda [EscapesNewline] (lines 296-309).  The backward loop over
    [pos] is written with [k = pos + 1], the number of characters still
    to inspect, so that [pos >= 0] reads [k <> 0]. *)
Fixpoint count_backslashes (Text : text) (k : nat) (count : Z) : Z :=
  match k with
  | O => count
  | S k' =>
      match Text !! k' with
      | Some c =>
          if Ascii.eqb c ch_bslash
          then count_backslashes Text k' (u32 (count + 1))
          else count
      | None => count
      end
  end.

Definition EscapesNewline (Text : text) (pos : Z) : Z :=
  let pos :=
    if (0 <=? pos) &&
       match char_at Text pos with
       | Some c => Ascii.eqb c ch_cr
       | None => false
       end
    then pos - 1 else pos in
  Z.land (count_backslashes Text (Z.to_nat (pos + 1)) 0) 1.

(** The body of the [switch] for the character at index [i] (lines
    314-343); the pair is the pending token and the running [Column]. *)
Definition fold_char (Text : text) (WhitespaceLength : Z) (i : Z) (c : ascii)
    (tc : FormatToken * Z) : FormatToken * Z :=
  let '(t, col) := tc in
  if Ascii.eqb c ch_nl then
    (set_LastNewlineOffset (u32 (WhitespaceLength + i + 1))
       (set_HasUnescapedNewlineBefore (EscapesNewline Text (i - 1) =? 0)
          (set_UserNewlinesBefore (u32 (UserNewlinesBefore t + 1)) t)), 0)
  else if Ascii.eqb c ch_cr then
    (set_LastNewlineOffset (u32 (WhitespaceLength + i + 1)) t, 0)
  else if Ascii.eqb c ch_ff || Ascii.eqb c ch_vt then (t, 0)
  else if Ascii.eqb c ch_space then (t, u32 (col + 1))
  else if Ascii.eqb c ch_tab then
    (t, u32 (col + u32 (TabWidth E - col mod TabWidth E)))
  else if Ascii.eqb c ch_bslash then
    match char_at Text (i + 1) with
    | Some d =>
        if negb (Ascii.eqb d ch_cr) && negb (Ascii.eqb d ch_nl)
        then (set_Type TT_ImplicitStringLiteral t, col) else (t, col)
    | None => (set_Type TT_ImplicitStringLiteral t, col)
    end
  else (set_Type TT_ImplicitStringLiteral t, col).

(** The [for] loop over the characters of one whitespace token (lines
    312-346), entered at index [i] with [rest] the characters from [i]
    on. *)
Fixpoint fold_chars (Text : text) (WhitespaceLength : Z) (i : Z)
    (rest : text) (tc : FormatToken * Z) : FormatToken * Z :=
  match rest with
  | [] => tc
  | c :: rest' =>
      let tc' := fold_char Text WhitespaceLength i c tc in
      if type_eqb (Type_ (fst tc')) TT_ImplicitStringLiteral then tc'
      else fold_chars Text WhitespaceLength (i + 1) rest' tc'
  end.

(** The [while] loop that consumes whitespace tokens (lines 293-353).
    [fuel] bounds the number of raw tokens read. *)
Fixpoint fold_whitespace (fuel : nat) (p : nat) (WhitespaceLength : Z)
    (s : State) : Outcome (State * Z) :=
  let* t := deref s p in
  if negb (is_kind t tk_unknown) then Ok (s, WhitespaceLength) else
  match fuel with
  | O => OutOfFuel
  | S fuel' =>
      let Text := text_of t in
      let '(t', col) :=
        fold_chars Text WhitespaceLength 0 Text (t, Column s) in
      let* s1 := update p (fun _ => t') (set_Column col s) in
      if type_eqb (Type_ t') TT_ImplicitStringLiteral
      then Ok (s1, WhitespaceLength)
      else
        let WhitespaceLength := u32 (WhitespaceLength + Length (Tok t')) in
        let* s2 := readRawToken p s1 in
        fold_whitespace fuel' p WhitespaceLength s2
  end.

(** The [while] loop that strips leading backslash-newline pairs (lines
    359-367).  Each round removes two characters, so [fuel] equal to the
    text size is never exhausted. *)
Definition starts_with_escaped_newline (t : text) : bool :=
  match t with
  | c0 :: c1 :: _ => Ascii.eqb c0 ch_bslash && Ascii.eqb c1 ch_nl
  | _ => false
  end.

Fixpoint strip_escaped_newlines (fuel : nat) (b : text)
    (twc : FormatToken * Z * Z) : FormatToken * Z * Z :=
  let '(t, WhitespaceLength, col) := twc in
  match fuel with
  | O => twc
  | S fuel' =>
      if (1 <? ref_size (TokenText t))
         && starts_with_escaped_newline (str b (TokenText t))
      then
        strip_escaped_newlines fuel' b
          (set_TokenText (ref_substr (TokenText t) 2 None)
             (set_LastNewlineOffset 2
                (set_UserNewlinesBefore (u32 (UserNewlinesBefore t + 1)) t)),
           u32 (WhitespaceLength + 2), 0)
      else twc
  end.

(** [StringRef::rtrim(" \t\v\f")]. *)
Definition is_trimmed_char (c : ascii) : bool :=
  Ascii.eqb c ch_space || Ascii.eqb c ch_tab
  || Ascii.eqb c ch_vt || Ascii.eqb c ch_ff.

Fixpoint count_leading (p : ascii -> bool) (t : text) : Z :=
  match t with
  | c :: r => if p c then 1 + count_leading p r else 0
  | [] => 0
  end.

Definition ref_rtrim (b : text) (r : StringRef) : StringRef :=
  match r with
  | SrcRef d n => SrcRef d (n - count_leading is_trimmed_char (rev (str b r)))
  | LessLessLit => LessLessLit
  end.

(** The kind-specific adjustments of lines 374-401. *)
Definition adjust_kind (p : nat) (s : State) : Outcome State :=
  let* t := deref s p in
  let s := set_TrailingWhitespace 0 s in
  if is_kind t tk_comment then
    let trimmed := ref_rtrim (Buffer E) (TokenText t) in
    let* s1 := update p (set_TokenText trimmed) s in
    Ok (set_TrailingWhitespace
          (u32 (ref_size (TokenText t) - ref_size trimmed)) s1)
  else if is_kind t tk_raw_identifier then
    let name := text_of t in
    update p (fun t => set_Tok
                (setKind (getTokenID E name)
                   (setIdentifierInfo (Some name) (Tok t))) t) s
  else if is_kind t tk_greatergreater then
    let* s1 := update p (fun t => set_TokenText
                  (ref_substr (TokenText t) 0 (Some 1))
                  (set_Tok (setKind tk_greater (Tok t)) t)) s in
    Ok (set_StateStack (TOKEN_STASHED :: StateStack s1)
          (set_Column (u32 (Column s1 + 1)) s1))
  else if is_kind t tk_lessless then
    let* s1 := update p (fun t => set_TokenText
                  (ref_substr (TokenText t) 0 (Some 1))
                  (set_Tok (setKind tk_less (Tok t)) t)) s in
    Ok (set_StateStack (TOKEN_STASHED :: StateStack s1)
          (set_Column (u32 (Column s1 + 1)) s1))
  else Ok s.

(** Widths and the running column (lines 405-431). *)
Fixpoint last_index (p : ascii -> bool) (t : text) (i : nat)
    (acc : option nat) : option nat :=
  match t with
  | [] => acc
  | c :: r => last_index p r (S i) (if p c then Some i else acc)
  end.

Definition measure_token (p : nat) (s : State) : Outcome State :=
  let* t := deref s p in
  let Text := text_of t in
  let cw x c := columnWidthWithTabs E x c (TabWidth E) in
  match text_find (is_char ch_nl) Text 0 with
  | None =>
      let w := cw Text (Column s) in
      let* s1 := update p (set_FirstLineColumnWidth w) s in
      Ok (set_Column (u32 (Column s1 + w)) s1)
  | Some FirstNewlinePos =>
      let w := cw (take (Z.to_nat FirstNewlinePos) Text) (Column s) in
      let lastnl :=
        match last_index (is_char ch_nl) Text 0 None with
        | Some k => k | None => O
        end in
      let lw := cw (drop (S lastnl) Text) 0 in
      let* s1 := update p (fun t => set_LastLineColumnWidth lw
                    (set_FirstLineColumnWidth w (set_IsMultiline true t))) s in
      Ok (set_Column lw s1)
  end.

(** Classification (lines 433-453). *)
Definition previous_is_define (s : State) : Outcome bool :=
  match list.last (Tokens s) with
  | None => Ok false
  | Some q =>
      let* prev := deref s q in
      match IdentInfo (Tok prev) with
      | Some name =>
          Ok (match getPPKeywordID E name with pp_define => true | _ => false end)
      | None => Ok false
      end
  end.

Definition is_ForEachMacro (t : FormatToken) : bool :=
  match IdentInfo (Tok t) with
  | Some name => existsb (text_eqb name) (ForEachMacros E)
  | None => false
  end.

Definition classify (p : nat) (s : State) : Outcome State :=
  let* t := deref s p in
  let* def := previous_is_define s in
  if negb def && is_ForEachMacro t then update p (set_Type TT_ForEachMacro) s
  else if is_kind t tk_identifier then
    if MacroBlockBeginRegex E (text_of t)
    then update p (set_Type TT_MacroBlockBegin) s
    else if MacroBlockEndRegex E (text_of t)
    then update p (set_Type TT_MacroBlockEnd) s
    else Ok s
  else Ok s.

(** Lines 284-372: allocate the token, read it, fold the whitespace
    before it and record where that whitespace sits. *)
Definition fetch_token (fuel : nat) (s : State) : Outcome (State * nat) :=
  let '(s, p) := allocate s in
  let s := set_FormatTok (Some p) s in
  let* s := readRawToken p s in
  let* t := deref s p in
  let WhitespaceStart := Loc (Tok t) - TrailingWhitespace s in
  let* s := update p (set_IsFirst (IsFirstToken s)) s in
  let s := set_IsFirstToken false s in
  let* r := fold_whitespace fuel p (TrailingWhitespace s) s in
  let s := fst r in
  let* t := deref s p in
  let '(t, WhitespaceLength, col) :=
    strip_escaped_newlines (Z.to_nat (ref_size (TokenText t))) (Buffer E)
      (t, snd r, Column s) in
  let t := set_PrecedingWhitespaceRange
             (WhitespaceStart, WhitespaceStart + WhitespaceLength) t in
  let t := set_OriginalColumn col t in
  let* s := update p (fun _ => t) (set_Column col s) in
  Ok (s, p).

(** Lines 275-456. *)
Definition getNextToken (fuel : nat) (s : State) : Outcome (State * nat) :=
  match StateStack s with
  | [] => Undefined
  | TOKEN_STASHED :: rest => getStashedToken (set_StateStack rest s)
  | NORMAL :: _ =>
      let* r := fetch_token fuel s in
      let p := snd r in
      let* s := adjust_kind p (fst r) in
      let* s := measure_token p s in
      let* s := classify p s in
      Ok (s, p)
  end.

(** ** The driver (lines 57-70) *)

(** One round of the [do ... while] loop; the boolean tells whether the
    loop condition still holds. *)
Definition lex_step (fuel : nat) (s : State) : Outcome (State * bool) :=
  let* r := getNextToken fuel s in
  let s := set_Tokens (Tokens (fst r) ++ [snd r]) (fst r) in
  let* s := tryMergePreviousTokens s in
  let* pBack := Tokens_back s in
  let* Back := deref s pBack in
  let s :=
    if (0 <? UserNewlinesBefore Back) || IsMultiline Back
    then set_FirstInLineIndex (length (Tokens s) - 1)%nat s else s in
  let* pBack := Tokens_back s in
  let* Back := deref s pBack in
  Ok (s, negb (is_kind Back tk_eof)).

Fixpoint lex_loop (fuel : nat) (tokfuel : nat) (s : State) : Outcome State :=
  match fuel with
  | O => OutOfFuel
  | S fuel' =>
      let* r := lex_step tokfuel s in
      if snd r then lex_loop fuel' tokfuel (fst r) else Ok (fst r)
  end.

Definition lex (fuel : nat) (s : State) : Outcome State :=
  match Tokens s, FirstInLineIndex s with
  | [], O => lex_loop fuel fuel s
  | _, _ => Undefined
  end.

(** Lines 492-503. *)
Definition resetLexer (Offset : Z) (s : State) : State :=
  set_TrailingWhitespace 0 (set_LexPos Offset s).

(** The tokens a state's [Tokens] vector refers to. *)
Definition token_stream (s : State) : list (option FormatToken) :=
  map (fun p => Arena s !! p) (Tokens s).

End Lexer.

(** ** A concrete environment

    A byte-oriented width function (every byte but a tab is one column
    wide), an identifier table that knows [define], and a raw lexer given
    by the list of the kinds and lengths of the tokens it finds, in buffer
    order; past the last of them it reports end of file. *)
Fixpoint byte_columnWidthWithTabs_from (Text : text)
    (StartColumn TabWidth TotalWidth : Z) : Z :=
  match Text with
  | [] => TotalWidth
  | c :: r =>
      if Ascii.eqb c ch_tab
      then byte_columnWidthWithTabs_from r StartColumn TabWidth
             (TotalWidth + (TabWidth - (TotalWidth + StartColumn) mod TabWidth))
      else byte_columnWidthWithTabs_from r StartColumn TabWidth
             (TotalWidth + 1)
  end.

Definition byte_columnWidthWithTabs (Text : text) (StartColumn TabWidth : Z)
  : Z :=
  byte_columnWidthWithTabs_from Text StartColumn TabWidth 0.

Fixpoint raw_token_at (raws : list (TokenKind * Z)) (off pos : Z)
  : TokenKind * Z :=
  match raws with
  | [] => (tk_eof, 0)
  | (k, len) :: r =>
      if pos =? off then (k, len) else raw_token_at r (off + len) pos
  end.

Definition simple_PPKeywordID (name : text) : PPKeywordKind :=
  if text_eqb name (lit "define") then pp_define else pp_not_keyword.

Definition simple_env (buf : string) (raws : list (TokenKind * Z))
    (foreach : list string) : Env :=
  mkEnv (lit buf) 8 byte_columnWidthWithTabs (map lit foreach)
    (fun _ => false) (fun _ => false)
    (fun _ => tk_identifier) simple_PPKeywordID
    (fun pos => raw_token_at raws 0 pos).

(** Kinds and texts of the tokens of a final state, for reading off
    examples. *)
Definition kinds_and_texts (E : Env) (s : State)
  : list (option (TokenKind * string)) :=
  map (fun o => match o with
                | Some t => Some (Kind (Tok t),
                                  string_of_list_ascii (text_of E t))
                | None => None
                end) (token_stream s).

Definition outcome_map {A B} (f : A -> B) (o : Outcome A) : Outcome B :=
  match o with
  | Ok a => Ok (f a)
  | Undefined => Undefined
  | OutOfFuel => OutOfFuel
  end.

(** ** Statement-level definitions *)

(** The four checks of the macro-string rule on the last four tokens. *)
Definition TMacro_pattern (E : Env) (Macro Paren Str Last : FormatToken)
  : bool :=
  is_kind Last tk_r_paren && is_kind Str tk_string_literal
  && negb (IsMultiline Str) && is_kind Paren tk_l_paren
  && text_eqb (text_of E Macro) (lit "_T").

(** A token of the given kind lying at [off] in the buffer. *)
Definition plain_token (k : TokenKind) (off len col : Z) : FormatToken :=
  set_FirstLineColumnWidth len
    (set_OriginalColumn col
       (set_PrecedingWhitespaceRange (off, off)
          (set_TokenText (SrcRef off len)
             (set_Tok (mkToken k off len None) new_FormatToken)))).

(** The buffer [  _T("s")] with its four tokens appended and the
    identifier carrying the two blanks before it. *)
Definition quoted_s : string :=
  String ch_dquote (String "s" (String ch_dquote EmptyString)).

Definition TMacro_env : Env :=
  simple_env (String.append "  _T(" (String.append quoted_s ")"))
    [(tk_unknown, 2); (tk_raw_identifier, 2); (tk_l_paren, 1);
     (tk_string_literal, 3); (tk_r_paren, 1)] [].

Definition TMacro_state : State :=
  set_Tokens [0; 1; 2; 3]%nat
    (set_Arena
       [set_PrecedingWhitespaceRange (0, 2)
          (set_IsFirst true (plain_token tk_identifier 2 2 2));
        plain_token tk_l_paren 4 1 4;
        plain_token tk_string_literal 5 3 5;
        plain_token tk_r_paren 8 1 8] initial_state).

(** The leading word of a physical line, as the rule describes it: from
    the offset go back to the previous newline (or the start of the file),
    then forward to the first blank or newline. *)
Fixpoint prefix_until (stop : ascii -> bool) (t : text) : text :=
  match t with
  | [] => []
  | c :: r => if stop c then [] else c :: prefix_until stop r
  end.

Definition line_before (b : text) (o : nat) : text :=
  rev (prefix_until (is_char ch_nl) (rev (take o b))).

Definition leading_word (b : text) (o : Z) : text :=
  prefix_until is_space_or_newline
    (line_before b (Z.to_nat o) ++ drop (Z.to_nat o) b).

Definition conflict_start_markers : list text :=
  [lit "<<<<<<<"; lit ">>>>"].
Definition conflict_alternative_markers : list text :=
  [lit "|||||||"; lit "======="; lit "===="].
Definition conflict_end_markers : list text :=
  [lit ">>>>>>>"; lit "<<<<"].

(** The buffer [==== a], newline, [b]: four tokens, the last one on a new
    line, the line before it starting with a legacy marker. *)
Definition conflict_env : Env :=
  simple_env (String.append "==== a" (String ch_nl "b"))
    [(tk_other 1, 2); (tk_other 1, 2); (tk_unknown, 1);
     (tk_raw_identifier, 1); (tk_unknown, 1); (tk_raw_identifier, 1)] [].

Definition conflict_state : State :=
  set_Tokens [0; 1; 2; 3]%nat
    (set_Arena
       [plain_token (tk_other 1) 0 2 0;
        plain_token (tk_other 1) 2 2 2;
        set_PrecedingWhitespaceRange (4, 5) (plain_token tk_identifier 5 1 5);
        set_UserNewlinesBefore 1
          (set_PrecedingWhitespaceRange (6, 7)
             (plain_token tk_identifier 7 1 0))] initial_state).

(** The state right after the first half of the [>>] of [a>>b] was
    produced: the half sits in the arena with the raw token's location and
    length, and the stash is pending. *)
Definition stash_env : Env :=
  simple_env "a>>b"
    [(tk_raw_identifier, 1); (tk_greatergreater, 2); (tk_raw_identifier, 1)]
    [].

Definition stash_state : State :=
  mkState
    [set_IsFirst true
       (set_Tok (mkToken tk_identifier 0 1 (Some (lit "a")))
          (plain_token tk_identifier 0 1 0));
     set_FirstLineColumnWidth 1
       (set_TokenText (SrcRef 1 1) (plain_token tk_greater 1 2 1))]
    (Some 1%nat) false [TOKEN_STASHED; NORMAL] 3 0 3 [0; 1]%nat 0 false.

(** The number of consecutive backslashes that end right before index
    [k] of a text, and the index that count is anchored at for a newline
    at index [i]: a carriage return directly before the newline is
    stepped over first. *)
Fixpoint run_length (p : ascii -> bool) (t : text) : nat :=
  match t with
  | c :: r => if p c then S (run_length p r) else O
  | [] => O
  end.

Definition backslashes_before (Text : text) (k : nat) : nat :=
  run_length (fun c => Ascii.eqb c ch_bslash) (rev (take k Text)).

Definition newline_anchor (Text : text) (i : nat) : nat :=
  match i with
  | O => O
  | S j =>
      match Text !! j with
      | Some c => if Ascii.eqb c ch_cr then j else i
      | None => i
      end
  end.

(** A whitespace text with an escaped and an unescaped newline:
    backslash, CR, LF, blank, LF. *)
Definition trivia_text : text :=
  [ch_bslash; ch_cr; ch_nl; ch_space; ch_nl].

(** A token that classification has not looked at yet: no semantic type
    beyond the implicit-string-literal mark of whitespace folding. *)
Definition unclassified (t : FormatToken) : Prop :=
  Type_ t = TT_Unknown \/ Type_ t = TT_ImplicitStringLiteral.

(** The semantic type classification gives a token, [d] telling whether
    the previous token is the [define] keyword. *)
Definition classified_type (E : Env) (d : bool) (t : FormatToken)
  : TokenType :=
  if negb d && is_ForEachMacro E t then TT_ForEachMacro
  else if is_kind t tk_identifier then
    if MacroBlockBeginRegex E (text_of E t) then TT_MacroBlockBegin
    else if MacroBlockEndRegex E (text_of E t) then TT_MacroBlockEnd
    else Type_ t
  else Type_ t.

(** While a stash is pending, [FormatTok] points to the first half of the
    split operator, a punctuator without identifier info. *)
Definition pending_half_plain (s : State) : Prop :=
  match StateStack s with
  | TOKEN_STASHED :: _ =>
      exists pOld old, FormatTok s = Some pOld /\
        Arena s !! pOld = Some old /\ IdentInfo (Tok old) = None
  | _ => True
  end.

(** [#define FOREACH], with [FOREACH] a configured for-each macro, and
    the state after [#] and [define] were produced. *)
Definition foreach_env : Env :=
  simple_env "#define FOREACH"
    [(tk_other 2, 1); (tk_raw_identifier, 6); (tk_unknown, 1);
     (tk_raw_identifier, 7)] ["FOREACH"%string].

Definition foreach_state : State :=
  mkState
    [set_IsFirst true (plain_token (tk_other 2) 0 1 0);
     set_Tok (mkToken tk_identifier 1 6 (Some (lit "define")))
       (plain_token tk_identifier 1 6 1)]
    (Some 1%nat) false [NORMAL] 7 0 7 [0; 1]%nat 0 false.

Definition foreach_next : State * nat :=
  Eval vm_compute in
    match getNextToken foreach_env 2 foreach_state with
    | Ok r => r
    | _ => (foreach_state, O)
    end.

Definition foreach_token : FormatToken :=
  Eval vm_compute in
    match Arena (fst foreach_next) !! 2%nat with
    | Some t => t
    | None => new_FormatToken
    end.

(** [n] rounds of the driver loop, whatever the loop condition says. *)
Fixpoint lex_rounds (E : Env) (n fuel : nat) (s : State) : Outcome State :=
  match n with
  | O => Ok s
  | S n' =>
      let* r := lex_step E fuel s in
      lex_rounds E n' fuel (fst r)
  end.

(** Kind, text and finalized flag of every token of a state. *)
Definition kinds_texts_finalized (E : Env) (s : State)
  : list (option (TokenKind * string * bool)) :=
  map (fun o => match o with
                | Some t => Some (Kind (Tok t),
                                  string_of_list_ascii (text_of E t),
                                  Finalized t)
                | None => None
                end) (token_stream s).

Definition newline_string : string := String ch_nl EmptyString.

(** [// clang-format off], newline, [a>>b]. *)
Definition format_off_env : Env :=
  simple_env
    (String.append "// clang-format off" (String.append newline_string "a>>b"))
    [(tk_comment, 19); (tk_unknown, 1); (tk_raw_identifier, 1);
     (tk_greatergreater, 2); (tk_raw_identifier, 1)] [].

(** [_T(], newline, ["s")]: the macro-string construct with the string on
    a line of its own. *)
Definition TMacro_newline_env : Env :=
  simple_env
    (String.append "_T("
       (String.append newline_string (String.append quoted_s ")")))
    [(tk_raw_identifier, 2); (tk_l_paren, 1); (tk_unknown, 1);
     (tk_string_literal, 3); (tk_r_paren, 1)] [].

(** The kinds of the two splittable operators and of their halves. *)
Definition split_kind (k2 k1 : TokenKind) : Prop :=
  (k2 = tk_greatergreater /\ k1 = tk_greater)
  \/ (k2 = tk_lessless /\ k1 = tk_less).

(** The first half of a split operator, as lines 388-401 and the width
    computation leave it. *)
Definition first_half (E : Env) (k1 : TokenKind) (col : Z) (t : FormatToken)
  : FormatToken :=
  let h := set_TokenText (ref_substr (TokenText t) 0 (Some 1))
             (set_Tok (setKind k1 (Tok t)) t) in
  set_FirstLineColumnWidth
    (columnWidthWithTabs E (text_of E h) (u32 (col + 1)) (TabWidth E)) h.

(** [>>>>>>> theirs]: a conflict end marker, which the raw lexer sees as
    three [>>] and one [>]. *)
Definition conflict_end_env : Env :=
  simple_env ">>>>>>> theirs"
    [(tk_greatergreater, 2); (tk_greatergreater, 2); (tk_greatergreater, 2);
     (tk_greater, 1); (tk_unknown, 1); (tk_raw_identifier, 6)] [].

(** [vector<vector<int>>]. *)
Definition nested_template_env : Env :=
  simple_env "vector<vector<int>>"
    [(tk_raw_identifier, 6); (tk_less, 1); (tk_raw_identifier, 6);
     (tk_less, 1); (tk_raw_identifier, 3); (tk_greatergreater, 2)] [].

(** The state after the five tokens before the closing [>>] were
    produced. *)
Definition nested_template_state : State :=
  Eval vm_compute in
    match lex_rounds nested_template_env 5 4 initial_state with
    | Ok s => s
    | _ => initial_state
    end.

Definition nested_template_fetched : State * nat :=
  Eval vm_compute in
    match fetch_token nested_template_env 4 nested_template_state with
    | Ok r => r
    | _ => (initial_state, O)
    end.

Definition nested_template_raw : FormatToken :=
  Eval vm_compute in
    match Arena (fst nested_template_fetched) !! 5%nat with
    | Some t => t
    | None => new_FormatToken
    end.

(** The direct single-token scan the split is compared with:
    [getNextToken] without the split of lines 388-401, so that a
    two-character operator is finished as one token. *)
Definition getNextToken_unsplit (E : Env) (fuel : nat) (s : State)
  : Outcome (State * nat) :=
  let* r := fetch_token E fuel s in
  let p := snd r in
  let* s := measure_token E p (set_TrailingWhitespace 0 (fst r)) in
  let* s := classify E p s in
  Ok (s, p).

(** Two tokens a reader of the stream cannot tell apart: every field is
    equal, the text being compared as a string. *)
Definition same_observable (E : Env) (a b : FormatToken) : Prop :=
  text_of E a = text_of E b /\ set_TokenText (TokenText b) a = b.

(** No [<] right before the pair. *)
Definition no_less_before (s : State) (pre : list nat) : Prop :=
  match list.last pre with
  | None => True
  | Some q => exists tq, Arena s !! q = Some tq /\ is_kind tq tk_less = false
  end.

(** [x << y] and the state after [x] was produced. *)
Definition shift_env : Env :=
  simple_env "x << y"
    [(tk_raw_identifier, 1); (tk_unknown, 1); (tk_lessless, 2);
     (tk_unknown, 1); (tk_raw_identifier, 1)] [].

Definition shift_state : State :=
  Eval vm_compute in
    match lex_rounds shift_env 1 4 initial_state with
    | Ok s => s
    | _ => initial_state
    end.

Definition shift_fetched : State * nat :=
  Eval vm_compute in
    match fetch_token shift_env 4 shift_state with
    | Ok r => r
    | _ => (initial_state, O)
    end.

Definition shift_raw : FormatToken :=
  Eval vm_compute in
    match Arena (fst shift_fetched) !! 1%nat with
    | Some t => t
    | None => new_FormatToken
    end.

(** [==== x <<], newline, [y]: the shift operator ends a line that starts
    with a legacy conflict marker. *)
Definition shift_in_conflict_env : Env :=
  simple_env (String.append "==== x <<" (String.append newline_string "y"))
    [(tk_other 1, 2); (tk_other 1, 2); (tk_unknown, 1);
     (tk_raw_identifier, 1); (tk_unknown, 1); (tk_lessless, 2);
     (tk_unknown, 1); (tk_raw_identifier, 1)] [].

(** ** Invariants of the driver loop *)

(** Every pointer of [l] refers to a token that is not the end-of-file
    token. *)
Definition no_eof (s : State) (l : list nat) : Prop :=
  Forall (fun p => exists t, Arena s !! p = Some t /\ Kind (Tok t) <> tk_eof)
    l.

(** The state stack is [NORMAL], or [TOKEN_STASHED] on top of [NORMAL]
    with [FormatTok] pointing to the first half of the split operator. *)
Definition stack_inv (s : State) : Prop :=
  StateStack s = [NORMAL] \/
  (StateStack s = [TOKEN_STASHED; NORMAL] /\
   exists pOld old, FormatTok s = Some pOld /\
     Arena s !! pOld = Some old /\ IdentInfo (Tok old) = None).

(** What holds at the head of the loop: no end-of-file token yet. *)
Definition driver_invariant (s : State) : Prop :=
  no_eof s (Tokens s) /\ stack_inv s.

(** What holds right after a token was appended and the merge rules ran:
    only the last token may be the end-of-file token. *)
Definition all_but_last_no_eof (s : State) : Prop :=
  exists pre q, Tokens s = pre ++ [q] /\ no_eof s pre /\
                is_Some (Arena s !! q).

(** The stream ends in the end-of-file token and holds no other. *)
Definition exactly_one_eof (s : State) : Prop :=
  exists pre q e, Tokens s = pre ++ [q] /\ Arena s !! q = Some e /\
    Kind (Tok e) = tk_eof /\ no_eof s pre.

(** [s'] differs from [s] in the arena at most at [p], where it now holds
    [t'] in place of [t]; the token vector and [FirstInLineIndex] are
    those of [s]. *)
Definition rewrites (p : nat) (t t' : FormatToken) (s s' : State) : Prop :=
  Arena s !! p = Some t /\ Arena s' = <[p := t']> (Arena s) /\
  Tokens s' = Tokens s /\ FirstInLineIndex s' = FirstInLineIndex s /\
  FormatTok s' = FormatTok s.

Definition with_TabWidth (w : Z) (E : Env) : Env :=
  mkEnv (Buffer E) w (columnWidthWithTabs E) (ForEachMacros E)
    (MacroBlockBeginRegex E) (MacroBlockEndRegex E) (getTokenID E)
    (getPPKeywordID E) (LexFromRawLexer E).

(** Two tabs and an identifier, with tab width 4. *)
Definition tabs_env : Env :=
  with_TabWidth 4
    (simple_env (String ch_tab (String ch_tab "x"))
       [(tk_unknown, 2); (tk_raw_identifier, 1)] []).

(** [FOREACH(x, y)] with [FOREACH] a configured for-each macro. *)
Definition foreach_use_env : Env :=
  simple_env "FOREACH(x, y)"
    [(tk_raw_identifier, 7); (tk_l_paren, 1); (tk_raw_identifier, 1);
     (tk_other 3, 1); (tk_unknown, 1); (tk_raw_identifier, 1);
     (tk_r_paren, 1)] ["FOREACH"%string].

(** A region between the two sentinel comments. *)
Definition format_off_on_env : Env :=
  simple_env
    (String.append "// clang-format off"
       (String.append newline_string
          (String.append "a"
             (String.append newline_string
                (String.append "// clang-format on"
                   (String.append newline_string "b"))))))
    [(tk_comment, 19); (tk_unknown, 1); (tk_raw_identifier, 1);
     (tk_unknown, 1); (tk_comment, 18); (tk_unknown, 1);
     (tk_raw_identifier, 1)] [].

Definition hello_env : Env :=
  simple_env
    (String.append "_T("
       (String.append (String ch_dquote "hello")
          (String.append (String ch_dquote EmptyString) ")")))
    [(tk_raw_identifier, 2); (tk_l_paren, 1); (tk_string_literal, 7);
     (tk_r_paren, 1)] [].

(** ** The generic merge (lines 111-137)

    [tryMergeTokens] is the rule the other merges are instances of in
    spirit: match a fixed sequence of kinds at the tail of the vector,
    refuse when whitespace sits between two of the matched tokens, and
    otherwise let the first token swallow the others. *)

(** The loop of lines 123-130 over [First[1]], [First[2]], ...: [None]
    when a kind does not match or whitespace precedes a token, else the
    accumulated [AddLength] (an [unsigned]). *)
Fixpoint merge_tail_length (s : State) (ptrs : list nat)
    (kinds : list TokenKind) (AddLength : Z) : Outcome (option Z) :=
  match ptrs, kinds with
  | p :: ptrs', k :: kinds' =>
      let* t := deref s p in
      if negb (is_kind t k) || has_whitespace_before t then Ok None
      else merge_tail_length s ptrs' kinds'
             (u32 (AddLength + ref_size (TokenText t)))
  | _, _ => Ok (Some AddLength)
  end.

(** [StringRef(data, size + AddLength)]: the same start, a longer view.
    A longer view of the literal ["<<"] reads past its end. *)
Definition extend_text (r : StringRef) (AddLength : Z) : Outcome StringRef :=
  match r with
  | SrcRef d n => Ok (SrcRef d (usize (n + AddLength)))
  | LessLessLit => if AddLength =? 0 then Ok LessLessLit else Undefined
  end.

Definition tokens_merged (txt : StringRef) (AddLength : Z)
    (NewType : TokenType) (t : FormatToken) : FormatToken :=
  set_Type NewType
    (set_FirstLineColumnWidth (u32 (FirstLineColumnWidth t + AddLength))
       (set_TokenText txt t)).

Definition tryMergeTokens (Kinds : list TokenKind) (NewType : TokenType)
    (s : State) : Outcome (State * bool) :=
  let n := length (Tokens s) in
  let k := length Kinds in
  if (n <? k)%nat then Ok (s, false) else
  match Kinds, drop (n - k) (Tokens s) with
  | k0 :: ks, p0 :: ps =>
      let* t0 := deref s p0 in
      if negb (is_kind t0 k0) then Ok (s, false) else
      let* r := merge_tail_length s ps ks 0 in
      match r with
      | None => Ok (s, false)
      | Some AddLength =>
          let s1 := set_Tokens (take (n - k + 1) (Tokens s)) s in
          let* txt := extend_text (TokenText t0) AddLength in
          let* s2 := update p0 (tokens_merged txt AddLength NewType) s1 in
          Ok (s2, true)
      end
  | _, _ => Undefined      (* no kinds: First[0] and Kinds[0] do not exist *)
  end.

(** Tokens that lie one after the other in the buffer from offset [off]
    on, of the given kinds, none with whitespace before it. *)
Fixpoint adjacent_run (s : State) (off : Z) (ps : list nat)
    (ks : list TokenKind) : Prop :=
  match ps, ks with
  | [], [] => True
  | p :: ps', k :: ks' =>
      exists t n, Arena s !! p = Some t /\ is_kind t k = true /\
        has_whitespace_before t = false /\
        TokenText t = SrcRef off n /\ 0 <= n /\
        adjacent_run s (off + n) ps' ks'
  | _, _ => False
  end.

(** Their total size in bytes and their texts put together. *)
Fixpoint run_bytes (s : State) (ps : list nat) : Z :=
  match ps with
  | [] => 0
  | p :: ps' =>
      match Arena s !! p with
      | Some t => ref_size (TokenText t)
      | None => 0
      end + run_bytes s ps'
  end.

Fixpoint run_text (E : Env) (s : State) (ps : list nat) : text :=
  match ps with
  | [] => []
  | p :: ps' =>
      match Arena s !! p with
      | Some t => text_of E t
      | None => []
      end ++ run_text E s ps'
  end.

(** [a |= b]: three tokens [a], [|], [=] side by side, and the same with a
    blank before the [=]. *)
Definition merge_env : Env :=
  simple_env "a|=b"
    [(tk_raw_identifier, 1); (tk_other 4, 1); (tk_other 5, 1);
     (tk_raw_identifier, 1)] [].

Definition merge_state : State :=
  set_Tokens [0; 1; 2]%nat
    (set_Arena
       [plain_token tk_identifier 0 1 0;
        plain_token (tk_other 4) 1 1 1;
        plain_token (tk_other 5) 2 1 2] initial_state).

Definition merge_spaced_state : State :=
  set_Tokens [0; 1; 2]%nat
    (set_Arena
       [plain_token tk_identifier 0 1 0;
        plain_token (tk_other 4) 1 1 1;
        set_PrecedingWhitespaceRange (2, 3)
          (plain_token (tk_other 5) 3 1 3)] initial_state).

(** An environment with tab width 4 and a text made of tabs. *)
Definition tab_text : text := [ch_tab; ch_tab; "x"%char].

(** [k] backslash-newline pairs. *)
Fixpoint escaped_newlines (k : nat) : text :=
  match k with
  | O => []
  | S k' => ch_bslash :: ch_nl :: escaped_newlines k'
  end.

(** A macro body line: two continuation markers and then [x]. *)
Definition continued_buffer : text :=
  [ch_bslash; ch_nl; ch_bslash; ch_nl; "x"%char].

Definition continued_token : FormatToken :=
  plain_token tk_raw_identifier 0 5 0.

(** [<<< x]: three [<] side by side and an identifier. *)
Definition less_run_state : State :=
  set_Tokens [0; 1; 2; 3]%nat
    (set_Arena
       [plain_token tk_less 0 1 0;
        plain_token tk_less 1 1 1;
        plain_token tk_less 2 1 2;
        set_PrecedingWhitespaceRange (3, 4)
          (plain_token tk_identifier 4 1 4)] initial_state).




(** A string literal that is never closed: a quote and [abc]. *)
Definition unterminated_env : Env :=
  simple_env (String ch_dquote "abc") [(tk_unknown, 4)] [].

(** A state whose arena holds one freshly allocated token. *)
Definition fresh_token_state : State :=
  set_Arena [new_FormatToken] initial_state.

(** A line comment followed by two blanks. *)
Definition comment_env : Env :=
  simple_env "// c  " [(tk_comment, 6)] [].

Definition comment_state : State :=
  set_Arena [plain_token tk_comment 0 6 0] initial_state.

(** A block comment over two lines. *)
Definition multiline_env : Env :=
  simple_env (String.append "/* a" (String ch_nl " b */"))
    [(tk_comment, 10)] [].

Definition multiline_state : State :=
  set_Column 3 (set_Arena [plain_token tk_comment 0 10 0] initial_state).

(** A blank line and then a line that starts with a legacy conflict
    marker; the state after the first token was appended. *)
Definition leading_newline_conflict_env : Env :=
  simple_env (String.append newline_string "==== a")
    [(tk_unknown, 1); (tk_other 1, 2); (tk_other 1, 2); (tk_unknown, 1);
     (tk_raw_identifier, 1)] [].

Definition leading_newline_conflict_token : FormatToken :=
  set_UserNewlinesBefore 1
    (set_PrecedingWhitespaceRange (0, 1)
       (set_IsFirst true (plain_token (tk_other 1) 1 2 0))).

Definition leading_newline_conflict_state : State :=
  set_Tokens [0%nat]
    (set_Arena [leading_newline_conflict_token] initial_state).

(** The final state of the run on [x << y]. *)
Definition shift_final : State :=
  Eval vm_compute in
    match lex shift_env 6 initial_state with
    | Ok s => s
    | _ => initial_state
    end.

(** The token [getNextToken] produces after [x] of [x << y]. *)
Definition shift_next : State * nat :=
  Eval vm_compute in
    match getNextToken shift_env 4 shift_state with
    | Ok r => r
    | _ => (initial_state, O)
    end.

(** The state after the format-off comment of [format_off_on_env] was
    read into a fresh token. *)
Definition format_off_read : State :=
  Eval vm_compute in
    match readRawToken format_off_on_env 0 fresh_token_state with
    | Ok s => s
    | _ => initial_state
    end.

(** A one-token vector with a first-in-line index past its end. *)
Definition stale_index_state : State :=
  set_FirstInLineIndex 2 leading_newline_conflict_state.

(** The raw lexer only reports tokens that lie inside the buffer, and the
    buffer is smaller than 4 GiB (source locations are 32 bits wide). *)
Definition raw_lexer_in_bounds (E : Env) : Prop :=
  Z.of_nat (length (Buffer E)) < 2 ^ 32 /\
  forall pos, 0 <= pos <= Z.of_nat (length (Buffer E)) ->
    0 <= snd (LexFromRawLexer E pos) /\
    pos + snd (LexFromRawLexer E pos) <= Z.of_nat (length (Buffer E)).

(** Where the lexer stands: inside the buffer, with the trailing
    whitespace of the previous token behind it. *)
Definition lexer_in_bounds (E : Env) (s : State) : Prop :=
  0 <= TrailingWhitespace s <= LexPos s /\
  LexPos s <= Z.of_nat (length (Buffer E)).

(** How often a character occurs in a text. *)
Fixpoint count_char (c : ascii) (t : text) : Z :=
  match t with
  | [] => 0
  | x :: r => (if Ascii.eqb x c then 1 else 0) + count_char c r
  end.

(** Blank lines with indentation: newline, blank, CR, LF, tab, newline. *)
Definition blank_lines_text : text :=
  [ch_nl; ch_space; ch_cr; ch_nl; ch_tab; ch_nl].

(** The final state of the run on [a>>b]. *)
Definition stash_final : State :=
  Eval vm_compute in
    match lex stash_env 6 initial_state with
    | Ok s => s
    | _ => initial_state
    end.

(** The identifier the scanner delivers for a call of [getNextToken]: the
    text of the token read from the raw lexer, whitespace before it
    folded, when that token is a raw identifier; nothing for any other
    token and for the second half of a split operator, which is not read
    from the scanner. *)
Definition scanned_identifier (E : Env) (fuel : nat) (s : State)
  : option text :=
  match StateStack s with
  | NORMAL :: _ =>
      match fetch_token E fuel s with
      | Ok r =>
          match Arena (fst r) !! snd r with
          | Some raw =>
              if is_kind raw tk_raw_identifier then Some (text_of E raw)
              else None
          | None => None
          end
      | _ => None
      end
  | _ => None
  end.

(** The last token of the stream is the preprocessor [define] keyword. *)
Definition preceded_by_define (E : Env) (s : State) : Prop :=
  exists q prev name,
    list.last (Tokens s) = Some q /\ Arena s !! q = Some prev /\
    IdentInfo (Tok prev) = Some name /\ getPPKeywordID E name = pp_define.

(** Every pointer of the token vector refers to an allocated token. *)
Definition tokens_allocated (s : State) : Prop :=
  Forall (fun q => is_Some (Arena s !! q)) (Tokens s).

(** The first token of [FOREACH(x, y)]. *)
Definition foreach_use_next : State * nat :=
  Eval vm_compute in
    match getNextToken foreach_use_env 2 initial_state with
    | Ok r => r
    | _ => (initial_state, O)
    end.

Definition foreach_use_token : FormatToken :=
  Eval vm_compute in
    match Arena (fst foreach_use_next) !! 0%nat with
    | Some t => t
    | None => new_FormatToken
    end.

(** A blank line, [<<<<<<< HEAD], newline, [a]. *)
Definition conflict_head_env : Env :=
  simple_env
    (String.append newline_string
       (String.append "<<<<<<< HEAD" (String.append newline_string "a")))
    [(tk_unknown, 1); (tk_lessless, 2); (tk_lessless, 2); (tk_lessless, 2);
     (tk_less, 1); (tk_unknown, 1); (tk_raw_identifier, 4); (tk_unknown, 1);
     (tk_raw_identifier, 1)] [].

(** * Properties *)

(** ** Decidable equalities *)

Lemma text_eqb_eq (a b : text) : text_eqb a b = true <-> a = b.
Proof.
  unfold text_eqb. rewrite String.eqb_eq. split; [|congruence].
  intros H. rewrite <- (list_ascii_of_string_of_list_ascii a),
    <- (list_ascii_of_string_of_list_ascii b). now rewrite H.
Qed.

Lemma text_eqb_refl (a : text) : text_eqb a a = true.
Proof. now apply text_eqb_eq. Qed.

Lemma kind_eqb_eq (a b : TokenKind) : kind_eqb a b = true <-> a = b.
Proof.
  destruct a, b; simpl; split; try congruence; try reflexivity.
  - intros H. apply Nat.eqb_eq in H. now subst.
  - intros H. injection H as ->. apply Nat.eqb_refl.
Qed.

Lemma type_eqb_eq (a b : TokenType) : type_eqb a b = true <-> a = b.
Proof. destruct a, b; simpl; split; congruence. Qed.

(** ** Generic facts about the token vector and the arena *)

Lemma bind_Ok {A B} (m : Outcome A) (k : A -> Outcome B) (a : A) :
  m = Ok a -> bind m k = k a.
Proof. now intros ->. Qed.

Lemma Tokens_back_snoc (s : State) (pre : list nat) (p : nat) :
  Tokens s = pre ++ [p] -> Tokens_back s = Ok p.
Proof. unfold Tokens_back. intros ->. now rewrite last_snoc. Qed.

Lemma Tokens_from_end_app (s : State) (pre suf : list nat) (k : nat) :
  Tokens s = pre ++ suf -> (1 <= k <= length suf)%nat ->
  Tokens_from_end s k = of_option (suf !! (length suf - k)%nat).
Proof.
  intros Ht Hk. unfold Tokens_from_end, Tokens_at. rewrite Ht.
  rewrite length_app.
  destruct (Nat.ltb_spec (length pre + length suf) k) as [Hlt|_]; [lia|].
  rewrite lookup_app_r by lia. do 2 f_equal. lia.
Qed.

Lemma deref_Some (s : State) (p : nat) (t : FormatToken) :
  Arena s !! p = Some t -> deref s p = Ok t.
Proof. unfold deref. now intros ->. Qed.

Lemma update_Some (s : State) (p : nat) (f : FormatToken -> FormatToken)
    (t : FormatToken) :
  Arena s !! p = Some t ->
  update p f s = Ok (set_Arena (<[p := f t]> (Arena s)) s).
Proof. unfold update. intros H. now rewrite (deref_Some _ _ _ H). Qed.

Lemma lookup_updated (a : list FormatToken) (p : nat) (t t' : FormatToken) :
  a !! p = Some t -> <[p := t']> a !! p = Some t'.
Proof.
  intros H. apply list_lookup_insert_eq. now apply lookup_lt_Some in H.
Qed.

Lemma lookup_not_updated (a : list FormatToken) (p q : nat)
    (t' : FormatToken) :
  p <> q -> <[p := t']> a !! q = a !! q.
Proof. intros H. now apply list_lookup_insert_ne. Qed.

(** ** The macro-string merge *)

Lemma tryMerge_TMacro_short (E : Env) (s : State) :
  (length (Tokens s) < 4)%nat -> tryMerge_TMacro E s = Ok (s, false).
Proof.
  intros H. unfold tryMerge_TMacro.
  destruct (Nat.ltb_spec (length (Tokens s)) 4); [reflexivity | lia].
Qed.

Lemma text_T_in_buffer (E : Env) (t : FormatToken) :
  text_of E t = lit "_T" -> exists dm nm, TokenText t = SrcRef dm nm.
Proof.
  unfold text_of. destruct (TokenText t) as [d n|]; [eauto | discriminate].
Qed.

(** C3: when the last four tokens are a token spelled [_T], a left
    parenthesis, a single-line string literal and a right parenthesis, the
    rule leaves one string-literal token in their place, whose text runs
    from the start of [_T] to the end of the closing parenthesis and whose
    first-in-file flag, last newline offset, whitespace range, original
    column, newline count and unescaped-newline flag are those of [_T];
    when the string is multi-line or one of the kind or text checks fails,
    nothing changes. *)
Theorem tryMerge_TMacro_collapses (E : Env) (s : State) (pre : list nat)
    (pM pP pS pL : nat) (tM tP tS tL : FormatToken) (dl nl : Z) :
  Tokens s = pre ++ [pM; pP; pS; pL] ->
  Arena s !! pM = Some tM -> Arena s !! pP = Some tP ->
  Arena s !! pS = Some tS -> Arena s !! pL = Some tL ->
  TokenText tL = SrcRef dl nl ->
  if TMacro_pattern E tM tP tS tL then
    exists dm nm t',
      TokenText tM = SrcRef dm nm /\
      tryMerge_TMacro E s =
        Ok (set_Tokens (pre ++ [pS])
              (set_Arena (<[pS := t']> (Arena s)) s), true) /\
      Kind (Tok t') = tk_string_literal /\
      TokenText t' = SrcRef dm (usize (dl + nl - dm)) /\
      (0 <= dl + nl - dm < 2 ^ 64 -> dm + ref_size (TokenText t') = dl + nl) /\
      IsFirst t' = IsFirst tM /\
      LastNewlineOffset t' = LastNewlineOffset tM /\
      PrecedingWhitespaceRange t' = PrecedingWhitespaceRange tM /\
      OriginalColumn t' = OriginalColumn tM /\
      UserNewlinesBefore t' = UserNewlinesBefore tM /\
      HasUnescapedNewlineBefore t' = HasUnescapedNewlineBefore tM
  else tryMerge_TMacro E s = Ok (s, false).
Proof.
  intros Ht HM HP HS HL HtL.
  assert (Hback : Tokens_back s = Ok pL).
  { apply (Tokens_back_snoc s (pre ++ [pM; pP; pS])).
    now rewrite Ht, <- app_assoc. }
  assert (H2 : Tokens_from_end s 2 = Ok pS)
    by (rewrite (Tokens_from_end_app s pre _ 2 Ht); simpl; [easy | lia]).
  assert (H3 : Tokens_from_end s 3 = Ok pP)
    by (rewrite (Tokens_from_end_app s pre _ 3 Ht); simpl; [easy | lia]).
  assert (H4 : Tokens_from_end s 4 = Ok pM)
    by (rewrite (Tokens_from_end_app s pre _ 4 Ht); simpl; [easy | lia]).
  assert (Hlen : length (Tokens s) = (length pre + 4)%nat)
    by (rewrite Ht, length_app; reflexivity).
  unfold tryMerge_TMacro, TMacro_pattern.
  rewrite Hlen.
  destruct (Nat.ltb_spec (length pre + 4) 4) as [Hlt|_]; [lia|].
  rewrite Hback. simpl bind. rewrite (deref_Some _ _ _ HL). simpl bind.
  destruct (is_kind tL tk_r_paren); cbn [negb andb orb]; [|reflexivity].
  rewrite H2. simpl bind. rewrite (deref_Some _ _ _ HS). simpl bind.
  destruct (is_kind tS tk_string_literal) eqn:Hks; cbn [negb andb orb]; [|reflexivity].
  destruct (IsMultiline tS); cbn [negb andb orb]; [reflexivity|].
  rewrite H3. simpl bind. rewrite (deref_Some _ _ _ HP). simpl bind.
  destruct (is_kind tP tk_l_paren); cbn [negb andb orb]; [|reflexivity].
  rewrite H4. simpl bind. rewrite (deref_Some _ _ _ HM). simpl bind.
  destruct (text_eqb (text_of E tM) (lit "_T")) eqn:HT; cbn [negb andb orb]; [|reflexivity].
  apply text_eqb_eq in HT. destruct (text_T_in_buffer E tM HT) as (dm & nm & HtM).
  exists dm, nm, (TMacro_merged E (SrcRef dm (usize (dl + nl - dm))) tM tS).
  split; [exact HtM|]. split.
  - rewrite HtM, HtL. simpl bind. rewrite (update_Some _ _ _ _ HS).
    simpl bind. do 2 f_equal. simpl Tokens. rewrite Ht.
    replace (length pre + 4 - 4)%nat with (length pre) by lia.
    now rewrite take_app_length.
  - repeat split; try reflexivity.
    + simpl. now apply kind_eqb_eq in Hks.
    + intros Hr. simpl. unfold usize. rewrite Z.mod_small by lia. lia.
Qed.

Lemma tryMerge_TMacro_collapses_witness :
  exists s', tryMerge_TMacro TMacro_env TMacro_state = Ok (s', true) /\
    Tokens s' = [2%nat] /\
    option_map PrecedingWhitespaceRange (Arena s' !! 2%nat) = Some (0, 2).
Proof.
  pose proof (tryMerge_TMacro_collapses TMacro_env TMacro_state []
    0%nat 1%nat 2%nat 3%nat _ _ _ _ 8 1
    eq_refl eq_refl eq_refl eq_refl eq_refl eq_refl) as H.
  simpl in H.
  destruct H as (dm & nm & t' & _ & Hrun & _ & _ & _ & _ & _ & Hws & _).
  eexists. split; [exact Hrun|]. split; [reflexivity|].
  simpl. now rewrite Hws.
Defined.

(** ** The conflict-marker merge *)

Lemma prefix_until_none (p : ascii -> bool) (l : text) :
  Forall (fun c => p c = false) l -> prefix_until p l = l.
Proof.
  induction 1 as [|c l Hc _ IH]; simpl; [reflexivity|].
  now rewrite Hc, IH.
Qed.

Lemma prefix_until_stop (p : ascii -> bool) (l r : text) (c : ascii) :
  Forall (fun c => p c = false) l -> p c = true ->
  prefix_until p (l ++ c :: r) = l.
Proof.
  induction 1 as [|d l Hd _ IH]; simpl; intros Hc.
  - now rewrite Hc.
  - now rewrite Hd, IH.
Qed.

Lemma find_from_spec (p : ascii -> bool) (l : text) (i : Z) :
  match find_from p l i with
  | None => prefix_until p l = l
  | Some j => i <= j /\ prefix_until p l = take (Z.to_nat (j - i)) l
  end.
Proof.
  revert i. induction l as [|c l IH]; intros i; simpl; [reflexivity|].
  destruct (p c) eqn:Hc.
  - split; [lia|]. now rewrite Z.sub_diag.
  - specialize (IH (i + 1)). destruct (find_from p l (i + 1)) as [j|].
    + destruct IH as [Hle IH]. split; [lia|].
      replace (Z.to_nat (j - i)) with (S (Z.to_nat (j - (i + 1)))) by lia.
      simpl. now rewrite IH.
    + now rewrite IH.
Qed.

Lemma rfind_upto_spec (p : ascii -> bool) (l : text) (i : Z)
    (acc : option Z) :
  match rfind_upto p l i acc with
  | Some k =>
      (exists l1 c l2, l = l1 ++ c :: l2 /\ p c = true /\
         k = i + Z.of_nat (length l1) /\ Forall (fun c => p c = false) l2)
      \/ (acc = Some k /\ Forall (fun c => p c = false) l)
  | None => acc = None /\ Forall (fun c => p c = false) l
  end.
Proof.
  revert i acc. induction l as [|c l IH]; intros i acc; simpl.
  - destruct acc; [right|]; split; auto.
  - specialize (IH (i + 1) (if p c then Some i else acc)).
    destruct (rfind_upto p l (i + 1) (if p c then Some i else acc)) as [k|].
    + destruct IH as [(l1 & d & l2 & -> & Hd & -> & Hl2)|[Hacc Hl]].
      * left. exists (c :: l1), d, l2. repeat split; auto. simpl length. lia.
      * destruct (p c) eqn:Hc.
        -- injection Hacc as <-. left. exists [], c, l.
           repeat split; auto. simpl. lia.
        -- right. split; auto.
    + destruct IH as [Hacc Hl]. destruct (p c) eqn:Hc; [discriminate|].
      split; auto.
Qed.

Lemma Forall_rev_iff (p : ascii -> bool) (l : text) :
  Forall (fun c => p c = false) l -> Forall (fun c => p c = false) (rev l).
Proof. intros H. apply Forall_forall. intros x Hx. apply in_rev in Hx.
  rewrite Forall_forall in H. auto. Qed.

(** The line the rule looks at: where [LineOffset] points is exactly the
    text between the previous newline and the offset, followed by the rest
    of the buffer. *)
Lemma LineOffset_spec (b : text) (o : Z) :
  let LineOffset :=
    match text_rfind (is_char ch_nl) b o with
    | None => 0
    | Some k => k + 1
    end in
  0 <= LineOffset <= Z.of_nat (length b) /\
  drop (Z.to_nat LineOffset) b
    = line_before b (Z.to_nat o) ++ drop (Z.to_nat o) b.
Proof.
  unfold text_rfind, line_before. set (n := Z.to_nat o).
  pose proof (rfind_upto_spec (is_char ch_nl) (take n b) 0 None) as H.
  pose proof (take_drop n b) as Hb.
  destruct (rfind_upto (is_char ch_nl) (take n b) 0 None) as [k|]; simpl.
  - destruct H as [(l1 & c & l2 & Hl & Hc & -> & Hl2)|[Hacc _]];
      [|discriminate].
    rewrite Hl. rewrite rev_app_distr. simpl rev. rewrite <- app_assoc.
    simpl app. rewrite (prefix_until_stop _ _ _ _ (Forall_rev_iff _ _ Hl2) Hc).
    rewrite rev_involutive.
    assert (Hlen : (length l1 + 1 + length l2 <= length b)%nat).
    { rewrite <- Hb at 1. rewrite length_app, Hl, length_app. simpl. lia. }
    split; [lia|].
    rewrite <- Hb at 1. rewrite Hl.
    replace (Z.to_nat (0 + Z.of_nat (length l1) + 1)) with (length (l1 ++ [c]))
      by (rewrite length_app; simpl; lia).
    replace ((l1 ++ c :: l2) ++ drop n b) with
      ((l1 ++ [c]) ++ (l2 ++ drop n b))
      by (now rewrite <- !app_assoc).
    now rewrite drop_app_length.
  - destruct H as [_ Hl]. split; [lia|].
    rewrite (prefix_until_none _ _ (Forall_rev_iff _ _ Hl)), rev_involutive.
    simpl. now rewrite Hb.
Qed.

(** [LineStart] computes the leading word of the line. *)
Lemma LineStart_leading_word (E : Env) (o : Z) :
  LineStart E o = leading_word (Buffer E) o.
Proof.
  unfold LineStart, leading_word.
  destruct (LineOffset_spec (Buffer E) o) as [Hrange Hline].
  set (L := match text_rfind (is_char ch_nl) (Buffer E) o with
            | None => 0 | Some k => k + 1 end) in *.
  rewrite <- Hline. unfold text_find, sub_text.
  rewrite Z.min_l by lia.
  pose proof (find_from_spec is_space_or_newline
                (drop (Z.to_nat L) (Buffer E)) L) as H.
  destruct (find_from is_space_or_newline (drop (Z.to_nat L) (Buffer E)) L)
    as [j|].
  - destruct H as [_ H]. now rewrite H.
  - now rewrite H.
Qed.

Lemma conflict_type_start (w : text) :
  In w conflict_start_markers -> conflict_type w = TT_ConflictStart.
Proof. intros [<-|[<-|[]]]; reflexivity. Qed.

Lemma conflict_type_alternative (w : text) :
  In w conflict_alternative_markers ->
  conflict_type w = TT_ConflictAlternative.
Proof. intros [<-|[<-|[<-|[]]]]; reflexivity. Qed.

Lemma conflict_type_end (w : text) :
  In w conflict_end_markers -> conflict_type w = TT_ConflictEnd.
Proof. intros [<-|[<-|[]]]; reflexivity. Qed.

Lemma conflict_type_none (w : text) :
  ~ In w (conflict_start_markers ++ conflict_alternative_markers
          ++ conflict_end_markers) ->
  conflict_type w = TT_Unknown.
Proof.
  intros H. unfold conflict_type.
  repeat match goal with
  | |- context [text_eqb w ?m] =>
      let Hq := fresh "Hq" in
      destruct (text_eqb w m) eqn:Hq;
      [apply text_eqb_eq in Hq; exfalso; apply H; rewrite Hq; simpl; tauto
      |clear Hq]
  end.
  reflexivity.
Qed.

(** X19: the conflict-marker rule leaves the state alone unless the token
    just appended has a newline before it or is the end of file; then,
    with [FirstInLineIndex] inside the vector, if the leading word of the
    line of the token at [FirstInLineIndex] is one of the seven markers,
    the vector becomes its first [FirstInLineIndex] entries followed by
    the token at [FirstInLineIndex], tagged conflict-start, -alternative
    or -end and given the placeholder kind, and the token just appended;
    a leading word that is no marker leaves the state alone.  Nothing is
    assumed about the two tokens being different: when the token just
    appended is itself the one at [FirstInLineIndex], it is the token that
    is retagged and it ends up in the vector twice. *)
Theorem tryMergeConflictMarkers_collapses (E : Env) (s : State)
    (pre : list nat) (pNext : nat) (Next : FormatToken) :
  Tokens s = pre ++ [pNext] -> Arena s !! pNext = Some Next ->
  (UserNewlinesBefore Next = 0 -> Kind (Tok Next) <> tk_eof ->
   tryMergeConflictMarkers E s = Ok (s, false)) /\
  (UserNewlinesBefore Next <> 0 \/ Kind (Tok Next) = tk_eof ->
   forall (pFirst : nat) (First : FormatToken),
   Tokens s !! FirstInLineIndex s = Some pFirst ->
   Arena s !! pFirst = Some First ->
   let w := leading_word (Buffer E) (getStartOfNonWhitespace First) in
   let fires ty :=
     tryMergeConflictMarkers E s =
       Ok (set_Tokens
             (take (FirstInLineIndex s) (Tokens s) ++ [pFirst; pNext])
             (set_Arena
                (<[pFirst := set_Tok
                               (setKind tk_kw___unknown_anytype (Tok First))
                               (set_Type ty First)]> (Arena s)) s), true) in
   (In w conflict_start_markers -> fires TT_ConflictStart) /\
   (In w conflict_alternative_markers -> fires TT_ConflictAlternative) /\
   (In w conflict_end_markers -> fires TT_ConflictEnd) /\
   (~ In w (conflict_start_markers ++ conflict_alternative_markers
            ++ conflict_end_markers) ->
    tryMergeConflictMarkers E s = Ok (s, false))).
Proof.
  intros Ht HN.
  assert (Hback : Tokens_back s = Ok pNext) by exact (Tokens_back_snoc _ _ _ Ht).
  split.
  { intros Hn Hk. unfold tryMergeConflictMarkers.
    rewrite Hback. simpl bind. rewrite (deref_Some _ _ _ HN). simpl bind.
    rewrite Hn. simpl.
    destruct (is_kind Next tk_eof) eqn:He; [|reflexivity].
    apply kind_eqb_eq in He. contradiction. }
  intros Hg pFirst First HF HFt w fires.
  assert (Hgate : (UserNewlinesBefore Next =? 0) && negb (is_kind Next tk_eof)
                  = false).
  { destruct Hg as [Hn|Hk].
    - apply Z.eqb_neq in Hn. now rewrite Hn.
    - unfold is_kind. rewrite Hk. simpl. apply andb_false_r. }
  assert (Hfire : forall ty, ty <> TT_Unknown ->
            conflict_type w = ty -> fires ty).
  { intros ty Hty Hw. unfold fires, tryMergeConflictMarkers.
    rewrite Hback. simpl bind. rewrite (deref_Some _ _ _ HN). simpl bind.
    rewrite Hgate. unfold Tokens_at. rewrite HF. simpl bind.
    rewrite (deref_Some _ _ _ HFt). simpl bind.
    rewrite LineStart_leading_word. fold w. rewrite Hw.
    destruct (type_eqb ty TT_Unknown) eqn:Hu;
      [apply type_eqb_eq in Hu; contradiction|].
    assert (Hnb : Tokens_back
              (set_Tokens (take (FirstInLineIndex s + 1) (Tokens s)) s)
              = Ok pFirst).
    { apply (Tokens_back_snoc _ (take (FirstInLineIndex s) (Tokens s))).
      simpl. replace (FirstInLineIndex s + 1)%nat with (S (FirstInLineIndex s))
        by lia. now apply take_S_r. }
    rewrite Hnb. simpl bind.
    rewrite (update_Some _ _ _ First) by exact HFt. simpl bind.
    do 2 f_equal. simpl.
    replace (FirstInLineIndex s + 1)%nat with (S (FirstInLineIndex s)) by lia.
    rewrite (take_S_r _ _ _ HF), <- app_assoc. reflexivity. }
  repeat split.
  - intros Hw. apply Hfire; [discriminate|].
    now apply conflict_type_start.
  - intros Hw. apply Hfire; [discriminate|].
    now apply conflict_type_alternative.
  - intros Hw. apply Hfire; [discriminate|].
    now apply conflict_type_end.
  - intros Hw. unfold tryMergeConflictMarkers.
    rewrite Hback. simpl bind. rewrite (deref_Some _ _ _ HN). simpl bind.
    rewrite Hgate. unfold Tokens_at. rewrite HF. simpl bind.
    rewrite (deref_Some _ _ _ HFt). simpl bind.
    rewrite LineStart_leading_word. fold w.
    now rewrite (conflict_type_none _ Hw).
Qed.

Lemma tryMergeConflictMarkers_collapses_witness :
  exists s', tryMergeConflictMarkers conflict_env conflict_state = Ok (s', true)
    /\ Tokens s' = [0; 3]%nat
    /\ option_map Type_ (Arena s' !! 0%nat) = Some TT_ConflictAlternative.
Proof.
  destruct (tryMergeConflictMarkers_collapses conflict_env conflict_state
              [0; 1; 2]%nat 3%nat _ eq_refl eq_refl) as [_ H].
  assert (Hg : UserNewlinesBefore
                 (set_UserNewlinesBefore 1
                    (set_PrecedingWhitespaceRange (6, 7)
                       (plain_token tk_identifier 7 1 0))) <> 0
               \/ Kind (Tok (set_UserNewlinesBefore 1
                    (set_PrecedingWhitespaceRange (6, 7)
                       (plain_token tk_identifier 7 1 0)))) = tk_eof)
    by (left; simpl; lia).
  destruct (H Hg 0%nat _ eq_refl eq_refl) as (_ & Halt & _).
  eexists. split.
  - apply Halt. right. right. left. reflexivity.
  - split; reflexivity.
Defined.

(** C2 fails on a blank line followed by [<<<<<<< HEAD], newline, [a]:
    the first token of the file has a newline before it and is itself the
    token at [FirstInLineIndex], so there is nothing between that index
    and the token just appended to collapse; the rule all the same retags
    the token just appended, gives it the placeholder kind and appends it
    a second time, and the stream [lex] returns holds that token twice. *)
Theorem lex_conflict_marker_repeats_first_token :
  (exists s1 s2,
     getNextToken conflict_head_env 12 initial_state = Ok (s1, 0%nat) /\
     Tokens s1 = [] /\ FirstInLineIndex s1 = 0%nat /\
     option_map (fun t => (Kind (Tok t), UserNewlinesBefore t, Type_ t))
       (Arena s1 !! 0%nat) = Some (tk_less, 1, TT_Unknown) /\
     tryMergeConflictMarkers conflict_head_env (set_Tokens [0%nat] s1)
       = Ok (s2, true) /\
     Tokens s2 = [0; 0]%nat /\
     option_map (fun t => (Kind (Tok t), Type_ t)) (Arena s2 !! 0%nat)
       = Some (tk_kw___unknown_anytype, TT_ConflictStart)) /\
  outcome_map
    (fun s => (Tokens s, kinds_and_texts conflict_head_env s,
               map (option_map Type_) (token_stream s)))
    (lex conflict_head_env 12 initial_state)
  = Ok ([0; 0; 8; 9]%nat,
        [Some (tk_kw___unknown_anytype, "<"%string);
         Some (tk_kw___unknown_anytype, "<"%string);
         Some (tk_identifier, "a"%string); Some (tk_eof, EmptyString)],
        [Some TT_ConflictStart; Some TT_ConflictStart;
         Some TT_Unknown; Some TT_Unknown]).
Proof.
  split.
  - eexists. eexists. split; [vm_compute; reflexivity|].
    split; [reflexivity|]. split; [reflexivity|].
    split; [reflexivity|].
    split; [vm_compute; reflexivity|].
    split; reflexivity.
  - vm_compute. reflexivity.
Qed.

(** ** The stashed token *)

(** C10: the token produced from a pending stash has an empty whitespace
    range, no newlines before it, width 1 and the original column of the
    first half plus one (in [unsigned] arithmetic), so the whitespace test
    of the [<<] rule finds nothing between the two halves. *)
Theorem stashed_token_fields (E : Env) (fuel : nat) (s : State)
    (rest : list LexerState) (pOld : nat) (old : FormatToken) :
  StateStack s = TOKEN_STASHED :: rest ->
  FormatTok s = Some pOld -> Arena s !! pOld = Some old ->
  exists s' t,
    getNextToken E fuel s = Ok (s', length (Arena s)) /\
    Arena s' = Arena s ++ [t] /\ StateStack s' = rest /\
    fst (PrecedingWhitespaceRange t) = snd (PrecedingWhitespaceRange t) /\
    UserNewlinesBefore t = 0 /\
    FirstLineColumnWidth t = 1 /\
    OriginalColumn t = u32 (OriginalColumn old + 1) /\
    (0 <= OriginalColumn old < 2 ^ 32 - 1 ->
     OriginalColumn t = OriginalColumn old + 1) /\
    has_whitespace_before t = false.
Proof.
  intros Hst Hf Hold.
  exists (set_Arena (Arena s ++ [stashed_token old])
            (set_FormatTok (Some (length (Arena s)))
               (set_StateStack rest s))), (stashed_token old).
  repeat split.
  - unfold getNextToken, getStashedToken. rewrite Hst. simpl.
    rewrite Hf. simpl bind. unfold deref. simpl. rewrite Hold. simpl bind.
    unfold update, deref. simpl.
    rewrite lookup_app_r by lia. rewrite Nat.sub_diag. simpl.
    do 2 f_equal. unfold set_Arena, set_FormatTok, set_StateStack. simpl.
    f_equal. rewrite insert_app_r_alt by lia.
    now rewrite Nat.sub_diag.
  - intros Hr. simpl. unfold u32. apply Z.mod_small. lia.
  - unfold has_whitespace_before. simpl. now rewrite Z.eqb_refl.
Qed.

Lemma stashed_token_fields_witness :
  exists s' t,
    getNextToken stash_env 0 stash_state = Ok (s', 2%nat) /\
    Arena s' !! 2%nat = Some t /\ OriginalColumn t = 2 /\
    Kind (Tok t) = tk_greater /\ text_of stash_env t = lit ">".
Proof.
  destruct (stashed_token_fields stash_env 0 stash_state [NORMAL] 1%nat _
              eq_refl eq_refl eq_refl)
    as (s' & t & Hrun & Ha & _ & _ & _ & _ & Hc & _).
  exists s', t. split; [exact Hrun|].
  assert (Ht : Arena s' !! 2%nat = Some t) by (rewrite Ha; reflexivity).
  split; [exact Ht|].
  vm_compute in Hrun. injection Hrun as <-. injection Ht as <-.
  repeat split; reflexivity.
Defined.

(** ** Whitespace folding *)

Lemma even_of_nat (m : nat) : Z.even (Z.of_nat m) = Nat.even m.
Proof.
  induction m as [|m IH]; [reflexivity|].
  rewrite Nat2Z.inj_succ, Z.even_succ, Nat.even_succ.
  now rewrite <- Z.negb_even, <- Nat.negb_even, IH.
Qed.

Lemma u32_parity (x y : Z) : (u32 x + y) mod 2 = (x + y) mod 2.
Proof.
  unfold u32. rewrite (Z.div_mod x (2 ^ 32)) at 2 by lia.
  replace (2 ^ 32 * (x / 2 ^ 32) + x mod 2 ^ 32 + y)
    with (x mod 2 ^ 32 + y + (2 ^ 31 * (x / 2 ^ 32)) * 2) by lia.
  now rewrite Z_mod_plus_full.
Qed.

Lemma count_backslashes_parity (Text : text) (k : nat) (count : Z) :
  (k <= length Text)%nat ->
  count_backslashes Text k count mod 2
    = (count + Z.of_nat (backslashes_before Text k)) mod 2.
Proof.
  revert count. induction k as [|k IH]; intros count Hk.
  - simpl. now rewrite Z.add_0_r.
  - destruct (lookup_lt_is_Some_2 Text k) as [c Hc]; [lia|].
    unfold backslashes_before. rewrite (take_S_r _ _ _ Hc), rev_app_distr.
    simpl. rewrite Hc. destruct (Ascii.eqb c ch_bslash).
    + rewrite IH by lia. rewrite u32_parity. unfold backslashes_before.
      f_equal. lia.
    + simpl. now rewrite Z.add_0_r.
Qed.

Lemma EscapesNewline_parity (Text : text) (n : nat) :
  (n <= length Text)%nat ->
  (EscapesNewline Text (Z.of_nat n - 1) =? 0)
    = Nat.even (backslashes_before Text (newline_anchor Text n)).
Proof.
  intros Hn. unfold EscapesNewline.
  set (pos := if (0 <=? Z.of_nat n - 1) &&
                 match char_at Text (Z.of_nat n - 1) with
                 | Some c => Ascii.eqb c ch_cr
                 | None => false
                 end
              then Z.of_nat n - 1 - 1 else Z.of_nat n - 1).
  assert (Hpos : Z.to_nat (pos + 1) = newline_anchor Text n).
  { subst pos. destruct n as [|j]; [reflexivity|].
    unfold newline_anchor, char_at.
    replace (Z.of_nat (S j) - 1) with (Z.of_nat j) by lia.
    destruct (Z.leb_spec 0 (Z.of_nat j)); [|lia].
    destruct (Z.ltb_spec (Z.of_nat j) 0); [lia|].
    rewrite Nat2Z.id. simpl andb.
    destruct (Text !! j) as [c|]; [destruct (Ascii.eqb c ch_cr)|]; lia. }
  rewrite Hpos.
  assert (Hle : (newline_anchor Text n <= length Text)%nat).
  { destruct n as [|j]; simpl; [lia|].
    destruct (Text !! j) as [c|]; [destruct (Ascii.eqb c ch_cr)|]; lia. }
  change 1 with (Z.ones 1) at 1. rewrite Z.land_ones by lia.
  change (2 ^ 1) with 2.
  rewrite (count_backslashes_parity _ _ 0 Hle). simpl Z.add.
  set (m := backslashes_before Text (newline_anchor Text n)).
  rewrite Z.add_0_l. now rewrite <- Zeven_mod, even_of_nat.
Qed.

(** C9: when the character loop meets a newline at index [n] of a
    whitespace text, it goes on with the next character after having
    added one to the newline count, recorded the offset just past the
    newline, reset the column to 0 and set the unescaped flag to "the run
    of backslashes right before the newline, a carriage return directly
    before it stepped over, has even length". *)
Theorem fold_chars_newline (E : Env) (Text : text) (WhitespaceLength : Z)
    (n : nat) (rest : text) (t : FormatToken) (col : Z) :
  Text !! n = Some ch_nl -> Type_ t <> TT_ImplicitStringLiteral ->
  exists t',
    fold_chars E Text WhitespaceLength (Z.of_nat n) (ch_nl :: rest) (t, col)
      = fold_chars E Text WhitespaceLength (Z.of_nat n + 1) rest (t', 0) /\
    UserNewlinesBefore t' = u32 (UserNewlinesBefore t + 1) /\
    (0 <= UserNewlinesBefore t < 2 ^ 32 - 1 ->
     UserNewlinesBefore t' = UserNewlinesBefore t + 1) /\
    LastNewlineOffset t' = u32 (WhitespaceLength + Z.of_nat n + 1) /\
    HasUnescapedNewlineBefore t'
      = Nat.even (backslashes_before Text (newline_anchor Text n)) /\
    Type_ t' = Type_ t /\ Tok t' = Tok t /\ TokenText t' = TokenText t.
Proof.
  intros Hn Hty.
  exists (set_LastNewlineOffset (u32 (WhitespaceLength + Z.of_nat n + 1))
            (set_HasUnescapedNewlineBefore
               (EscapesNewline Text (Z.of_nat n - 1) =? 0)
               (set_UserNewlinesBefore (u32 (UserNewlinesBefore t + 1)) t))).
  repeat split.
  - simpl.
    destruct (type_eqb (Type_ t) TT_ImplicitStringLiteral) eqn:Hi;
      [apply type_eqb_eq in Hi; contradiction | reflexivity].
  - intros Hr. simpl. unfold u32. apply Z.mod_small. lia.
  - simpl. apply EscapesNewline_parity.
    apply lookup_lt_Some in Hn. lia.
Qed.

Lemma fold_chars_newline_witness :
  exists t',
    fold_chars stash_env trivia_text 0 2 [ch_nl; ch_space; ch_nl]
      (new_FormatToken, 5)
      = fold_chars stash_env trivia_text 0 3 [ch_space; ch_nl] (t', 0) /\
    UserNewlinesBefore t' = 1 /\ LastNewlineOffset t' = 3 /\
    HasUnescapedNewlineBefore t' = false.
Proof.
  destruct (fold_chars_newline stash_env trivia_text 0 2
              [ch_space; ch_nl] new_FormatToken 5 eq_refl)
    as (t' & Hrun & _ & Hnl & Hoff & Hesc & _).
  - discriminate.
  - exists t'. split; [exact Hrun|].
    split; [apply Hnl; simpl; lia|]. split; [exact Hoff | exact Hesc].
Defined.

(** ** Reset *)

(** C7, as the code has it: [resetLexer] moves the raw lexer to the given
    offset and clears the trailing-whitespace count; the state stack with
    a pending stash, the running column, the remaining flags, the arena
    and the token vector are all left as they were. *)
Theorem resetLexer_frame (Offset : Z) (s : State) :
  LexPos (resetLexer Offset s) = Offset /\
  TrailingWhitespace (resetLexer Offset s) = 0 /\
  StateStack (resetLexer Offset s) = StateStack s /\
  Column (resetLexer Offset s) = Column s /\
  FormatTok (resetLexer Offset s) = FormatTok s /\
  IsFirstToken (resetLexer Offset s) = IsFirstToken s /\
  FormattingDisabled (resetLexer Offset s) = FormattingDisabled s /\
  FirstInLineIndex (resetLexer Offset s) = FirstInLineIndex s /\
  Tokens (resetLexer Offset s) = Tokens s /\
  Arena (resetLexer Offset s) = Arena s /\
  token_stream (resetLexer Offset s) = token_stream s.
Proof. repeat split. Qed.

(** X16: after a reset the next raw read starts at the offset: the token
    read lies at the offset and the lexer stands right behind it. *)
Lemma readRawToken_after_reset (E : Env) (Offset : Z) (s : State) (p : nat)
    (t : FormatToken) :
  Arena s !! p = Some t ->
  exists s' t',
    readRawToken E p (resetLexer Offset s) = Ok s' /\
    Arena s' !! p = Some t' /\ Loc (Tok t') = Offset /\
    Length (Tok t') = snd (LexFromRawLexer E Offset) /\
    LexPos s' = Offset + snd (LexFromRawLexer E Offset).
Proof.
  intros Hp. unfold readRawToken.
  rewrite (deref_Some (resetLexer Offset s) p t Hp). simpl bind.
  change (LexPos (resetLexer Offset s)) with Offset.
  destruct (LexFromRawLexer E Offset) as [k len]. cbv zeta.
  match goal with
  | |- context [update p (fun _ => ?tok) ?st] =>
      exists (set_Arena (<[p := tok]> (Arena st)) st), tok;
      rewrite (update_Some st p _ t)
  end.
  - split; [reflexivity|].
    split; [cbn [Arena set_Arena]; apply (lookup_updated _ _ t)|].
    + repeat match goal with
      | |- context [if ?b then _ else _] => destruct b
      end; exact Hp.
    + repeat match goal with
      | |- context [if ?b then _ else _] => destruct b
      | |- context [match ?l with [] => _ | _ :: _ => _ end] => destruct l
      end; repeat split; reflexivity.
  - repeat match goal with
    | |- context [if ?b then _ else _] => destruct b
    end; exact Hp.
Qed.

(** C7 as stated does not hold: a pending stash survives the reset, and
    the token produced next is the synthesized [>], not a token read at
    the new offset. *)
Lemma resetLexer_discards_stash_counterexample :
  StateStack stash_state = [TOKEN_STASHED; NORMAL] /\
  StateStack (resetLexer 0 stash_state) = [TOKEN_STASHED; NORMAL] /\
  exists s',
    getNextToken stash_env 1 (resetLexer 0 stash_state) = Ok (s', 2%nat) /\
    LexPos s' = 0 /\
    option_map (fun t => (Kind (Tok t), Loc (Tok t))) (Arena s' !! 2%nat)
      = Some (tk_greater, 2).
Proof.
  split; [reflexivity|]. split; [reflexivity|].
  eexists. split; [vm_compute; reflexivity|]. split; reflexivity.
Qed.

(** ** Frame lemmas for token production

    Every phase of [getNextToken] works on the token [FormatTok] points to
    and leaves the rest of the arena and the token vector alone. *)

Lemma bind_inv {A B} (m : Outcome A) (k : A -> Outcome B) (b : B) :
  bind m k = Ok b -> exists a, m = Ok a /\ k a = Ok b.
Proof. destruct m; simpl; intros H; try discriminate. eauto. Qed.

Lemma deref_inv (s : State) (p : nat) (t : FormatToken) :
  deref s p = Ok t -> Arena s !! p = Some t.
Proof. unfold deref. destruct (Arena s !! p); simpl; congruence. Qed.

Lemma update_inv (p : nat) (f : FormatToken -> FormatToken) (s s' : State) :
  update p f s = Ok s' ->
  exists t, Arena s !! p = Some t /\
            s' = set_Arena (<[p := f t]> (Arena s)) s.
Proof.
  unfold update. intros H. apply bind_inv in H as (t & Ht & H).
  apply deref_inv in Ht. injection H as <-. eauto.
Qed.

Lemma rewrites_lookup (p : nat) (t t' : FormatToken) (s s' : State) :
  rewrites p t t' s s' -> Arena s' !! p = Some t'.
Proof. intros (Ht & -> & _). now apply (lookup_updated _ _ t). Qed.

Lemma rewrites_other (p q : nat) (t t' : FormatToken) (s s' : State) :
  rewrites p t t' s s' -> q <> p -> Arena s' !! q = Arena s !! q.
Proof. intros (_ & -> & _) Hq. apply lookup_not_updated. congruence. Qed.

Lemma rewrites_trans (p : nat) (t t' t'' : FormatToken) (s s' s'' : State) :
  rewrites p t t' s s' -> rewrites p t' t'' s' s'' -> rewrites p t t'' s s''.
Proof.
  intros (Ht & Ha & Hk & Hf & Hp) (_ & Ha' & Hk' & Hf' & Hp').
  repeat split; try congruence.
  rewrite Ha', Ha. apply list_insert_insert_eq.
Qed.

Lemma rewrites_refl (p : nat) (t : FormatToken) (s : State) :
  Arena s !! p = Some t -> rewrites p t t s s.
Proof.
  intros Ht. repeat split; auto. symmetry. now apply list_insert_id.
Qed.

Lemma update_rewrites (p : nat) (f : FormatToken -> FormatToken)
    (s s' : State) (t : FormatToken) :
  Arena s !! p = Some t -> update p f s = Ok s' -> rewrites p t (f t) s s'.
Proof.
  intros Ht H. apply update_inv in H as (t0 & Ht0 & ->).
  assert (t0 = t) by congruence. subst. repeat split; auto.
Qed.

Tactic Notation "inv_bind" hyp(H) "as" ident(a) ident(Ha) :=
  apply bind_inv in H as (a & Ha & H).

Lemma readRawToken_rewrites (E : Env) (p : nat) (s s' : State)
    (t : FormatToken) :
  Arena s !! p = Some t -> readRawToken E p s = Ok s' ->
  exists t', rewrites p t t' s s' /\ Type_ t' = Type_ t /\
             IdentInfo (Tok t') = None /\
             StateStack s' = StateStack s /\ Column s' = Column s.
Proof.
  intros Ht H. unfold readRawToken in H.
  rewrite (deref_Some _ _ _ Ht) in H. simpl bind in H.
  destruct (LexFromRawLexer E (LexPos s)) as [k len]. cbv zeta in H.
  match type of H with
  | update p (fun _ => ?tok) ?st = _ =>
      exists tok;
      assert (Hst : Arena st !! p = Some t)
        by (repeat match goal with
            | |- context [if ?b then _ else _] => destruct b
            end; exact Ht);
      pose proof (update_rewrites p _ st s' t Hst H) as Hr
  end.
  destruct Hr as (_ & Ha & Hk & Hf & Hp).
  split; [|split; [|split; [|split]]].
  - repeat split; auto.
    + rewrite Ha. repeat match goal with
      | |- context [if ?b then _ else _] => destruct b
      end; reflexivity.
    + rewrite Hk. repeat match goal with
      | |- context [if ?b then _ else _] => destruct b
      end; reflexivity.
    + rewrite Hf. repeat match goal with
      | |- context [if ?b then _ else _] => destruct b
      end; reflexivity.
    + rewrite Hp. repeat match goal with
      | |- context [if ?b then _ else _] => destruct b
      end; reflexivity.
  - repeat match goal with
    | |- context [if ?b then _ else _] => destruct b
    | |- context [match ?l with [] => _ | _ :: _ => _ end] => destruct l
    end; reflexivity.
  - repeat match goal with
    | |- context [if ?b then _ else _] => destruct b
    | |- context [match ?l with [] => _ | _ :: _ => _ end] => destruct l
    end; reflexivity.
  - apply update_inv in H as (t0 & _ & ->).
    repeat match goal with
    | |- context [if ?b then _ else _] => destruct b
    end; reflexivity.
  - apply update_inv in H as (t0 & _ & ->).
    repeat match goal with
    | |- context [if ?b then _ else _] => destruct b
    end; reflexivity.
Qed.

Lemma fold_char_keeps (E : Env) (Text : text) (WL i : Z) (c : ascii)
    (t : FormatToken) (col : Z) :
  let t' := fst (fold_char E Text WL i c (t, col)) in
  Tok t' = Tok t /\ TokenText t' = TokenText t /\
  Finalized t' = Finalized t /\
  (Type_ t' = Type_ t \/ Type_ t' = TT_ImplicitStringLiteral).
Proof.
  unfold fold_char.
  repeat match goal with
  | |- context [if ?b then _ else _] => destruct b
  | |- context [match char_at ?a ?b with _ => _ end] => destruct (char_at a b)
  end; simpl; auto.
Qed.

Lemma fold_chars_keeps (E : Env) (Text : text) (WL : Z) (rest : text) :
  forall (i : Z) (t : FormatToken) (col : Z),
  let t' := fst (fold_chars E Text WL i rest (t, col)) in
  Tok t' = Tok t /\ TokenText t' = TokenText t /\
  Finalized t' = Finalized t /\
  (Type_ t' = Type_ t \/ Type_ t' = TT_ImplicitStringLiteral).
Proof.
  induction rest as [|c rest IH]; intros i t col; cbn [fold_chars];
    [simpl; auto|].
  pose proof (fold_char_keeps E Text WL i c t col) as Hc.
  destruct (fold_char E Text WL i c (t, col)) as [t1 col1].
  simpl in Hc. destruct Hc as (Hk & Hx & Hf & Hty). simpl fst.
  destruct (type_eqb (Type_ t1) TT_ImplicitStringLiteral) eqn:Hi.
  - simpl. repeat split; auto.
  - specialize (IH (i + 1) t1 col1). simpl in IH.
    destruct IH as (Hk' & Hx' & Hf' & Hty').
    repeat split; try congruence.
    destruct Hty' as [Hty'|Hty']; [|now right].
    destruct Hty as [Hty|Hty]; [left|right]; congruence.
Qed.

Lemma fold_whitespace_rewrites (E : Env) (p : nat) (fuel : nat) :
  forall (WL : Z) (s : State) (t : FormatToken) (s' : State) (WL' : Z),
  Arena s !! p = Some t ->
  fold_whitespace E fuel p WL s = Ok (s', WL') ->
  exists t', rewrites p t t' s s' /\
    (unclassified t -> unclassified t') /\
    (IdentInfo (Tok t) = None -> IdentInfo (Tok t') = None) /\
    StateStack s' = StateStack s.
Proof.
  induction fuel as [|fuel IH]; intros WL s t s' WL' Ht H.
  - simpl in H. rewrite (deref_Some _ _ _ Ht) in H. simpl bind in H.
    destruct (negb (is_kind t tk_unknown)); [|discriminate].
    injection H as <- <-. exists t.
    split; [now apply rewrites_refl|repeat split; auto].
  - simpl in H. rewrite (deref_Some _ _ _ Ht) in H. simpl bind in H.
    destruct (negb (is_kind t tk_unknown)).
    { injection H as <- <-. exists t. split; [now apply rewrites_refl|repeat split; auto]. }
    pose proof (fold_chars_keeps E (text_of E t) WL (text_of E t) 0 t
                  (Column s)) as Hk.
    destruct (fold_chars E (text_of E t) WL 0 (text_of E t) (t, Column s))
      as [t1 col1].
    simpl in Hk. destruct Hk as (Hk1 & Hk2 & Hk3 & Hk4).
    inv_bind H as a Ha.
    assert (Hr1 : rewrites p t t1 s a).
    { apply (update_rewrites p (fun _ => t1) (set_Column col1 s) a t Ht) in Ha.
      destruct Ha as (? & ? & ? & ? & ?). repeat split; auto. }
    assert (Hs1 : StateStack a = StateStack s).
    { apply update_inv in Ha as (? & _ & ->). reflexivity. }
    destruct (type_eqb (Type_ t1) TT_ImplicitStringLiteral) eqn:Hi.
    + injection H as <- <-. exists t1. split; [exact Hr1|].
      split; [|split; [congruence | exact Hs1]].
      intros _. right. now apply type_eqb_eq.
    + inv_bind H as a0 Ha0.
      destruct (readRawToken_rewrites E p a a0 t1
                  (rewrites_lookup _ _ _ _ _ Hr1) Ha0)
        as (t2 & Hr2 & Hty2 & Hid2 & Hs2 & _).
      destruct (IH _ _ t2 _ _ (rewrites_lookup _ _ _ _ _ Hr2) H)
        as (t3 & Hr3 & Hu3 & Hid3 & Hs3).
      exists t3. split.
      { eapply rewrites_trans; [|exact Hr3].
        eapply rewrites_trans; [exact Hr1 | exact Hr2]. }
      split; [|split; [auto | congruence]].
      intros Hu. apply Hu3. unfold unclassified in *. rewrite Hty2.
      destruct Hk4 as [Hk4|Hk4]; [rewrite Hk4; exact Hu | now right].
Qed.

Lemma strip_escaped_newlines_keeps (b : text) (fuel : nat) :
  forall (t : FormatToken) (WL col : Z),
  let t' := fst (fst (strip_escaped_newlines fuel b (t, WL, col))) in
  Tok t' = Tok t /\ Type_ t' = Type_ t /\ Finalized t' = Finalized t.
Proof.
  induction fuel as [|fuel IH]; intros t WL col; simpl; [auto|].
  destruct ((1 <? ref_size (TokenText t))
            && starts_with_escaped_newline (str b (TokenText t)));
    [|simpl; auto].
  match goal with
  | |- context [strip_escaped_newlines fuel b (?t1, ?w1, ?c1)] =>
      specialize (IH t1 w1 c1)
  end.
  simpl in IH. exact IH.
Qed.

Lemma insert_fresh (a : list FormatToken) (t t' : FormatToken) :
  <[length a := t']> (a ++ [t]) = a ++ [t'].
Proof.
  rewrite insert_app_r_alt by lia. now rewrite Nat.sub_diag.
Qed.

(** What [fetch_token] leaves behind: one more token in the arena, still
    unclassified and without identifier info; nothing else moved. *)
Lemma fetch_token_spec (E : Env) (fuel : nat) (s s' : State) (p : nat) :
  fetch_token E fuel s = Ok (s', p) ->
  p = length (Arena s) /\
  exists t', Arena s' = Arena s ++ [t'] /\
    Tokens s' = Tokens s /\ FirstInLineIndex s' = FirstInLineIndex s /\
    FormatTok s' = Some p /\ StateStack s' = StateStack s /\
    unclassified t' /\ IdentInfo (Tok t') = None.
Proof.
  unfold fetch_token, allocate. intros H.
  set (p0 := length (Arena s)) in *.
  set (s0 := set_FormatTok (Some p0)
               (set_Arena (Arena s ++ [new_FormatToken]) s)) in *.
  assert (H0 : Arena s0 !! p0 = Some new_FormatToken).
  { subst s0 p0. simpl. rewrite lookup_app_r by lia.
    now rewrite Nat.sub_diag. }
  inv_bind H as s1 Hs1.
  destruct (readRawToken_rewrites E p0 s0 s1 _ H0 Hs1)
    as (t1 & Hr1 & Hty1 & Hid1 & Hst1 & _).
  inv_bind H as t1' Ht1'. apply deref_inv in Ht1'.
  assert (t1' = t1) by (rewrite (rewrites_lookup _ _ _ _ _ Hr1) in Ht1';
                        congruence). subst t1'.
  inv_bind H as s2 Hs2.
  pose proof (update_rewrites p0 _ s1 s2 t1 Ht1' Hs2) as Hr2.
  assert (Hst2 : StateStack s2 = StateStack s1)
    by (apply update_inv in Hs2 as (? & _ & ->); reflexivity).
  inv_bind H as r3 Hs3. destruct r3 as [s3 WL3].
  set (t2 := set_IsFirst (IsFirstToken s1) t1) in *.
  assert (Hl2 : Arena (set_IsFirstToken false s2) !! p0 = Some t2)
    by (simpl; exact (rewrites_lookup _ _ _ _ _ Hr2)).
  destruct (fold_whitespace_rewrites E p0 fuel _ _ t2 _ _ Hl2 Hs3)
    as (t3 & Hr3 & Hu3 & Hid3 & Hst3).
  simpl fst in H. simpl snd in H.
  inv_bind H as t3' Ht3'. apply deref_inv in Ht3'.
  assert (t3' = t3) by (rewrite (rewrites_lookup _ _ _ _ _ Hr3) in Ht3';
                        congruence). subst t3'.
  pose proof (strip_escaped_newlines_keeps (Buffer E)
                (Z.to_nat (ref_size (TokenText t3))) t3 WL3 (Column s3))
    as Hk.
  destruct (strip_escaped_newlines (Z.to_nat (ref_size (TokenText t3)))
              (Buffer E) (t3, WL3, Column s3)) as [[t4 WL4] col4].
  simpl in Hk. destruct Hk as (Hk1 & Hk2 & Hk3).
  inv_bind H as s4 Hs4. injection H as <- <-.
  match type of Hs4 with
  | update p0 (fun _ => ?tok) ?st = _ =>
      assert (Hl3 : Arena st !! p0 = Some t3) by (simpl; exact Ht3');
      pose proof (update_rewrites p0 _ st s4 t3 Hl3 Hs4) as Hr4;
      set (t5 := tok) in *
  end.
  assert (Hst4 : StateStack s4 = StateStack s3)
    by (apply update_inv in Hs4 as (? & _ & ->); reflexivity).
  split; [reflexivity|]. exists t5.
  destruct Hr1 as (_ & A1 & K1 & F1 & P1).
  destruct Hr2 as (_ & A2 & K2 & F2 & P2).
  destruct Hr3 as (_ & A3 & K3 & F3 & P3).
  destruct Hr4 as (_ & A4 & K4 & F4 & P4).
  simpl in *.
  repeat split.
  - rewrite A4, A3, A2, A1. subst s0. simpl.
    rewrite !list_insert_insert_eq. apply insert_fresh.
  - congruence.
  - congruence.
  - rewrite P4, P3, P2, P1. reflexivity.
  - rewrite Hst4, Hst3. simpl. rewrite Hst2, Hst1. reflexivity.
  - subst t5. unfold unclassified in *. simpl. rewrite Hk2. apply Hu3.
    subst t2. simpl. rewrite Hty1. now left.
  - subst t5. simpl. rewrite Hk1. apply Hid3. subst t2. simpl. exact Hid1.
Qed.

Lemma adjust_kind_spec (E : Env) (p : nat) (s s' : State) (t : FormatToken) :
  Arena s !! p = Some t -> adjust_kind E p s = Ok s' ->
  exists t', rewrites p t t' s s' /\ Type_ t' = Type_ t /\
    Finalized t' = Finalized t /\
    (IdentInfo (Tok t) = None ->
     IdentInfo (Tok t') = None \/ IdentInfo (Tok t') = Some (text_of E t')).
Proof.
  intros Ht H. unfold adjust_kind in H.
  rewrite (deref_Some _ _ _ Ht) in H. simpl bind in H.
  assert (Ht0 : Arena (set_TrailingWhitespace 0 s) !! p = Some t)
    by exact Ht.
  assert (Hlift : forall (f : FormatToken -> FormatToken) (s1 : State),
            update p f (set_TrailingWhitespace 0 s) = Ok s1 ->
            rewrites p t (f t) s s1).
  { intros f s1 Hu. apply (update_rewrites _ _ _ _ t Ht0) in Hu.
    destruct Hu as (? & ? & ? & ? & ?). repeat split; auto. }
  assert (Hkeep : forall (t' : FormatToken) (s1 s2 : State),
            rewrites p t t' s s1 -> Arena s2 = Arena s1 ->
            Tokens s2 = Tokens s1 ->
            FirstInLineIndex s2 = FirstInLineIndex s1 ->
            FormatTok s2 = FormatTok s1 -> rewrites p t t' s s2).
  { intros t' s1 s2 (? & ? & ? & ? & ?) ? ? ? ?.
    repeat split; congruence. }
  destruct (is_kind t tk_comment).
  { inv_bind H as s1 Hs1. injection H as <-. apply Hlift in Hs1.
    eexists. split; [eapply Hkeep; [exact Hs1|..]; reflexivity|].
    repeat split; auto. }
  destruct (is_kind t tk_raw_identifier).
  { apply Hlift in H. eexists. split; [exact H|]. repeat split; auto. }
  destruct (is_kind t tk_greatergreater).
  { inv_bind H as s1 Hs1. injection H as <-. apply Hlift in Hs1.
    eexists. split; [eapply Hkeep; [exact Hs1|..]; reflexivity|].
    repeat split; auto. }
  destruct (is_kind t tk_lessless).
  { inv_bind H as s1 Hs1. injection H as <-. apply Hlift in Hs1.
    eexists. split; [eapply Hkeep; [exact Hs1|..]; reflexivity|].
    repeat split; auto. }
  injection H as <-. exists t. split; [|repeat split; auto].
  eapply Hkeep; [now apply rewrites_refl|..]; reflexivity.
Qed.

Lemma measure_token_spec (E : Env) (p : nat) (s s' : State)
    (t : FormatToken) :
  Arena s !! p = Some t -> measure_token E p s = Ok s' ->
  exists t', rewrites p t t' s s' /\ Type_ t' = Type_ t /\
    Tok t' = Tok t /\ TokenText t' = TokenText t /\
    Finalized t' = Finalized t /\ StateStack s' = StateStack s.
Proof.
  intros Ht H. unfold measure_token in H.
  rewrite (deref_Some _ _ _ Ht) in H. simpl bind in H.
  destruct (text_find (is_char ch_nl) (text_of E t) 0) as [k|].
  - inv_bind H as s1 Hs1. injection H as <-.
    pose proof Hs1 as Hu. apply update_inv in Hu as (x & Hx & ->).
    assert (x = t) by congruence. subst x.
    apply (update_rewrites _ _ _ _ t Ht) in Hs1.
    eexists. split.
    + destruct Hs1 as (? & ? & ? & ? & ?). repeat split; eauto.
    + repeat split; reflexivity.
  - inv_bind H as s1 Hs1. injection H as <-.
    pose proof Hs1 as Hu. apply update_inv in Hu as (x & Hx & ->).
    assert (x = t) by congruence. subst x.
    apply (update_rewrites _ _ _ _ t Ht) in Hs1.
    eexists. split.
    + destruct Hs1 as (? & ? & ? & ? & ?). repeat split; eauto.
    + repeat split; reflexivity.
Qed.

Lemma classify_spec (E : Env) (p : nat) (s s' : State) (t : FormatToken)
    (d : bool) :
  Arena s !! p = Some t -> previous_is_define E s = Ok d ->
  classify E p s = Ok s' ->
  exists t', rewrites p t t' s s' /\ Tok t' = Tok t /\
    TokenText t' = TokenText t /\ Finalized t' = Finalized t /\
    Type_ t' = classified_type E d t /\ StateStack s' = StateStack s.
Proof.
  intros Ht Hd H. unfold classify in H.
  rewrite (deref_Some _ _ _ Ht), Hd in H. simpl bind in H.
  unfold classified_type.
  assert (Hset : forall ty, update p (set_Type ty) s = Ok s' ->
            exists t', rewrites p t t' s s' /\ Tok t' = Tok t /\
              TokenText t' = TokenText t /\ Finalized t' = Finalized t /\
              Type_ t' = ty /\ StateStack s' = StateStack s).
  { intros ty Hu. pose proof Hu as Hv.
    apply update_inv in Hv as (x & Hx & ->).
    assert (x = t) by congruence. subst x.
    apply (update_rewrites _ _ _ _ t Ht) in Hu.
    eexists. split; [exact Hu|]. repeat split; auto. }
  assert (Hid : Ok s = Ok s' ->
            exists t', rewrites p t t' s s' /\ Tok t' = Tok t /\
              TokenText t' = TokenText t /\ Finalized t' = Finalized t /\
              Type_ t' = Type_ t /\ StateStack s' = StateStack s).
  { intros Heq. injection Heq as <-. exists t.
    split; [now apply rewrites_refl|]. repeat split; auto. }
  destruct (negb d && is_ForEachMacro E t); [now apply Hset|].
  destruct (is_kind t tk_identifier); [|now apply Hid].
  destruct (MacroBlockBeginRegex E (text_of E t)); [now apply Hset|].
  destruct (MacroBlockEndRegex E (text_of E t)); [now apply Hset|].
  now apply Hid.
Qed.

Lemma previous_is_define_frame (E : Env) (s s' : State) (t : FormatToken)
    (d : bool) :
  Arena s' = Arena s ++ [t] -> Tokens s' = Tokens s ->
  previous_is_define E s = Ok d -> previous_is_define E s' = Ok d.
Proof.
  unfold previous_is_define, deref. intros Ha Hk. rewrite Hk, Ha.
  destruct (list.last (Tokens s)) as [q|]; [|auto].
  destruct (Arena s !! q) as [prev|] eqn:Hq; [|discriminate].
  now rewrite (lookup_app_l_Some _ _ _ _ Hq).
Qed.

Lemma rewrites_snoc (p : nat) (t t' : FormatToken) (a : list FormatToken)
    (s s' : State) :
  Arena s = a ++ [t] -> p = length a -> rewrites p t t' s s' ->
  Arena s' = a ++ [t'].
Proof. intros Ha -> (_ & -> & _). rewrite Ha. apply insert_fresh. Qed.

(** The token a call of [getNextToken] reads from the raw lexer. *)
Lemma getNextToken_normal_spec (E : Env) (fuel : nat) (s s' : State)
    (p : nat) (rest : list LexerState) (d : bool) :
  StateStack s = NORMAL :: rest -> previous_is_define E s = Ok d ->
  getNextToken E fuel s = Ok (s', p) ->
  p = length (Arena s) /\
  exists t0 t',
    Arena s' = Arena s ++ [t'] /\ Tokens s' = Tokens s /\
    FirstInLineIndex s' = FirstInLineIndex s /\ FormatTok s' = Some p /\
    unclassified t0 /\ Tok t' = Tok t0 /\ TokenText t' = TokenText t0 /\
    Finalized t' = Finalized t0 /\
    Type_ t' = classified_type E d t0 /\
    (IdentInfo (Tok t') = None \/ IdentInfo (Tok t') = Some (text_of E t')).
Proof.
  intros Hst Hd H. unfold getNextToken in H. rewrite Hst in H.
  inv_bind H as r1 Hf. destruct r1 as [s1 p1]. simpl fst in H. simpl snd in H.
  destruct (fetch_token_spec E fuel s s1 p1 Hf)
    as (-> & ta & Ha1 & Hk1 & Hf1 & Hp1 & Hs1 & Hu1 & Hi1).
  set (p0 := length (Arena s)) in *.
  assert (Hl1 : Arena s1 !! p0 = Some ta).
  { rewrite Ha1. subst p0. rewrite lookup_app_r by lia.
    now rewrite Nat.sub_diag. }
  inv_bind H as s2 Hadj.
  destruct (adjust_kind_spec E p0 s1 s2 ta Hl1 Hadj)
    as (tb & Hr2 & Hty2 & Hfin2 & Hi2).
  inv_bind H as s3 Hme.
  destruct (measure_token_spec E p0 s2 s3 tb
              (rewrites_lookup _ _ _ _ _ Hr2) Hme)
    as (tc & Hr3 & Hty3 & Htok3 & Htxt3 & Hfin3 & _).
  inv_bind H as s4 Hcl. injection H as <- <-.
  pose proof (rewrites_trans _ _ _ _ _ _ _ Hr2 Hr3) as Hr23.
  pose proof (rewrites_snoc _ _ _ _ _ _ Ha1 eq_refl Hr23) as Ha3.
  assert (Hk3 : Tokens s3 = Tokens s).
  { destruct Hr23 as (_ & _ & Hk & _). congruence. }
  pose proof (previous_is_define_frame E s s3 tc d Ha3 Hk3 Hd) as Hd3.
  destruct (classify_spec E p0 s3 s4 tc d
              (rewrites_lookup _ _ _ _ _ Hr3) Hd3 Hcl)
    as (td & Hr4 & Htok4 & Htxt4 & Hfin4 & Hty4 & _).
  split; [reflexivity|]. exists tc, td.
  pose proof (rewrites_trans _ _ _ _ _ _ _ Hr23 Hr4) as Hr.
  split; [exact (rewrites_snoc _ _ _ _ _ _ Ha1 eq_refl Hr)|].
  destruct Hr as (_ & _ & Hk & Hfi & Hp).
  repeat split; try congruence.
  - unfold unclassified in *. congruence.
  - rewrite Htok4, Htok3. unfold text_of. rewrite Htxt4.
    destruct (Hi2 Hi1) as [Hn|Hn]; [now left|right].
    rewrite Hn. unfold text_of. now rewrite Htxt3.
Qed.

Lemma getStashedToken_result (s : State) (pOld : nat) (old : FormatToken) :
  FormatTok s = Some pOld -> Arena s !! pOld = Some old ->
  getStashedToken s =
    Ok (set_Arena (Arena s ++ [stashed_token old])
          (set_FormatTok (Some (length (Arena s))) s), length (Arena s)).
Proof.
  intros Hf Hold. unfold getStashedToken. rewrite Hf. simpl bind.
  rewrite (deref_Some _ _ _ Hold). simpl bind.
  unfold update, deref. simpl.
  rewrite lookup_app_r by lia. rewrite Nat.sub_diag. simpl.
  do 2 f_equal. unfold set_Arena, set_FormatTok. simpl.
  f_equal. apply insert_fresh.
Qed.

Lemma is_ForEachMacro_In (E : Env) (t : FormatToken) :
  is_ForEachMacro E t = true <->
  exists name, IdentInfo (Tok t) = Some name /\ In name (ForEachMacros E).
Proof.
  unfold is_ForEachMacro. destruct (IdentInfo (Tok t)) as [name|].
  - rewrite existsb_exists. split.
    + intros (x & Hx & Heq). apply text_eqb_eq in Heq. subst. eauto.
    + intros (n & Hn & Hin). injection Hn as <-. exists name.
      split; [exact Hin | apply text_eqb_refl].
  - split; [discriminate | intros (n & Hn & _); discriminate].
Qed.

(** ** Format-disable tracking *)

Lemma stashed_token_not_finalized (old : FormatToken) :
  Finalized (stashed_token old) = false.
Proof. reflexivity. Qed.

(** C6 fails on the synthesized half of a split operator: in
    [// clang-format off] followed by [a>>b] every token read from the raw
    lexer after the comment is finalized, but the second [>], which
    [getStashedToken] builds without looking at the flag, is not. *)
Theorem format_off_stashed_token_not_finalized :
  outcome_map (kinds_texts_finalized format_off_env)
    (lex format_off_env 8 initial_state)
  = Ok [Some (tk_comment, "// clang-format off"%string, false);
        Some (tk_identifier, "a"%string, true);
        Some (tk_greater, ">"%string, true);
        Some (tk_greater, ">"%string, false);
        Some (tk_identifier, "b"%string, true);
        Some (tk_eof, EmptyString, true)].
Proof. vm_compute. reflexivity. Qed.

(** ** The driver *)

(** C1 fails on [_T(] newline ["s")]: the string starts a line, so
    [FirstInLineIndex] becomes 2; the macro-string merge then shrinks the
    vector to one token without resetting the index, and when the
    end-of-file token is appended the conflict-marker rule reads
    [Tokens[2]] in a vector of two elements. *)
Theorem lex_TMacro_newline_out_of_range :
  (exists s4,
     lex_rounds TMacro_newline_env 4 8 initial_state = Ok s4 /\
     length (Tokens s4) = 1%nat /\ FirstInLineIndex s4 = 2%nat /\
     lex_step TMacro_newline_env 8 s4 = Undefined) /\
  lex TMacro_newline_env 8 initial_state = Undefined.
Proof.
  split.
  - eexists. split; [vm_compute; reflexivity|].
    split; [reflexivity|]. split; [reflexivity|]. vm_compute. reflexivity.
  - vm_compute. reflexivity.
Qed.

(** ** Splitting [<<] and [>>] *)

Lemma measure_token_single_line (E : Env) (p : nat) (s : State)
    (t : FormatToken) :
  Arena s !! p = Some t ->
  text_find (is_char ch_nl) (text_of E t) 0 = None ->
  let w := columnWidthWithTabs E (text_of E t) (Column s) (TabWidth E) in
  measure_token E p s =
    Ok (set_Column (u32 (Column s + w))
          (set_Arena (<[p := set_FirstLineColumnWidth w t]> (Arena s)) s)).
Proof.
  intros Ht Hnl w. unfold measure_token.
  rewrite (deref_Some _ _ _ Ht). simpl bind. rewrite Hnl.
  rewrite (update_Some _ _ _ _ Ht). reflexivity.
Qed.

Lemma classify_plain (E : Env) (p : nat) (s : State) (t : FormatToken)
    (d : bool) :
  Arena s !! p = Some t -> previous_is_define E s = Ok d ->
  IdentInfo (Tok t) = None -> is_kind t tk_identifier = false ->
  classify E p s = Ok s.
Proof.
  intros Ht Hd Hid Hk. unfold classify.
  rewrite (deref_Some _ _ _ Ht), Hd. simpl bind.
  unfold is_ForEachMacro. rewrite Hid, Hk, andb_false_r. reflexivity.
Qed.

Lemma adjust_kind_split (E : Env) (p : nat) (s : State) (t : FormatToken)
    (k2 k1 : TokenKind) :
  Arena s !! p = Some t -> Kind (Tok t) = k2 -> split_kind k2 k1 ->
  adjust_kind E p s =
    Ok (set_StateStack (TOKEN_STASHED :: StateStack s)
          (set_Column (u32 (Column s + 1))
             (set_Arena
                (<[p := set_TokenText (ref_substr (TokenText t) 0 (Some 1))
                          (set_Tok (setKind k1 (Tok t)) t)]> (Arena s))
                (set_TrailingWhitespace 0 s)))).
Proof.
  intros Ht Hk Hs. unfold adjust_kind.
  rewrite (deref_Some _ _ _ Ht). simpl bind. unfold is_kind. rewrite Hk.
  assert (Ht0 : Arena (set_TrailingWhitespace 0 s) !! p = Some t)
    by exact Ht.
  destruct Hs as [[-> ->]|[-> ->]]; simpl kind_eqb; cbv iota;
    rewrite (update_Some _ _ _ _ Ht0); reflexivity.
Qed.

Lemma lookup_snoc_fresh (a : list FormatToken) (t : FormatToken) :
  (a ++ [t]) !! length a = Some t.
Proof. rewrite lookup_app_r by lia. now rewrite Nat.sub_diag. Qed.

(** The first of the two calls: the operator is cut to its first
    character, the column moves on by one before the width is taken, and
    a stash is pushed. *)
Lemma getNextToken_first_half (E : Env) (fuel : nat) (s s1 : State) (p : nat)
    (t : FormatToken) (rest : list LexerState) (d : bool)
    (k2 k1 : TokenKind) :
  StateStack s = NORMAL :: rest -> previous_is_define E s = Ok d ->
  fetch_token E fuel s = Ok (s1, p) -> Arena s1 !! p = Some t ->
  Kind (Tok t) = k2 -> split_kind k2 k1 ->
  text_find (is_char ch_nl)
    (str (Buffer E) (ref_substr (TokenText t) 0 (Some 1))) 0 = None ->
  let A := first_half E k1 (Column s1) t in
  getNextToken E fuel s =
    Ok (set_Column (u32 (u32 (Column s1 + 1) + FirstLineColumnWidth A))
          (set_StateStack (TOKEN_STASHED :: NORMAL :: rest)
             (set_Arena (Arena s ++ [A]) (set_TrailingWhitespace 0 s1))), p)
  /\ p = length (Arena s) /\ Tokens s1 = Tokens s /\
  FirstInLineIndex s1 = FirstInLineIndex s /\ FormatTok s1 = Some p /\
  IdentInfo (Tok t) = None.
Proof.
  intros Hst Hd Hf Ht Hk Hs Hnl A.
  destruct (fetch_token_spec E fuel s s1 p Hf)
    as (Hp & t' & Ha1 & Hk1 & Hf1 & Hp1 & Hs1 & _ & Hid).
  assert (t' = t).
  { rewrite Ha1, Hp, lookup_snoc_fresh in Ht. congruence. }
  subst t'. repeat split; auto.
  unfold getNextToken. rewrite Hst, Hf. simpl bind.
  rewrite (adjust_kind_split E p s1 t k2 k1 Ht Hk Hs). simpl bind.
  set (h := set_TokenText (ref_substr (TokenText t) 0 (Some 1))
              (set_Tok (setKind k1 (Tok t)) t)).
  match goal with
  | |- context [measure_token E p ?st] =>
      assert (Hh : Arena st !! p = Some h)
        by (simpl; now apply (lookup_updated _ _ t));
      rewrite (measure_token_single_line E p st h Hh Hnl)
  end.
  simpl bind.
  match goal with
  | |- context [classify E p ?st] =>
      assert (Hc : classify E p st = Ok st)
  end.
  { apply (classify_plain E p _ (first_half E k1 (Column s1) t) d).
    - simpl. rewrite list_insert_insert_eq.
      now apply (lookup_updated _ _ t).
    - apply (previous_is_define_frame E s _ (first_half E k1 (Column s1) t));
        [|exact Hk1|exact Hd].
      simpl. rewrite list_insert_insert_eq, Ha1, Hp. apply insert_fresh.
    - simpl. exact Hid.
    - unfold is_kind. simpl. destruct Hs as [[_ ->]|[_ ->]]; reflexivity. }
  rewrite Hc. simpl bind. do 2 f_equal.
  unfold set_Column, set_StateStack, set_Arena, set_TrailingWhitespace.
  simpl. rewrite Hs1, Hst. f_equal.
  rewrite list_insert_insert_eq, Ha1, Hp. apply insert_fresh.
Qed.

(** ** What a merge rule can do to the token vector *)

Lemma list_last3 (l : list nat) :
  (3 <= length l)%nat -> exists pre a b c, l = pre ++ [a; b; c].
Proof.
  intros H. exists (take (length l - 3) l).
  pose proof (take_drop (length l - 3) l) as Hl.
  pose proof (length_drop l (length l - 3)) as Hd.
  destruct (drop (length l - 3) l) as [|a [|b [|c [|x r]]]];
    simpl in Hd; try lia.
  exists a, b, c. now symmetry.
Qed.

Lemma list_last4 (l : list nat) :
  (4 <= length l)%nat -> exists pre a b c d, l = pre ++ [a; b; c; d].
Proof.
  intros H. exists (take (length l - 4) l).
  pose proof (take_drop (length l - 4) l) as Hl.
  pose proof (length_drop l (length l - 4)) as Hd.
  destruct (drop (length l - 4) l) as [|a [|b [|c [|d [|x r]]]]];
    simpl in Hd; try lia.
  exists a, b, c, d. now symmetry.
Qed.

Lemma tryMerge_TMacro_inv (E : Env) (s s' : State) (b : bool) :
  tryMerge_TMacro E s = Ok (s', b) ->
  (s' = s /\ b = false) \/
  (b = true /\ exists pre pM pP pS pL tM tP tS tL span,
     Tokens s = pre ++ [pM; pP; pS; pL] /\
     Arena s !! pM = Some tM /\ Arena s !! pP = Some tP /\
     Arena s !! pS = Some tS /\ Arena s !! pL = Some tL /\
     TMacro_pattern E tM tP tS tL = true /\
     Tokens s' = pre ++ [pS] /\
     Arena s' = <[pS := TMacro_merged E span tM tS]> (Arena s) /\
     FirstInLineIndex s' = FirstInLineIndex s /\
     FormatTok s' = FormatTok s /\ StateStack s' = StateStack s).
Proof.
  unfold tryMerge_TMacro. intros H.
  destruct (Nat.ltb_spec (length (Tokens s)) 4) as [Hlt|Hge].
  { injection H as <- <-. now left. }
  destruct (list_last4 _ Hge) as (pre & pM & pP & pS & pL & Ht).
  assert (Hback : Tokens_back s = Ok pL).
  { apply (Tokens_back_snoc s (pre ++ [pM; pP; pS])).
    now rewrite Ht, <- app_assoc. }
  rewrite Hback in H.
  rewrite (Tokens_from_end_app s pre _ 2 Ht) in H by (simpl; lia).
  rewrite (Tokens_from_end_app s pre _ 3 Ht) in H by (simpl; lia).
  rewrite (Tokens_from_end_app s pre _ 4 Ht) in H by (simpl; lia).
  simpl in H.
  inv_bind H as tL HL. apply deref_inv in HL.
  destruct (is_kind tL tk_r_paren) eqn:KL; simpl in H;
    [|injection H as <- <-; now left].
  inv_bind H as tS HS. apply deref_inv in HS.
  destruct (is_kind tS tk_string_literal) eqn:KS; simpl in H;
    [|injection H as <- <-; now left].
  destruct (IsMultiline tS) eqn:MS; simpl in H;
    [injection H as <- <-; now left|].
  inv_bind H as tP HP. apply deref_inv in HP.
  destruct (is_kind tP tk_l_paren) eqn:KP; simpl in H;
    [|injection H as <- <-; now left].
  inv_bind H as tM HM. apply deref_inv in HM.
  destruct (text_eqb (text_of E tM) (lit "_T")) eqn:TM; simpl in H;
    [|injection H as <- <-; now left].
  inv_bind H as span Hspan. inv_bind H as s1 Hs1.
  apply update_inv in Hs1 as (x & Hx & ->). injection H as <- <-.
  assert (x = tS) by congruence. subst x.
  right. split; [reflexivity|].
  exists pre, pM, pP, pS, pL, tM, tP, tS, tL, span.
  repeat split; auto.
  - unfold TMacro_pattern. now rewrite KL, KS, MS, KP, TM.
  - simpl. rewrite Ht, length_app. simpl.
    replace (length pre + 4 - 4)%nat with (length pre) by lia.
    now rewrite take_app_length.
Qed.

Lemma tryMergeLessLess_inv (s s' : State) (b : bool) :
  tryMergeLessLess s = Ok (s', b) ->
  (s' = s /\ b = false) \/
  (b = true /\ exists pre p0 p1 p2 t0 t1 t2,
     Tokens s = pre ++ [p0; p1; p2] /\
     Arena s !! p0 = Some t0 /\ Arena s !! p1 = Some t1 /\
     Arena s !! p2 = Some t2 /\
     is_kind t0 tk_less = true /\ is_kind t1 tk_less = true /\
     is_kind t2 tk_less = false /\ has_whitespace_before t1 = false /\
     Tokens s' = pre ++ [p0; p2] /\
     Arena s' = <[p0 := lessless_merged t0]> (Arena s) /\
     FirstInLineIndex s' = FirstInLineIndex s /\
     FormatTok s' = FormatTok s /\ StateStack s' = StateStack s).
Proof.
  unfold tryMergeLessLess. intros H.
  destruct (Nat.ltb_spec (length (Tokens s)) 3) as [Hlt|Hge].
  { injection H as <- <-. now left. }
  destruct (list_last3 _ Hge) as (pre & p0 & p1 & p2 & Ht).
  inv_bind H as fourth Hfourth.
  rewrite (Tokens_from_end_app s pre _ 3 Ht) in H by (simpl; lia).
  rewrite (Tokens_from_end_app s pre _ 2 Ht) in H by (simpl; lia).
  rewrite (Tokens_from_end_app s pre _ 1 Ht) in H by (simpl; lia).
  simpl in H.
  inv_bind H as t2 H2. apply deref_inv in H2.
  destruct (is_kind t2 tk_less) eqn:K2; [injection H as <- <-; now left|].
  inv_bind H as t1 H1. apply deref_inv in H1.
  destruct (is_kind t1 tk_less) eqn:K1; simpl in H;
    [|injection H as <- <-; now left].
  inv_bind H as t0 H0. apply deref_inv in H0.
  destruct (is_kind t0 tk_less) eqn:K0; simpl in H;
    [|injection H as <- <-; now left].
  destruct fourth; [injection H as <- <-; now left|].
  destruct (has_whitespace_before t1) eqn:W1;
    [injection H as <- <-; now left|].
  inv_bind H as s1 Hs1.
  apply update_inv in Hs1 as (x & Hx & ->). injection H as <- <-.
  assert (x = t0) by congruence. subst x.
  right. split; [reflexivity|].
  exists pre, p0, p1, p2, t0, t1, t2. repeat split; auto.
  simpl. rewrite Ht, length_app. simpl.
  replace (length pre + 3 - 2)%nat with (length (pre ++ [p0])) 
    by (rewrite length_app; simpl; lia).
  change (pre ++ [p0; p1; p2]) with (pre ++ [p0] ++ p1 :: [p2]).
  rewrite app_assoc, delete_middle, <- app_assoc. reflexivity.
Qed.

Lemma app_snoc_split (l1 l2 l3 : list nat) (x y : nat) :
  l1 ++ [x] = l2 ++ y :: l3 ->
  (l3 = [] /\ x = y /\ l1 = l2) \/
  (exists l3', l3 = l3' ++ [x] /\ l1 = l2 ++ y :: l3').
Proof.
  destruct l3 as [|z l3' _] using rev_ind; intros H.
  - apply app_inj_tail in H as [-> ->]. now left.
  - right. exists l3'.
    change (l2 ++ y :: l3' ++ [z]) with (l2 ++ (y :: l3') ++ [z]) in H.
    rewrite app_assoc in H. apply app_inj_tail in H as [-> ->]. auto.
Qed.

Lemma greater_not (t : FormatToken) (k : TokenKind) :
  Kind (Tok t) = tk_greater -> k <> tk_greater -> is_kind t k = false.
Proof.
  intros Hk Hne. unfold is_kind. rewrite Hk.
  destruct (kind_eqb tk_greater k) eqn:Heq; [|reflexivity].
  apply kind_eqb_eq in Heq. congruence.
Qed.

(** Neither the macro-string rule nor the [<<] rule removes or changes
    two adjacent [>] tokens. *)
Lemma tryMerge_TMacro_keeps_greater_pair (E : Env) (s s' : State) (b : bool)
    (pre suf : list nat) (pA pB : nat) (A B : FormatToken) :
  Tokens s = pre ++ pA :: pB :: suf ->
  Arena s !! pA = Some A -> Arena s !! pB = Some B ->
  Kind (Tok A) = tk_greater -> Kind (Tok B) = tk_greater ->
  text_of E B <> lit "_T" ->
  tryMerge_TMacro E s = Ok (s', b) ->
  exists suf', Tokens s' = pre ++ pA :: pB :: suf' /\
    Arena s' !! pA = Some A /\ Arena s' !! pB = Some B.
Proof.
  intros Ht HA HB KA KB TB H.
  apply tryMerge_TMacro_inv in H as [[-> _]|[_ H]]; [eauto|].
  destruct H as (pre4 & pM & pP & pS & pL & tM & tP & tS & tL & span &
                 Ht4 & HM & HP & HS & HL & Hpat & Ht' & Ha' & _).
  unfold TMacro_pattern in Hpat.
  repeat (apply andb_true_iff in Hpat as [Hpat ?]).
  assert (Hne : forall q t, Arena s !! q = Some t ->
            Kind (Tok t) = tk_greater -> Arena s' !! q = Some t).
  { intros q t Hq Kq. rewrite Ha'.
    destruct (decide (pS = q)) as [->|Hd];
      [|now rewrite lookup_not_updated].
    assert (tS = t) by congruence. subst tS.
    rewrite (greater_not t tk_string_literal Kq) in *; discriminate. }
  rewrite Ht in Ht4.
  change (pre4 ++ [pM; pP; pS; pL]) with (pre4 ++ [pM; pP; pS] ++ [pL])
    in Ht4.
  change (pre ++ pA :: pB :: suf) with (pre ++ [pA] ++ pB :: suf) in Ht4.
  rewrite !app_assoc in Ht4. symmetry in Ht4.
  apply app_snoc_split in Ht4 as [(-> & -> & _)|(suf1 & -> & Ht4)].
  { assert (tL = B) by congruence. subst.
    rewrite (greater_not B tk_r_paren KB) in *; discriminate. }
  change (pre4 ++ [pM; pP; pS]) with (pre4 ++ [pM; pP] ++ [pS]) in Ht4.
  rewrite app_assoc in Ht4.
  apply app_snoc_split in Ht4 as [(-> & -> & _)|(suf2 & -> & Ht4)].
  { assert (tS = B) by congruence. subst.
    rewrite (greater_not B tk_string_literal KB) in *; discriminate. }
  change (pre4 ++ [pM; pP]) with (pre4 ++ [pM] ++ [pP]) in Ht4.
  rewrite app_assoc in Ht4.
  apply app_snoc_split in Ht4 as [(-> & -> & _)|(suf3 & -> & Ht4)].
  { assert (tP = B) by congruence. subst.
    rewrite (greater_not B tk_l_paren KB) in *; discriminate. }
  apply app_snoc_split in Ht4 as [(-> & -> & _)|(suf4 & -> & ->)].
  { assert (tM = B) by congruence. subst.
    match goal with
    | Hx : text_eqb _ _ = true |- _ => apply text_eqb_eq in Hx; contradiction
    end. }
  exists (suf4 ++ [pS]). split; [|split; [now apply Hne | now apply Hne]].
  rewrite Ht'. now rewrite <- !app_assoc.
Qed.

Lemma tryMergeLessLess_keeps_greater_pair (s s' : State) (b : bool)
    (pre suf : list nat) (pA pB : nat) (A B : FormatToken) :
  Tokens s = pre ++ pA :: pB :: suf ->
  Arena s !! pA = Some A -> Arena s !! pB = Some B ->
  Kind (Tok A) = tk_greater -> Kind (Tok B) = tk_greater ->
  tryMergeLessLess s = Ok (s', b) ->
  exists suf', Tokens s' = pre ++ pA :: pB :: suf' /\
    Arena s' !! pA = Some A /\ Arena s' !! pB = Some B.
Proof.
  intros Ht HA HB KA KB H.
  apply tryMergeLessLess_inv in H as [[-> _]|[_ H]]; [eauto|].
  destruct H as (pre3 & p0 & p1 & p2 & t0 & t1 & t2 &
                 Ht3 & H0 & H1 & H2 & K0 & K1 & K2 & _ & Ht' & Ha' & _).
  assert (Hne : forall q t, Arena s !! q = Some t ->
            Kind (Tok t) = tk_greater -> Arena s' !! q = Some t).
  { intros q t Hq Kq. rewrite Ha'.
    destruct (decide (p0 = q)) as [->|Hd];
      [|now rewrite lookup_not_updated].
    assert (t0 = t) by congruence. subst t0.
    rewrite (greater_not t tk_less Kq) in K0; discriminate. }
  rewrite Ht in Ht3.
  change (pre3 ++ [p0; p1; p2]) with (pre3 ++ [p0; p1] ++ [p2]) in Ht3.
  change (pre ++ pA :: pB :: suf) with (pre ++ [pA] ++ pB :: suf) in Ht3.
  rewrite !app_assoc in Ht3. symmetry in Ht3.
  apply app_snoc_split in Ht3 as [(-> & -> & Ht3)|(suf1 & -> & Ht3)].
  { change (pre3 ++ [p0; p1]) with (pre3 ++ [p0] ++ [p1]) in Ht3.
    rewrite app_assoc in Ht3. apply app_inj_tail in Ht3 as [_ ->].
    assert (t1 = A) by congruence. subst.
    rewrite (greater_not A tk_less KA) in K1; discriminate. }
  change (pre3 ++ [p0; p1]) with (pre3 ++ [p0] ++ [p1]) in Ht3.
  rewrite app_assoc in Ht3.
  apply app_snoc_split in Ht3 as [(-> & -> & _)|(suf2 & -> & Ht3)].
  { assert (t1 = B) by congruence. subst.
    rewrite (greater_not B tk_less KB) in K1; discriminate. }
  apply app_snoc_split in Ht3 as [(-> & -> & _)|(suf3 & -> & ->)].
  { assert (t0 = B) by congruence. subst.
    rewrite (greater_not B tk_less KB) in K0; discriminate. }
  exists (suf3 ++ [p0; p2]).
  split; [|split; [now apply Hne | now apply Hne]].
  rewrite Ht'. now rewrite <- !app_assoc.
Qed.

Lemma halve_text (b : text) (d n : Z) (c1 c2 : ascii) :
  str b (SrcRef d n) = [c1; c2] ->
  str b (ref_substr (SrcRef d n) 0 (Some 1)) = [c1].
Proof.
  unfold str, sub_text, ref_substr, ref_size. intros H.
  assert (Hn : 2 <= n).
  { destruct (Z.le_gt_cases 2 n) as [|Hlt]; [assumption|].
    apply (f_equal length) in H. rewrite length_take in H. simpl in H. lia. }
  rewrite (Z.min_l 0 n) by lia.
  rewrite Z.add_0_r, (Z.min_l 1 (n - 0)) by lia.
  destruct (drop (Z.to_nat d) b) as [|x [|y r]];
    destruct (Z.to_nat n) as [|[|m]] eqn:Hm; simpl in H; try discriminate;
    try lia.
  injection H as -> _ _. reflexivity.
Qed.

(** C5, as the code has it: a [>>] read from the raw lexer is produced as
    two [>] tokens, the second from the stash, and neither the
    macro-string rule nor the [<<] rule ever removes or rewrites the two;
    only the conflict-marker rule can take them away, together with the
    rest of their line. *)
Theorem greatergreater_split_and_kept (E : Env) (fuel : nat) (s s1 : State)
    (p : nat) (t : FormatToken) (rest : list LexerState) (d : bool)
    (off n : Z) :
  StateStack s = NORMAL :: rest -> previous_is_define E s = Ok d ->
  fetch_token E fuel s = Ok (s1, p) -> Arena s1 !! p = Some t ->
  Kind (Tok t) = tk_greatergreater ->
  TokenText t = SrcRef off n -> text_of E t = lit ">>" ->
  exists sA A B,
    getNextToken E fuel s = Ok (sA, p) /\ Arena sA !! p = Some A /\
    StateStack sA = TOKEN_STASHED :: NORMAL :: rest /\
    FormatTok sA = Some p /\
    Kind (Tok A) = tk_greater /\ text_of E A = lit ">" /\
    Kind (Tok B) = tk_greater /\ text_of E B = lit ">" /\
    (forall s2 r2 f2,
       StateStack s2 = TOKEN_STASHED :: r2 -> FormatTok s2 = Some p ->
       Arena s2 !! p = Some A ->
       getNextToken E f2 s2 =
         Ok (set_Arena (Arena s2 ++ [B])
               (set_FormatTok (Some (length (Arena s2)))
                  (set_StateStack r2 s2)), length (Arena s2))) /\
    (forall s3 s3' b pre suf pB,
       Tokens s3 = pre ++ p :: pB :: suf ->
       Arena s3 !! p = Some A -> Arena s3 !! pB = Some B ->
       tryMerge_TMacro E s3 = Ok (s3', b) \/ tryMergeLessLess s3 = Ok (s3', b) ->
       exists suf', Tokens s3' = pre ++ p :: pB :: suf' /\
         Arena s3' !! p = Some A /\ Arena s3' !! pB = Some B).
Proof.
  intros Hst Hd Hf Ht Hk Hx Htxt.
  assert (Hhalf : str (Buffer E) (ref_substr (TokenText t) 0 (Some 1))
                  = lit ">").
  { rewrite Hx. apply (halve_text _ _ _ _ ">"%char). unfold text_of in Htxt.
    now rewrite Hx in Htxt. }
  assert (Hnl : text_find (is_char ch_nl)
                  (str (Buffer E) (ref_substr (TokenText t) 0 (Some 1))) 0
                = None) by now rewrite Hhalf.
  destruct (getNextToken_first_half E fuel s s1 p t rest d
              tk_greatergreater tk_greater Hst Hd Hf Ht Hk
              (or_introl (conj eq_refl eq_refl)) Hnl)
    as (Hrun & Hp & _).
  set (A := first_half E tk_greater (Column s1) t) in *.
  assert (HtA : text_of E A = lit ">") by exact Hhalf.
  assert (HtB : text_of E (stashed_token A) = lit ">") by exact Hhalf.
  eexists _, A, (stashed_token A).
  split; [exact Hrun|]. split; [simpl; rewrite Hp; apply lookup_snoc_fresh|].
  split; [reflexivity|]. split.
  { apply fetch_token_spec in Hf as (_ & ? & _ & _ & _ & Hft & _).
    exact Hft. }
  split; [reflexivity|]. split; [exact HtA|].
  split; [reflexivity|]. split; [exact HtB|]. split.
  - intros s2 r2 f2 Hs2 Hf2 Ha2. unfold getNextToken. rewrite Hs2.
    now rewrite (getStashedToken_result _ p A).
  - intros s3 s3' b pre suf pB Ht3 HA3 HB3 [Hm|Hm].
    + apply (tryMerge_TMacro_keeps_greater_pair E s3 s3' b pre suf p pB
               A (stashed_token A)); auto.
      rewrite HtB. discriminate.
    + apply (tryMergeLessLess_keeps_greater_pair s3 s3' b pre suf p pB
               A (stashed_token A)); auto.
Qed.

(** C5 as stated does not hold: in [>>>>>>> theirs] the raw lexer yields
    [>>] three times, each is split, and at the end of the file the
    conflict-marker rule collapses the whole line; no [>] is left. *)
Lemma greater_pair_retained_counterexample :
  LexFromRawLexer conflict_end_env 0 = (tk_greatergreater, 2) /\
  outcome_map (kinds_and_texts conflict_end_env)
    (lex_rounds conflict_end_env 2 12 initial_state)
  = Ok [Some (tk_greater, ">"%string); Some (tk_greater, ">"%string)] /\
  outcome_map
    (fun s => map (option_map (fun t => (Kind (Tok t), Type_ t)))
                (token_stream s))
    (lex conflict_end_env 12 initial_state)
  = Ok [Some (tk_kw___unknown_anytype, TT_ConflictEnd);
        Some (tk_eof, TT_Unknown)].
Proof. split; [reflexivity|]. split; vm_compute; reflexivity. Qed.

Lemma greatergreater_split_and_kept_witness :
  exists sA A,
    getNextToken nested_template_env 4 nested_template_state
      = Ok (sA, 5%nat) /\
    Arena sA !! 5%nat = Some A /\ Kind (Tok A) = tk_greater /\
    StateStack sA = [TOKEN_STASHED; NORMAL].
Proof.
  assert (Hf : fetch_token nested_template_env 4 nested_template_state
               = Ok (fst nested_template_fetched, 5%nat))
    by (vm_compute; reflexivity).
  assert (Ht : Arena (fst nested_template_fetched) !! 5%nat
               = Some nested_template_raw) by (vm_compute; reflexivity).
  assert (Hd : previous_is_define nested_template_env nested_template_state
               = Ok false) by (vm_compute; reflexivity).
  destruct (greatergreater_split_and_kept nested_template_env 4
              nested_template_state (fst nested_template_fetched) 5%nat
              nested_template_raw [] false 17 2
              eq_refl Hd Hf Ht eq_refl eq_refl eq_refl)
    as (sA & A & B & Hrun & HA & Hs & _ & HkA & _).
  exists sA, A. auto.
Defined.

(** ** Recombining [<<] *)

Lemma u32_add_l (a b : Z) : u32 (u32 a + b) = u32 (a + b).
Proof. unfold u32. apply Z.add_mod_idemp_l. lia. Qed.

Lemma tryMerge_TMacro_not_string (E : Env) (s : State) (pre : list nat)
    (pS pL : nat) (tS tL : FormatToken) :
  Tokens s = pre ++ [pS; pL] ->
  Arena s !! pS = Some tS -> Arena s !! pL = Some tL ->
  is_kind tS tk_string_literal = false ->
  tryMerge_TMacro E s = Ok (s, false).
Proof.
  intros Ht HS HL KS. unfold tryMerge_TMacro.
  destruct (length (Tokens s) <? 4)%nat; [reflexivity|].
  rewrite (Tokens_back_snoc s (pre ++ [pS]) pL)
    by (now rewrite Ht, <- app_assoc).
  simpl bind. rewrite (deref_Some _ _ _ HL). simpl bind.
  destruct (is_kind tL tk_r_paren); [|reflexivity]. simpl.
  rewrite (Tokens_from_end_app s pre _ 2 Ht) by (simpl; lia). simpl.
  rewrite (deref_Some _ _ _ HS). simpl bind. now rewrite KS.
Qed.

(** The [<<] rule on a tail [<], [<], [C]. *)
Lemma tryMergeLessLess_fires (s : State) (pre : list nat) (p0 p1 p2 : nat)
    (t0 t1 t2 : FormatToken) :
  Tokens s = pre ++ [p0; p1; p2] ->
  Arena s !! p0 = Some t0 -> Arena s !! p1 = Some t1 ->
  Arena s !! p2 = Some t2 ->
  is_kind t0 tk_less = true -> is_kind t1 tk_less = true ->
  is_kind t2 tk_less = false -> has_whitespace_before t1 = false ->
  no_less_before s pre ->
  tryMergeLessLess s =
    Ok (set_Tokens (pre ++ [p0; p2])
          (set_Arena (<[p0 := lessless_merged t0]> (Arena s)) s), true).
Proof.
  intros Ht H0 H1 H2 K0 K1 K2 W1 Hpre. unfold tryMergeLessLess.
  assert (Hlen : length (Tokens s) = (length pre + 3)%nat)
    by (rewrite Ht, length_app; reflexivity).
  rewrite Hlen.
  destruct (Nat.ltb_spec (length pre + 3) 3) as [Hlt|_]; [lia|].
  assert (Hfourth :
    (if (3 <? length pre + 3)%nat
     then let* p := Tokens_from_end s 4 in
          let* t := deref s p in Ok (is_kind t tk_less)
     else Ok false) = Ok false).
  { destruct (Nat.ltb_spec 3 (length pre + 3)) as [Hgt|_]; [|reflexivity].
    destruct pre as [|q0 pre0 _] using rev_ind; [simpl in Hgt; lia|].
    unfold no_less_before in Hpre. rewrite last_snoc in Hpre.
    destruct Hpre as (tq & Hq & Kq).
    rewrite (Tokens_from_end_app s pre0 [q0; p0; p1; p2] 4)
      by (rewrite ?Ht, <- ?app_assoc; simpl; auto; lia).
    simpl. rewrite (deref_Some _ _ _ Hq). simpl. now rewrite Kq. }
  rewrite Hfourth. simpl bind.
  rewrite (Tokens_from_end_app s pre _ 3 Ht) by (simpl; lia).
  rewrite (Tokens_from_end_app s pre _ 2 Ht) by (simpl; lia).
  rewrite (Tokens_from_end_app s pre _ 1 Ht) by (simpl; lia).
  simpl.
  rewrite (deref_Some _ _ _ H2). simpl bind. rewrite K2.
  rewrite (deref_Some _ _ _ H1). simpl bind. rewrite K1. simpl.
  rewrite (deref_Some _ _ _ H0). simpl bind. rewrite K0, W1. simpl.
  rewrite (update_Some _ _ _ _ H0). simpl bind. do 2 f_equal.
  unfold set_Tokens, set_Arena. simpl. f_equal.
  rewrite Ht.
  replace (length pre + 3 - 2)%nat with (length (pre ++ [p0]))
    by (rewrite length_app; simpl; lia).
  change (pre ++ [p0; p1; p2]) with (pre ++ [p0] ++ p1 :: [p2]).
  rewrite app_assoc, delete_middle, <- app_assoc. reflexivity.
Qed.

Lemma getNextToken_unsplit_lessless (E : Env) (fuel : nat) (s s1 : State)
    (p : nat) (t : FormatToken) (d : bool) :
  previous_is_define E s = Ok d ->
  fetch_token E fuel s = Ok (s1, p) -> Arena s1 !! p = Some t ->
  Kind (Tok t) = tk_lessless -> text_of E t = lit "<<" ->
  let w := columnWidthWithTabs E (lit "<<") (Column s1) (TabWidth E) in
  getNextToken_unsplit E fuel s =
    Ok (set_Column (u32 (Column s1 + w))
          (set_Arena (Arena s ++ [set_FirstLineColumnWidth w t])
             (set_TrailingWhitespace 0 s1)), p).
Proof.
  intros Hd Hf Ht Hk Htxt w.
  destruct (fetch_token_spec E fuel s s1 p Hf)
    as (Hp & t' & Ha1 & Hk1 & _ & _ & _ & _ & Hid).
  assert (t' = t) by (rewrite Ha1, Hp, lookup_snoc_fresh in Ht; congruence).
  subst t'.
  unfold getNextToken_unsplit. rewrite Hf. simpl bind.
  assert (Ht0 : Arena (set_TrailingWhitespace 0 s1) !! p = Some t)
    by exact Ht.
  rewrite (measure_token_single_line E p _ t Ht0) by now rewrite Htxt.
  simpl bind. rewrite Htxt. fold w.
  match goal with
  | |- context [classify E p ?st] =>
      assert (Hc : classify E p st = Ok st)
  end.
  { apply (classify_plain E p _ (set_FirstLineColumnWidth w t) d).
    - simpl. now apply (lookup_updated _ _ t).
    - apply (previous_is_define_frame E s _ (set_FirstLineColumnWidth w t));
        [|exact Hk1|exact Hd].
      simpl. rewrite Ha1, Hp. apply insert_fresh.
    - exact Hid.
    - unfold is_kind. simpl. now rewrite Hk. }
  rewrite Hc. simpl bind. do 2 f_equal.
  unfold set_Column, set_Arena, set_TrailingWhitespace. simpl. f_equal.
  rewrite Ha1, Hp. apply insert_fresh.
Qed.

(** C4, as the code has it: a two-character [<<] read from the raw lexer
    is produced as two [<] tokens, the second from the stash and with no
    whitespace before it; when the next token [C] is appended, is not a
    [<], no [<] precedes the pair and the conflict-marker rule, which is
    tried first, does not fire, the [<<] rule replaces the pair by one
    token that cannot be told apart from the token a scan without the
    split produces: kind shift-left, text [<<], width 2, and the same
    column afterwards. *)
Theorem lessless_split_and_recombined (E : Env) (fuel : nat) (s s1 : State)
    (p : nat) (t : FormatToken) (rest : list LexerState) (d : bool)
    (off n : Z) :
  StateStack s = NORMAL :: rest -> previous_is_define E s = Ok d ->
  fetch_token E fuel s = Ok (s1, p) -> Arena s1 !! p = Some t ->
  Kind (Tok t) = tk_lessless ->
  TokenText t = SrcRef off n -> text_of E t = lit "<<" ->
  columnWidthWithTabs E (lit "<") (u32 (Column s1 + 1)) (TabWidth E) = 1 ->
  columnWidthWithTabs E (lit "<<") (Column s1) (TabWidth E) = 2 ->
  exists sA A B sD D,
    getNextToken E fuel s = Ok (sA, p) /\ Arena sA !! p = Some A /\
    StateStack sA = TOKEN_STASHED :: NORMAL :: rest /\
    FormatTok sA = Some p /\
    Kind (Tok A) = tk_less /\ text_of E A = lit "<" /\
    Kind (Tok B) = tk_less /\ text_of E B = lit "<" /\
    has_whitespace_before B = false /\
    (forall s2 r2 f2,
       StateStack s2 = TOKEN_STASHED :: r2 -> FormatTok s2 = Some p ->
       Arena s2 !! p = Some A ->
       getNextToken E f2 s2 =
         Ok (set_Arena (Arena s2 ++ [B])
               (set_FormatTok (Some (length (Arena s2)))
                  (set_StateStack r2 s2)), length (Arena s2))) /\
    getNextToken_unsplit E fuel s = Ok (sD, p) /\ Arena sD !! p = Some D /\
    Kind (Tok D) = tk_lessless /\ FirstLineColumnWidth D = 2 /\
    Column sD = Column sA /\ LexPos sD = LexPos sA /\
    (forall s3 pre pB pC C,
       Tokens s3 = pre ++ [p; pB; pC] ->
       Arena s3 !! p = Some A -> Arena s3 !! pB = Some B ->
       Arena s3 !! pC = Some C -> is_kind C tk_less = false ->
       no_less_before s3 pre ->
       tryMergeConflictMarkers E s3 = Ok (s3, false) ->
       tryMergePreviousTokens E s3 =
         Ok (set_Tokens (pre ++ [p; pC])
               (set_Arena (<[p := lessless_merged A]> (Arena s3)) s3)) /\
       Kind (Tok (lessless_merged A)) = tk_lessless /\
       text_of E (lessless_merged A) = lit "<<" /\
       FirstLineColumnWidth (lessless_merged A)
         = u32 (FirstLineColumnWidth A + 1) /\
       same_observable E (lessless_merged A) D).
Proof.
  intros Hst Hd Hf Ht Hk Hx Htxt Hw1 Hw2.
  assert (Hhalf : str (Buffer E) (ref_substr (TokenText t) 0 (Some 1))
                  = lit "<").
  { rewrite Hx. apply (halve_text _ _ _ _ "<"%char). unfold text_of in Htxt.
    now rewrite Hx in Htxt. }
  assert (Hnl : text_find (is_char ch_nl)
                  (str (Buffer E) (ref_substr (TokenText t) 0 (Some 1))) 0
                = None) by now rewrite Hhalf.
  destruct (getNextToken_first_half E fuel s s1 p t rest d
              tk_lessless tk_less Hst Hd Hf Ht Hk
              (or_intror (conj eq_refl eq_refl)) Hnl)
    as (Hrun & Hp & _).
  pose proof (getNextToken_unsplit_lessless E fuel s s1 p t d Hd Hf Ht Hk Htxt)
    as HrunD. cbv zeta in HrunD. rewrite Hw2 in HrunD.
  set (A := first_half E tk_less (Column s1) t) in *.
  assert (HtA : text_of E A = lit "<") by exact Hhalf.
  assert (HwA : FirstLineColumnWidth A = 1).
  { subst A. unfold first_half. simpl FirstLineColumnWidth.
    unfold text_of at 1. simpl TokenText. rewrite Hhalf. exact Hw1. }
  set (D := set_FirstLineColumnWidth 2 t) in *.
  assert (Hobs : same_observable E (lessless_merged A) D).
  { split; [exact (eq_sym Htxt)|].
    unfold lessless_merged. rewrite HwA. subst A D. unfold first_half.
    destruct t as [[k l len id] txt f m u fin nlb un lno ws oc w1 w2 ty].
    simpl in Hk. subst k. reflexivity. }
  assert (Hcol : u32 (Column s1 + 2)
                 = u32 (u32 (Column s1 + 1) + FirstLineColumnWidth A)).
  { rewrite HwA, u32_add_l. f_equal. lia. }
  eexists _, A, (stashed_token A), _, D.
  split; [exact Hrun|]. split; [simpl; rewrite Hp; apply lookup_snoc_fresh|].
  split; [reflexivity|]. split.
  { apply fetch_token_spec in Hf as (_ & ? & _ & _ & _ & Hft & _).
    exact Hft. }
  split; [reflexivity|]. split; [exact HtA|].
  split; [reflexivity|]. split; [exact Hhalf|].
  split; [unfold has_whitespace_before; simpl; now rewrite Z.eqb_refl|].
  split.
  { intros s2 r2 f2 Hs2 Hf2 Ha2. unfold getNextToken. rewrite Hs2.
    now rewrite (getStashedToken_result _ p A). }
  split; [exact HrunD|]. split; [simpl; rewrite Hp; apply lookup_snoc_fresh|].
  split; [exact Hk|]. split; [reflexivity|].
  split; [exact Hcol|].
  split; [reflexivity|].
  intros s3 pre pB pC C Ht3 HA3 HB3 HC3 KC Hpre Hconf.
  split; [|split; [reflexivity|split; [reflexivity|split;
            [reflexivity|exact Hobs]]]].
  unfold tryMergePreviousTokens.
  rewrite (tryMerge_TMacro_not_string E s3 (pre ++ [p]) pB pC
             (stashed_token A) C)
    by (rewrite ?Ht3, <- ?app_assoc; auto).
  simpl. rewrite Hconf. simpl.
  rewrite (tryMergeLessLess_fires s3 pre p pB pC A (stashed_token A) C);
    auto.
  unfold has_whitespace_before. simpl. now rewrite Z.eqb_refl.
Qed.

Lemma lessless_split_and_recombined_witness :
  exists sA A sD D,
    getNextToken shift_env 4 shift_state = Ok (sA, 1%nat) /\
    Arena sA !! 1%nat = Some A /\ Kind (Tok A) = tk_less /\
    getNextToken_unsplit shift_env 4 shift_state = Ok (sD, 1%nat) /\
    Arena sD !! 1%nat = Some D /\
    same_observable shift_env (lessless_merged A) D.
Proof.
  assert (Hf : fetch_token shift_env 4 shift_state
               = Ok (fst shift_fetched, 1%nat)) by (vm_compute; reflexivity).
  assert (Ht : Arena (fst shift_fetched) !! 1%nat = Some shift_raw)
    by (vm_compute; reflexivity).
  assert (Hd : previous_is_define shift_env shift_state = Ok false)
    by (vm_compute; reflexivity).
  destruct (lessless_split_and_recombined shift_env 4 shift_state
              (fst shift_fetched) 1%nat shift_raw [] false 2 2
              eq_refl Hd Hf Ht eq_refl eq_refl eq_refl eq_refl eq_refl)
    as (sA & A & B & sD & D & Hrun & HA & _ & _ & HkA & _ & _ & _ & _ & Hstash
        & HrunD & HD & _ & _ & _ & _ & Hmerge).
  exists sA, A, sD, D. repeat split; auto.
  - apply (Hmerge
        (set_Tokens [0; 1; 2; 3]%nat
           (set_Arena [new_FormatToken; A; B; new_FormatToken] initial_state))
        [0%nat] 2%nat 3%nat new_FormatToken); try reflexivity.
    exists new_FormatToken. split; reflexivity.
  - apply (Hmerge
        (set_Tokens [0; 1; 2; 3]%nat
           (set_Arena [new_FormatToken; A; B; new_FormatToken] initial_state))
        [0%nat] 2%nat 3%nat new_FormatToken); try reflexivity.
    exists new_FormatToken. split; reflexivity.
Defined.

(** C4 as stated does not hold: in [==== x <<], newline, [y] the raw
    lexer yields one [<<] between [x] and [y]; it is split, but when [y]
    is appended the conflict-marker rule, tried before the [<<] rule,
    collapses the line, and no shift-left token is ever formed. *)
Lemma lessless_recombined_counterexample :
  LexFromRawLexer shift_in_conflict_env 7 = (tk_lessless, 2) /\
  outcome_map (kinds_and_texts shift_in_conflict_env)
    (lex_rounds shift_in_conflict_env 5 12 initial_state)
  = Ok [Some (tk_other 1, "=="%string); Some (tk_other 1, "=="%string);
        Some (tk_identifier, "x"%string);
        Some (tk_less, "<"%string); Some (tk_less, "<"%string)] /\
  outcome_map (kinds_and_texts shift_in_conflict_env)
    (lex_rounds shift_in_conflict_env 6 12 initial_state)
  = Ok [Some (tk_kw___unknown_anytype, "=="%string);
        Some (tk_identifier, "y"%string)] /\
  outcome_map (kinds_and_texts shift_in_conflict_env)
    (lex shift_in_conflict_env 12 initial_state)
  = Ok [Some (tk_kw___unknown_anytype, "=="%string);
        Some (tk_identifier, "y"%string); Some (tk_eof, EmptyString)].
Proof.
  split; [reflexivity|]. repeat split; vm_compute; reflexivity.
Qed.

Lemma tryMergeConflictMarkers_inv (E : Env) (s s' : State) (b : bool) :
  tryMergeConflictMarkers E s = Ok (s', b) ->
  (s' = s /\ b = false) \/
  (b = true /\ exists pre pNext pFirst First ty,
     Tokens s = pre ++ [pNext] /\
     Tokens s !! FirstInLineIndex s = Some pFirst /\
     Arena s !! pFirst = Some First /\
     Tokens s' = take (FirstInLineIndex s) (Tokens s) ++ [pFirst; pNext] /\
     Arena s' = <[pFirst := conflict_merged ty First]> (Arena s) /\
     FirstInLineIndex s' = FirstInLineIndex s /\
     FormatTok s' = FormatTok s /\ StateStack s' = StateStack s).
Proof.
  unfold tryMergeConflictMarkers. intros H.
  inv_bind H as pNext Hback. inv_bind H as Next HN.
  destruct ((UserNewlinesBefore Next =? 0) && negb (is_kind Next tk_eof));
    [injection H as <- <-; now left|].
  inv_bind H as pFirst HF. inv_bind H as First HFt.
  apply deref_inv in HFt.
  unfold Tokens_at in HF.
  destruct (Tokens s !! FirstInLineIndex s) as [q|] eqn:HFq;
    [|discriminate]. injection HF as ->.
  destruct (type_eqb _ TT_Unknown); [injection H as <- <-; now left|].
  inv_bind H as pNewBack Hnb.
  assert (pNewBack = pFirst).
  { unfold Tokens_back in Hnb. simpl in Hnb.
    replace (FirstInLineIndex s + 1)%nat with (S (FirstInLineIndex s))
      in Hnb by lia.
    rewrite (take_S_r _ _ _ HFq), last_snoc in Hnb. simpl in Hnb.
    congruence. }
  subst pNewBack.
  inv_bind H as s2 Hs2. apply update_inv in Hs2 as (x & Hx & ->).
  simpl in Hx. assert (x = First) by congruence. subst x.
  injection H as <- <-. right. split; [reflexivity|].
  unfold Tokens_back in Hback.
  destruct (list.last (Tokens s)) as [l|] eqn:Hl; [|discriminate].
  injection Hback as ->. apply last_Some in Hl as [pre Hpre].
  eexists pre, pNext, pFirst, First, _. repeat split; auto.
  simpl.
  replace (FirstInLineIndex s + 1)%nat with (S (FirstInLineIndex s)) by lia.
  rewrite (take_S_r _ _ _ HFq), <- app_assoc. reflexivity.
Qed.

(** ** The stash invariant *)

Lemma adjust_kind_stack (E : Env) (p : nat) (s s' : State)
    (t t' : FormatToken) :
  Arena s !! p = Some t -> IdentInfo (Tok t) = None ->
  adjust_kind E p s = Ok s' -> Arena s' !! p = Some t' ->
  StateStack s' = StateStack s \/
  (StateStack s' = TOKEN_STASHED :: StateStack s /\
   IdentInfo (Tok t') = None).
Proof.
  intros Ht Hid H Ht'. unfold adjust_kind in H.
  rewrite (deref_Some _ _ _ Ht) in H. simpl bind in H.
  destruct (is_kind t tk_comment).
  { inv_bind H as s1 Hs1. injection H as <-.
    apply update_inv in Hs1 as (? & _ & ->). now left. }
  destruct (is_kind t tk_raw_identifier).
  { apply update_inv in H as (? & _ & ->). now left. }
  destruct (is_kind t tk_greatergreater).
  { inv_bind H as s1 Hs1. injection H as <-.
    apply update_inv in Hs1 as (x & Hx & ->). simpl in Hx.
    assert (x = t) by congruence. subst x. right. split; [reflexivity|].
    simpl in Ht'. rewrite (lookup_updated _ _ t) in Ht' by assumption.
    injection Ht' as <-. exact Hid. }
  destruct (is_kind t tk_lessless).
  { inv_bind H as s1 Hs1. injection H as <-.
    apply update_inv in Hs1 as (x & Hx & ->). simpl in Hx.
    assert (x = t) by congruence. subst x. right. split; [reflexivity|].
    simpl in Ht'. rewrite (lookup_updated _ _ t) in Ht' by assumption.
    injection Ht' as <-. exact Hid. }
  injection H as <-. now left.
Qed.

Lemma getNextToken_normal_stack (E : Env) (fuel : nat) (s s' : State)
    (p : nat) (rest : list LexerState) (d : bool) (t' : FormatToken) :
  StateStack s = NORMAL :: rest -> previous_is_define E s = Ok d ->
  getNextToken E fuel s = Ok (s', p) -> Arena s' !! p = Some t' ->
  StateStack s' = NORMAL :: rest \/
  (StateStack s' = TOKEN_STASHED :: NORMAL :: rest /\
   IdentInfo (Tok t') = None).
Proof.
  intros Hst Hd H Ht'. unfold getNextToken in H. rewrite Hst in H.
  inv_bind H as r1 Hf. destruct r1 as [s1 p1]. simpl fst in H. simpl snd in H.
  destruct (fetch_token_spec E fuel s s1 p1 Hf)
    as (-> & ta & Ha1 & Hk1 & _ & _ & Hs1 & _ & Hi1).
  set (p0 := length (Arena s)) in *.
  assert (Hl1 : Arena s1 !! p0 = Some ta)
    by (rewrite Ha1; apply lookup_snoc_fresh).
  inv_bind H as s2 Hadj.
  destruct (adjust_kind_spec E p0 s1 s2 ta Hl1 Hadj) as (tb & Hr2 & _).
  pose proof (adjust_kind_stack E p0 s1 s2 ta tb Hl1 Hi1 Hadj
                (rewrites_lookup _ _ _ _ _ Hr2)) as Hstk.
  inv_bind H as s3 Hme.
  destruct (measure_token_spec E p0 s2 s3 tb
              (rewrites_lookup _ _ _ _ _ Hr2) Hme)
    as (tc & Hr3 & _ & Htok3 & _ & _ & Hs3).
  inv_bind H as s4 Hcl. injection H as <- <-.
  pose proof (rewrites_trans _ _ _ _ _ _ _ Hr2 Hr3) as Hr23.
  pose proof (rewrites_snoc _ _ _ _ _ _ Ha1 eq_refl Hr23) as Ha3.
  assert (Hk3 : Tokens s3 = Tokens s).
  { destruct Hr23 as (_ & _ & Hk & _). congruence. }
  pose proof (previous_is_define_frame E s s3 tc d Ha3 Hk3 Hd) as Hd3.
  destruct (classify_spec E p0 s3 s4 tc d
              (rewrites_lookup _ _ _ _ _ Hr3) Hd3 Hcl)
    as (td & Hr4 & Htok4 & _ & _ & _ & Hs4).
  rewrite (rewrites_lookup _ _ _ _ _ Hr4) in Ht'. injection Ht' as <-.
  rewrite Hs4, Hs3. destruct Hstk as [Hstk|[Hstk Hid]].
  - left. congruence.
  - right. split; [congruence|]. congruence.
Qed.

(** ** Exactly one end-of-file token, whenever [lex] returns *)

Lemma no_eof_update (s s' : State) (l : list nat) (q : nat)
    (x : FormatToken) :
  no_eof s l -> Arena s' = <[q := x]> (Arena s) ->
  Kind (Tok x) <> tk_eof -> no_eof s' l.
Proof.
  intros H Ha Hx. unfold no_eof in *. eapply Forall_impl; [|exact H].
  intros p (t & Ht & Hk). simpl. rewrite Ha.
  destruct (decide (q = p)) as [->|Hne].
  - exists x. split; [now apply (lookup_updated _ _ t) | exact Hx].
  - exists t. split; [now rewrite lookup_not_updated | exact Hk].
Qed.

Lemma no_eof_snoc_arena (s s' : State) (l : list nat) (x : FormatToken) :
  no_eof s l -> Arena s' = Arena s ++ [x] -> no_eof s' l.
Proof.
  intros H Ha. unfold no_eof in *. eapply Forall_impl; [|exact H].
  intros p (t & Ht & Hk). simpl. exists t. split; [|exact Hk].
  rewrite Ha. now apply lookup_app_l_Some.
Qed.

Lemma stack_inv_update (s s' : State) (q : nat) (x y : FormatToken) :
  stack_inv s -> StateStack s' = StateStack s ->
  FormatTok s' = FormatTok s -> Arena s' = <[q := x]> (Arena s) ->
  Arena s !! q = Some y -> IdentInfo (Tok x) = IdentInfo (Tok y) ->
  stack_inv s'.
Proof.
  intros [H|(H & pOld & old & Hf & Ho & Hi)] Hs Hft Ha Hq Hid;
    [left; congruence|].
  right. split; [congruence|].
  destruct (decide (q = pOld)) as [->|Hne].
  - exists pOld, x. repeat split; [congruence| |].
    + rewrite Ha. now apply (lookup_updated _ _ y).
    + assert (y = old) by congruence. subst. congruence.
  - exists pOld, old. repeat split; [congruence| |exact Hi].
    rewrite Ha. now rewrite lookup_not_updated.
Qed.

Lemma previous_is_define_defined (E : Env) (s : State) :
  no_eof s (Tokens s) -> exists d, previous_is_define E s = Ok d.
Proof.
  intros H. unfold previous_is_define.
  destruct (list.last (Tokens s)) as [q|] eqn:Hl; [|eauto].
  apply last_Some in Hl as [pre Hpre]. unfold no_eof in H.
  rewrite Hpre, Forall_app, Forall_singleton in H.
  destruct H as [_ (t & Ht & _)].
  rewrite (deref_Some _ _ _ Ht). simpl.
  destruct (IdentInfo (Tok t)); eauto.
Qed.

(** A call of [getNextToken] adds one token to the arena and leaves the
    token vector alone. *)
Lemma getNextToken_appends (E : Env) (fuel : nat) (s s' : State) (p : nat) :
  driver_invariant s -> getNextToken E fuel s = Ok (s', p) ->
  p = length (Arena s) /\
  exists t', Arena s' = Arena s ++ [t'] /\ Tokens s' = Tokens s /\
    FirstInLineIndex s' = FirstInLineIndex s /\ stack_inv s'.
Proof.
  intros [Hne Hstk] H.
  destruct (previous_is_define_defined E s Hne) as [d Hd].
  destruct Hstk as [Hst|(Hst & pOld & old & Hf & Ho & Hi)].
  - destruct (getNextToken_normal_spec E fuel s s' p [] d Hst Hd H)
      as (-> & t0 & t' & Ha & Hk & Hfi & Hp & _).
    split; [reflexivity|]. exists t'. repeat split; auto.
    assert (Ht' : Arena s' !! length (Arena s) = Some t')
      by (rewrite Ha; apply lookup_snoc_fresh).
    destruct (getNextToken_normal_stack E fuel s s' _ [] d t' Hst Hd H Ht')
      as [Hs|[Hs Hid]]; [now left|].
    right. split; [exact Hs|]. eauto.
  - unfold getNextToken in H. rewrite Hst in H.
    rewrite (getStashedToken_result _ pOld old) in H by assumption.
    injection H as <- <-. split; [reflexivity|].
    exists (stashed_token old). repeat split. now left.
Qed.

Lemma is_kind_not_eof (t : FormatToken) (k : TokenKind) :
  is_kind t k = true -> k <> tk_eof -> Kind (Tok t) <> tk_eof.
Proof. intros H Hk. apply kind_eqb_eq in H. congruence. Qed.

Lemma tryMerge_TMacro_keeps (E : Env) (s s' : State) (b : bool) :
  all_but_last_no_eof s -> stack_inv s ->
  tryMerge_TMacro E s = Ok (s', b) ->
  all_but_last_no_eof s' /\ stack_inv s'.
Proof.
  intros (pre & q & Ht & Hne & Hq) Hstk H.
  apply tryMerge_TMacro_inv in H as [[-> _]|[_ H]].
  { split; [exists pre, q|]; auto. }
  destruct H as (pre4 & pM & pP & pS & pL & tM & tP & tS & tL & span &
                 Ht4 & HM & HP & HS & HL & Hpat & Ht' & Ha' & _ & Hf & Hs).
  unfold TMacro_pattern in Hpat.
  repeat (apply andb_true_iff in Hpat as [Hpat ?]).
  rewrite Ht in Ht4.
  change (pre4 ++ [pM; pP; pS; pL]) with (pre4 ++ [pM; pP; pS] ++ [pL])
    in Ht4.
  rewrite app_assoc in Ht4. apply app_inj_tail in Ht4 as [-> ->].
  unfold no_eof in Hne. apply Forall_app in Hne as [Hne4 _].
  split.
  - exists pre4, pS. split; [exact Ht'|]. split.
    + apply (no_eof_update s s' pre4 pS _ Hne4 Ha'). simpl.
      eapply is_kind_not_eof; [eassumption | discriminate].
    + rewrite Ha', (lookup_updated _ _ tS) by assumption. eauto.
  - eapply (stack_inv_update s s' pS _ tS); eauto.
Qed.

Lemma tryMergeConflictMarkers_keeps (E : Env) (s s' : State) (b : bool) :
  all_but_last_no_eof s -> stack_inv s ->
  tryMergeConflictMarkers E s = Ok (s', b) ->
  all_but_last_no_eof s' /\ stack_inv s'.
Proof.
  intros (pre & q & Ht & Hne & Hq) Hstk H.
  apply tryMergeConflictMarkers_inv in H as [[-> _]|[_ H]].
  { split; [exists pre, q|]; auto. }
  destruct H as (pre0 & pNext & pFirst & First & ty &
                 Ht0 & HF & HFt & Ht' & Ha' & _ & Hf & Hs).
  rewrite Ht in Ht0. apply app_inj_tail in Ht0 as [<- <-].
  assert (HFlt : (FirstInLineIndex s <= length pre)%nat).
  { apply lookup_lt_Some in HF. rewrite Ht, length_app in HF.
    simpl in HF. lia. }
  assert (Hk : Kind (Tok (conflict_merged ty First)) <> tk_eof)
    by (simpl; discriminate).
  split.
  - exists (take (FirstInLineIndex s) (Tokens s) ++ [pFirst]), q.
    split; [rewrite Ht', <- app_assoc; reflexivity|]. split.
    + unfold no_eof. apply Forall_app. split.
      * rewrite Ht, take_app_le by exact HFlt.
        apply (no_eof_update s s' _ pFirst (conflict_merged ty First));
          [|exact Ha'|exact Hk].
        unfold no_eof in *. now apply Forall_take.
      * apply Forall_singleton. exists (conflict_merged ty First).
        split; [|exact Hk]. rewrite Ha'. now apply (lookup_updated _ _ First).
    + destruct Hq as [tq Hq]. rewrite Ha'.
      destruct (decide (pFirst = q)) as [->|Hd].
      * rewrite (lookup_updated _ _ First) by assumption. eauto.
      * rewrite lookup_not_updated by assumption. eauto.
  - eapply (stack_inv_update s s' pFirst _ First); eauto.
Qed.

Lemma tryMergeLessLess_keeps (s s' : State) (b : bool) :
  all_but_last_no_eof s -> stack_inv s ->
  tryMergeLessLess s = Ok (s', b) ->
  all_but_last_no_eof s' /\ stack_inv s'.
Proof.
  intros (pre & q & Ht & Hne & Hq) Hstk H.
  apply tryMergeLessLess_inv in H as [[-> _]|[_ H]].
  { split; [exists pre, q|]; auto. }
  destruct H as (pre3 & p0 & p1 & p2 & t0 & t1 & t2 &
                 Ht3 & H0 & H1 & H2 & K0 & K1 & K2 & _ & Ht' & Ha' & _
                 & Hf & Hs).
  rewrite Ht in Ht3.
  change (pre3 ++ [p0; p1; p2]) with (pre3 ++ [p0; p1] ++ [p2]) in Ht3.
  rewrite app_assoc in Ht3. apply app_inj_tail in Ht3 as [-> ->].
  assert (Hk : Kind (Tok (lessless_merged t0)) <> tk_eof)
    by (simpl; discriminate).
  unfold no_eof in Hne.
  change (pre3 ++ [p0; p1]) with (pre3 ++ [p0] ++ [p1]) in Hne.
  rewrite app_assoc in Hne. apply Forall_app in Hne as [Hne3 _].
  split.
  - exists (pre3 ++ [p0]), p2.
    split; [rewrite Ht', <- app_assoc; reflexivity|]. split.
    + apply (no_eof_update s s' _ p0 _ Hne3 Ha' Hk).
    + rewrite Ha'. destruct (decide (p0 = p2)) as [->|Hd].
      * rewrite (lookup_updated _ _ t0) by assumption. eauto.
      * rewrite lookup_not_updated by assumption. eauto.
  - eapply (stack_inv_update s s' p0 _ t0); eauto.
Qed.

Lemma tryMergePreviousTokens_keeps (E : Env) (s s' : State) :
  all_but_last_no_eof s -> stack_inv s ->
  tryMergePreviousTokens E s = Ok s' ->
  all_but_last_no_eof s' /\ stack_inv s'.
Proof.
  intros Hab Hstk H. unfold tryMergePreviousTokens in H.
  inv_bind H as r1 H1. destruct r1 as [s1 b1].
  destruct (tryMerge_TMacro_keeps E s s1 b1 Hab Hstk H1) as [Hab1 Hstk1].
  simpl in H. destruct b1; [injection H as <-; auto|].
  inv_bind H as r2 H2. destruct r2 as [s2 b2].
  destruct (tryMergeConflictMarkers_keeps E s1 s2 b2 Hab1 Hstk1 H2)
    as [Hab2 Hstk2].
  simpl in H. destruct b2; [injection H as <-; auto|].
  inv_bind H as r3 H3. destruct r3 as [s3 b3]. injection H as <-.
  exact (tryMergeLessLess_keeps s2 s3 b3 Hab2 Hstk2 H3).
Qed.

Lemma lex_step_invariant (E : Env) (fuel : nat) (s s' : State) (cont : bool) :
  driver_invariant s -> lex_step E fuel s = Ok (s', cont) ->
  if cont then driver_invariant s' else exactly_one_eof s' /\ stack_inv s'.
Proof.
  intros Hinv H. unfold lex_step in H.
  inv_bind H as r Hnext. destruct r as [s1 p].
  destruct (getNextToken_appends E fuel s s1 p Hinv Hnext)
    as (-> & t' & Ha1 & Hk1 & _ & Hstk1).
  simpl fst in H. simpl snd in H.
  set (s2 := set_Tokens (Tokens s1 ++ [length (Arena s)]) s1) in *.
  assert (Hab2 : all_but_last_no_eof s2).
  { exists (Tokens s), (length (Arena s)). split; [simpl; now rewrite Hk1|].
    split.
    - apply (no_eof_snoc_arena s s2 _ t'); [apply Hinv | exact Ha1].
    - simpl. rewrite Ha1, lookup_snoc_fresh. eauto. }
  inv_bind H as s3 Hmerge.
  destruct (tryMergePreviousTokens_keeps E s2 s3 Hab2 Hstk1 Hmerge)
    as [(pre & q & Ht3 & Hne3 & Hq3) Hstk3].
  inv_bind H as pBack Hb. inv_bind H as Back HB. apply deref_inv in HB.
  rewrite (Tokens_back_snoc s3 pre q Ht3) in Hb. injection Hb as <-.
  match type of H with
  | context [Tokens_back ?st] => set (s4 := st) in *
  end.
  assert (Ht4 : Tokens s4 = pre ++ [q])
    by (subst s4; destruct (_ || _); exact Ht3).
  assert (Ha4 : Arena s4 = Arena s3)
    by (subst s4; destruct (_ || _); reflexivity).
  assert (Hs4 : stack_inv s4).
  { subst s4. destruct (_ || _); [|exact Hstk3].
    destruct Hstk3 as [?|(? & ?)]; [now left | now right]. }
  assert (Hne4 : no_eof s4 pre).
  { unfold no_eof in *. now rewrite Ha4. }
  rewrite (Tokens_back_snoc s4 pre q Ht4) in H. simpl bind in H.
  inv_bind H as Back' HB'. apply deref_inv in HB'. injection H as <- <-.
  rewrite Ha4 in HB'. assert (Back' = Back) by congruence. subst Back'.
  destruct (is_kind Back tk_eof) eqn:Heof; simpl.
  - split; [|exact Hs4]. exists pre, q, Back.
    rewrite Ha4. repeat split; auto. now apply kind_eqb_eq.
  - split; [|exact Hs4]. unfold no_eof. rewrite Ht4.
    apply Forall_app. split; [exact Hne4|]. apply Forall_singleton.
    exists Back. rewrite Ha4. split; [exact HB|].
    intros Hk. unfold is_kind in Heof. rewrite Hk in Heof. discriminate.
Qed.

Lemma lex_loop_exactly_one_eof (E : Env) (tokfuel : nat) (fuel : nat) :
  forall s s', driver_invariant s ->
  lex_loop E fuel tokfuel s = Ok s' -> exactly_one_eof s'.
Proof.
  induction fuel as [|fuel IH]; intros s s' Hinv H; [discriminate|].
  simpl in H. inv_bind H as r Hstep. destruct r as [s1 cont].
  pose proof (lex_step_invariant E tokfuel s s1 cont Hinv Hstep) as Hs1.
  simpl in H. destruct cont.
  - eapply IH; eauto.
  - injection H as <-. apply Hs1.
Qed.

(** X11: whenever [lex] returns, the sequence it returns is not empty,
    ends in the end-of-file token and holds no other end-of-file token. *)
Lemma lex_exactly_one_eof (E : Env) (fuel : nat) (s' : State) :
  lex E fuel initial_state = Ok s' -> exactly_one_eof s'.
Proof.
  unfold lex. simpl. apply lex_loop_exactly_one_eof.
  split; [constructor | now left].
Qed.

(** ** The format-disable flag on tokens read from the raw lexer *)

(** X12: [readRawToken] clears the flag on a format-on comment before it
    marks the token and sets it on a format-off comment after it marked
    the token: the two sentinel comments themselves are never finalized by
    the region they open or close. *)
Lemma readRawToken_finalized (E : Env) (p : nat) (s s' : State)
    (t : FormatToken) :
  Arena s !! p = Some t -> readRawToken E p s = Ok s' ->
  exists t', Arena s' !! p = Some t' /\
    Finalized t' =
      (FormattingDisabled s
       && negb (is_kind t' tk_comment && is_format_on (text_of E t'))) /\
    FormattingDisabled s' =
      (Finalized t'
       || (is_kind t' tk_comment && is_format_off (text_of E t'))).
Proof.
  intros Ht H. unfold readRawToken in H.
  rewrite (deref_Some _ _ _ Ht) in H. simpl bind in H.
  destruct (LexFromRawLexer E (LexPos s)) as [k len]. cbv zeta in H.
  apply update_inv in H as (x & Hx & ->).
  eexists. split.
  { simpl. apply (lookup_updated _ _ x).
    repeat match goal with
    | |- context [if ?b then _ else _] => destruct b
    end; exact Hx. }
  match goal with
  | |- context [set_Finalized _ ?tok] => set (t1 := tok)
  end.
  change (is_kind (set_Finalized _ t1) tk_comment)
    with (is_kind t1 tk_comment).
  change (text_of E (set_Finalized _ t1)) with (text_of E t1).
  destruct (is_kind t1 tk_comment && is_format_on (text_of E t1)) eqn:Hon;
    destruct (is_kind t1 tk_comment && is_format_off (text_of E t1)) eqn:Hoff;
    simpl; destruct (FormattingDisabled s); simpl; auto.
Qed.

(** ** Examples from the description of the lexer *)

Example TMacro_hello :
  outcome_map (kinds_and_texts hello_env) (lex hello_env 6 initial_state)
  = Ok [Some (tk_string_literal,
              String.append "_T("
                (String.append (String ch_dquote "hello")
                   (String.append (String ch_dquote EmptyString) ")")));
        Some (tk_eof, EmptyString)].
Proof. vm_compute. reflexivity. Qed.

Example nested_template_keeps_two_greater :
  outcome_map (kinds_and_texts nested_template_env)
    (lex nested_template_env 10 initial_state)
  = Ok [Some (tk_identifier, "vector"%string); Some (tk_less, "<"%string);
        Some (tk_identifier, "vector"%string); Some (tk_less, "<"%string);
        Some (tk_identifier, "int"%string); Some (tk_greater, ">"%string);
        Some (tk_greater, ">"%string); Some (tk_eof, EmptyString)].
Proof. vm_compute. reflexivity. Qed.

Example shift_is_recombined :
  outcome_map (kinds_and_texts shift_env) (lex shift_env 6 initial_state)
  = Ok [Some (tk_identifier, "x"%string); Some (tk_lessless, "<<"%string);
        Some (tk_identifier, "y"%string); Some (tk_eof, EmptyString)].
Proof. vm_compute. reflexivity. Qed.

Example two_tabs_column_8 :
  outcome_map
    (fun s => map (option_map (fun t => (Kind (Tok t), OriginalColumn t)))
                (token_stream s))
    (lex tabs_env 4 initial_state)
  = Ok [Some (tk_identifier, 8); Some (tk_eof, 9)].
Proof. vm_compute. reflexivity. Qed.

Example foreach_use_is_tagged :
  outcome_map
    (fun s => map (option_map Type_) (firstn 1 (token_stream s)))
    (lex foreach_use_env 10 initial_state)
  = Ok [Some TT_ForEachMacro].
Proof. vm_compute. reflexivity. Qed.

Example format_off_region :
  outcome_map (kinds_texts_finalized format_off_on_env)
    (lex format_off_on_env 8 initial_state)
  = Ok [Some (tk_comment, "// clang-format off"%string, false);
        Some (tk_identifier, "a"%string, true);
        Some (tk_comment, "// clang-format on"%string, false);
        Some (tk_identifier, "b"%string, false);
        Some (tk_eof, EmptyString, false)].
Proof. vm_compute. reflexivity. Qed.

(** ** Where the driver can fail *)

(** X13: the conflict-marker rule indexes the token vector with
    [FirstInLineIndex] as soon as the last token has a newline before it
    or is the end of file; an index past the end is an out-of-range
    access. *)
Lemma tryMergeConflictMarkers_index_out_of_range (E : Env) (s : State)
    (pre : list nat) (pNext : nat) (Next : FormatToken) :
  Tokens s = pre ++ [pNext] -> Arena s !! pNext = Some Next ->
  UserNewlinesBefore Next <> 0 \/ Kind (Tok Next) = tk_eof ->
  (length (Tokens s) <= FirstInLineIndex s)%nat ->
  tryMergeConflictMarkers E s = Undefined.
Proof.
  intros Ht HN Hg Hlen. unfold tryMergeConflictMarkers.
  rewrite (Tokens_back_snoc _ _ _ Ht). simpl bind.
  rewrite (deref_Some _ _ _ HN). simpl bind.
  assert (Hgate : (UserNewlinesBefore Next =? 0) && negb (is_kind Next tk_eof)
                  = false).
  { destruct Hg as [Hn|Hk].
    - apply Z.eqb_neq in Hn. now rewrite Hn.
    - unfold is_kind. rewrite Hk. simpl. apply andb_false_r. }
  rewrite Hgate. unfold Tokens_at.
  now rewrite (lookup_ge_None_2 _ _ Hlen).
Qed.

(** At the head of the loop the hypotheses of the classification and
    stash results hold. *)
Lemma driver_invariant_pending_half (s : State) :
  driver_invariant s -> pending_half_plain s.
Proof.
  intros [_ [H|(H & Hp)]]; unfold pending_half_plain; rewrite H; auto.
Qed.

(** * Further properties of the lexer *)

(** ** The generic merge *)

Lemma take_plus (A : Type) (n m : nat) (l : list A) :
  take (n + m) l = take n l ++ take m (drop n l).
Proof.
  revert l. induction n as [|n IH]; intros l; [reflexivity|].
  destruct l as [|x l]; simpl; [now rewrite take_nil|]. now rewrite IH.
Qed.

Lemma sub_text_add (b : text) (d n m : Z) :
  0 <= d -> 0 <= n -> 0 <= m ->
  sub_text b d (n + m) = sub_text b d n ++ sub_text b (d + n) m.
Proof.
  intros Hd Hn Hm. unfold sub_text.
  rewrite !Z2Nat.inj_add by lia. rewrite take_plus. f_equal.
  now rewrite drop_drop.
Qed.

Lemma adjacent_run_bytes_nonneg (s : State) (ps : list nat) :
  forall off ks, adjacent_run s off ps ks -> 0 <= run_bytes s ps.
Proof.
  induction ps as [|p ps IH]; intros off ks H; simpl; [lia|].
  destruct ks as [|k ks]; [contradiction|].
  destruct H as (t & n & Ht & _ & _ & Hx & Hn & Hrest).
  rewrite Ht, Hx. simpl. specialize (IH _ _ Hrest). lia.
Qed.

Lemma merge_tail_length_run (s : State) (ps : list nat) :
  forall off ks acc,
  adjacent_run s off ps ks -> 0 <= acc -> acc + run_bytes s ps < 2 ^ 32 ->
  merge_tail_length s ps ks acc = Ok (Some (acc + run_bytes s ps)).
Proof.
  induction ps as [|p ps IH]; intros off ks acc H Hacc Hlt.
  - destruct ks; [|contradiction]. simpl. now rewrite Z.add_0_r.
  - destruct ks as [|k ks]; [contradiction|].
    destruct H as (t & n & Ht & Hk & Hw & Hx & Hn & Hrest).
    pose proof (adjacent_run_bytes_nonneg _ _ _ _ Hrest) as Hnn.
    simpl in *. rewrite Ht in *. rewrite (deref_Some _ _ _ Ht). simpl bind.
    rewrite Hk, Hw, Hx in *. simpl in *.
    assert (Hu : u32 (acc + n) = acc + n)
      by (unfold u32; apply Z.mod_small; lia).
    rewrite Hu, (IH _ _ _ Hrest) by lia. do 2 f_equal. lia.
Qed.

Lemma run_text_sub_text (E : Env) (s : State) (ps : list nat) :
  forall off ks, adjacent_run s off ps ks -> 0 <= off ->
  sub_text (Buffer E) off (run_bytes s ps) = run_text E s ps.
Proof.
  induction ps as [|p ps IH]; intros off ks H Hoff.
  - simpl. unfold sub_text. simpl. now rewrite take_0.
  - destruct ks as [|k ks]; [contradiction|].
    destruct H as (t & n & Ht & _ & _ & Hx & Hn & Hrest).
    pose proof (adjacent_run_bytes_nonneg _ _ _ _ Hrest) as Hnn.
    simpl. rewrite Ht. unfold text_of. rewrite Hx. simpl.
    rewrite sub_text_add by lia. f_equal. apply (IH _ _ Hrest). lia.
Qed.

Lemma adjacent_run_length (s : State) (ps : list nat) :
  forall off ks, adjacent_run s off ps ks -> length ps = length ks.
Proof.
  induction ps as [|p ps IH]; intros off [|k ks] H; try contradiction;
    [reflexivity|].
  destruct H as (t & n & _ & _ & _ & _ & _ & Hrest). simpl.
  f_equal. exact (IH _ _ Hrest).
Qed.

(** X1: when the tail of the vector is a run of tokens of the wanted
    kinds that lie side by side in the buffer with no whitespace between
    them, the generic merge keeps the first token only, gives it the new
    type, makes its text the texts of the whole run put together, and adds
    the byte sizes of the swallowed tokens to its width. *)
Theorem tryMergeTokens_concatenates (E : Env) (s : State) (pre ps : list nat)
    (p0 : nat) (t0 : FormatToken) (k0 : TokenKind) (ks : list TokenKind)
    (NewType : TokenType) (d0 n0 : Z) :
  Tokens s = pre ++ p0 :: ps -> Arena s !! p0 = Some t0 ->
  is_kind t0 k0 = true -> TokenText t0 = SrcRef d0 n0 ->
  0 <= d0 -> 0 <= n0 ->
  adjacent_run s (d0 + n0) ps ks -> n0 + run_bytes s ps < 2 ^ 32 ->
  exists m,
    tryMergeTokens (k0 :: ks) NewType s =
      Ok (set_Arena (<[p0 := m]> (Arena s)) (set_Tokens (pre ++ [p0]) s),
          true) /\
    text_of E m = text_of E t0 ++ run_text E s ps /\
    FirstLineColumnWidth m
      = u32 (FirstLineColumnWidth t0 + run_bytes s ps) /\
    Type_ m = NewType /\ Tok m = Tok t0 /\
    PrecedingWhitespaceRange m = PrecedingWhitespaceRange t0.
Proof.
  intros Ht H0 K0 Hx Hd Hn Hrun Hlt.
  pose proof (adjacent_run_length _ _ _ _ Hrun) as Hlen.
  pose proof (adjacent_run_bytes_nonneg _ _ _ _ Hrun) as Hnn.
  set (total := run_bytes s ps) in *.
  exists (tokens_merged (SrcRef d0 (n0 + total)) total NewType t0).
  split; [|repeat split].
  - unfold tryMergeTokens. rewrite Ht, length_app. simpl length.
    rewrite <- Hlen.
    destruct (Nat.ltb_spec (length pre + S (length ps)) (S (length ps)))
      as [Hl|_]; [lia|].
    replace (length pre + S (length ps) - S (length ps))%nat
      with (length pre) by lia.
    rewrite drop_app_length. rewrite (deref_Some _ _ _ H0). simpl bind.
    rewrite K0. simpl negb. cbv iota.
    rewrite (merge_tail_length_run s ps _ ks 0 Hrun) by (fold total; lia).
    simpl bind. fold total. rewrite Z.add_0_l, Hx. simpl extend_text.
    assert (Hu : usize (n0 + total) = n0 + total)
      by (unfold usize; apply Z.mod_small; lia).
    rewrite Hu. simpl bind.
    match goal with
    | |- context [update p0 ?f ?st] =>
        rewrite (update_Some st p0 f t0) by exact H0
    end.
    simpl bind. do 2 f_equal.
    unfold set_Arena, set_Tokens. simpl. f_equal.
    replace (length pre + 1)%nat with (length (pre ++ [p0]))
      by (rewrite length_app; simpl; lia).
    change (pre ++ p0 :: ps) with (pre ++ [p0] ++ ps).
    rewrite app_assoc. apply take_app_length.
  - unfold text_of at 1 2. simpl TokenText. rewrite Hx. simpl str.
    rewrite sub_text_add by lia. f_equal.
    apply (run_text_sub_text E s ps _ ks Hrun). lia.
Qed.

Lemma tryMergeTokens_concatenates_witness :
  exists s' m,
    tryMergeTokens [tk_identifier; tk_other 4; tk_other 5]
      TT_MacroBlockBegin merge_state = Ok (s', true) /\
    Tokens s' = [0%nat] /\ Arena s' !! 0%nat = Some m /\
    text_of merge_env m = lit "a|=" /\ FirstLineColumnWidth m = 3.
Proof.
  destruct (tryMergeTokens_concatenates merge_env merge_state [] [1; 2]%nat
              0%nat _ tk_identifier [tk_other 4; tk_other 5]
              TT_MacroBlockBegin 0 1 eq_refl eq_refl eq_refl eq_refl)
    as (m & Hrun & Htxt & Hw & _); try (simpl; lia).
  - simpl. eexists _, 1. repeat split; try reflexivity; try lia.
    eexists _, 1. repeat split; try reflexivity; lia.
  - eexists _, m. split; [exact Hrun|]. split; [reflexivity|].
    split; [reflexivity|]. split; [exact Htxt | exact Hw].
Defined.

Lemma merge_tail_length_whitespace (s : State) (ps : list nat) :
  forall ks acc i p t,
  Forall (fun q => is_Some (Arena s !! q)) ps -> length ps = length ks ->
  ps !! i = Some p -> Arena s !! p = Some t ->
  has_whitespace_before t = true ->
  merge_tail_length s ps ks acc = Ok None.
Proof.
  induction ps as [|q ps IH]; intros ks acc i p t Hall Hlen Hi Hp Hw;
    [discriminate|].
  destruct ks as [|k ks]; [discriminate|].
  apply Forall_cons_1 in Hall as [[tq Hq] Hall]. simpl.
  rewrite (deref_Some _ _ _ Hq). simpl bind.
  destruct i as [|i].
  - simpl in Hi. injection Hi as ->. assert (tq = t) by congruence. subst.
    rewrite Hw. now rewrite orb_true_r.
  - destruct (negb (is_kind tq k) || has_whitespace_before tq);
      [reflexivity|].
    simpl in Hi, Hlen. eapply IH; eauto.
Qed.

(** X2: the generic merge never joins tokens across whitespace: when one
    of the tokens after the first of the candidate run has whitespace
    before it, nothing changes, whatever the kinds are. *)
Theorem tryMergeTokens_refuses_whitespace (s : State) (pre ps : list nat)
    (p0 : nat) (k0 : TokenKind) (ks : list TokenKind) (NewType : TokenType)
    (i p : nat) (t : FormatToken) :
  Tokens s = pre ++ p0 :: ps ->
  Forall (fun q => is_Some (Arena s !! q)) (p0 :: ps) ->
  length ps = length ks ->
  ps !! i = Some p -> Arena s !! p = Some t ->
  has_whitespace_before t = true ->
  tryMergeTokens (k0 :: ks) NewType s = Ok (s, false).
Proof.
  intros Ht Hall Hlen Hi Hp Hw.
  apply Forall_cons_1 in Hall as [[t0 H0] Hall].
  unfold tryMergeTokens. rewrite Ht, length_app. simpl length.
  rewrite <- Hlen.
  destruct (Nat.ltb_spec (length pre + S (length ps)) (S (length ps)))
    as [Hl|_]; [reflexivity|].
  replace (length pre + S (length ps) - S (length ps))%nat
    with (length pre) by lia.
  rewrite drop_app_length. rewrite (deref_Some _ _ _ H0). simpl bind.
  destruct (negb (is_kind t0 k0)); [reflexivity|].
  now rewrite (merge_tail_length_whitespace s ps ks 0 i p t).
Qed.

Lemma tryMergeTokens_refuses_whitespace_witness :
  tryMergeTokens [tk_identifier; tk_other 4; tk_other 5]
    TT_MacroBlockBegin merge_spaced_state = Ok (merge_spaced_state, false).
Proof.
  apply (tryMergeTokens_refuses_whitespace merge_spaced_state [] [1; 2]%nat
           0%nat tk_identifier [tk_other 4; tk_other 5] TT_MacroBlockBegin
           1%nat 2%nat
           (set_PrecedingWhitespaceRange (2, 3)
              (plain_token (tk_other 5) 3 1 3)));
    try reflexivity.
  repeat constructor; simpl; eauto.
Defined.

(** ** Columns of folded whitespace *)

(** X3: a tab met while whitespace is folded moves the running column to
    the next multiple of the tab width, strictly to the right and by at
    most one tab width, and leaves the pending token alone. *)
Theorem fold_chars_tab_next_stop (E : Env) (Text : text)
    (WhitespaceLength i : Z) (rest : text) (t : FormatToken) (col : Z) :
  0 < TabWidth E -> 0 <= col -> col + TabWidth E < 2 ^ 32 ->
  Type_ t <> TT_ImplicitStringLiteral ->
  let stop := TabWidth E * (col / TabWidth E + 1) in
  fold_chars E Text WhitespaceLength i (ch_tab :: rest) (t, col)
    = fold_chars E Text WhitespaceLength (i + 1) rest (t, stop) /\
  col < stop <= col + TabWidth E /\ stop mod TabWidth E = 0.
Proof.
  intros Htw Hcol Hlt Hty stop.
  pose proof (Z.div_mod col (TabWidth E) ltac:(lia)) as Hdm.
  pose proof (Z.mod_pos_bound col (TabWidth E) Htw) as Hb.
  assert (Hstop : stop = col + (TabWidth E - col mod TabWidth E))
    by (unfold stop; lia).
  split; [|split; [lia|]].
  - cbn [fold_chars]. unfold fold_char.
    change (Ascii.eqb ch_tab ch_nl) with false.
    change (Ascii.eqb ch_tab ch_cr) with false.
    change (Ascii.eqb ch_tab ch_ff) with false.
    change (Ascii.eqb ch_tab ch_vt) with false.
    change (Ascii.eqb ch_tab ch_space) with false.
    change (Ascii.eqb ch_tab ch_tab) with true.
    cbn [orb fst].
    destruct (type_eqb (Type_ t) TT_ImplicitStringLiteral) eqn:Hi;
      [apply type_eqb_eq in Hi; contradiction|].
    do 2 f_equal. unfold u32.
    rewrite (Z.mod_small (TabWidth E - col mod TabWidth E)) by lia.
    rewrite Z.mod_small by lia. lia.
  - unfold stop. rewrite Z.mul_comm. apply Z_mod_mult.
Qed.

Lemma fold_chars_tab_next_stop_witness :
  fold_chars tabs_env tab_text 0 0 tab_text (new_FormatToken, 0)
    = fold_chars tabs_env tab_text 0 1 [ch_tab; "x"%char]
        (new_FormatToken, 4).
Proof.
  apply (fold_chars_tab_next_stop tabs_env tab_text 0 0 [ch_tab; "x"%char]
           new_FormatToken 0); simpl; try lia. discriminate.
Defined.

(** ** Leading escaped newlines *)

Lemma sub_text_drop2 (b : text) (d n : Z) :
  0 <= d -> 2 <= n ->
  sub_text b (d + 2) (n - 2) = drop 2 (sub_text b d n).
Proof.
  intros Hd Hn. unfold sub_text.
  rewrite skipn_firstn_comm, drop_drop.
  f_equal; [lia | f_equal; lia].
Qed.

Lemma starts_with_escaped_newline_inv (l : text) :
  starts_with_escaped_newline l = true ->
  l = ch_bslash :: ch_nl :: drop 2 l.
Proof.
  destruct l as [|c0 [|c1 r]]; simpl; try discriminate.
  intros H. apply andb_true_iff in H as [H0 H1].
  apply Ascii.eqb_eq in H0, H1. now subst.
Qed.

Lemma strip_escaped_newlines_loop (b : text) (fuel : nat) :
  forall (t : FormatToken) (WL col d n : Z),
  TokenText t = SrcRef d n -> 0 <= d -> (Z.to_nat n <= fuel)%nat ->
  exists k t' WL' col',
    strip_escaped_newlines fuel b (t, WL, col) = (t', WL', col') /\
    str b (TokenText t) = escaped_newlines k ++ str b (TokenText t') /\
    (1 <? ref_size (TokenText t'))
      && starts_with_escaped_newline (str b (TokenText t')) = false /\
    u32 (UserNewlinesBefore t') = u32 (UserNewlinesBefore t + Z.of_nat k) /\
    u32 WL' = u32 (WL + 2 * Z.of_nat k) /\
    (k = O -> t' = t /\ WL' = WL /\ col' = col) /\
    (k <> O -> col' = 0 /\ LastNewlineOffset t' = 2) /\
    Tok t' = Tok t.
Proof.
  induction fuel as [|fuel IH]; intros t WL col d n Hx Hd Hf.
  - exists O, t, WL, col. cbn [strip_escaped_newlines escaped_newlines app].
    rewrite !Z.add_0_r, Hx. cbn [ref_size].
    destruct (Z.ltb_spec 1 n) as [H1|_]; [exfalso; lia|].
    repeat split; try reflexivity; tauto.
  - cbn [strip_escaped_newlines].
    destruct ((1 <? ref_size (TokenText t))
              && starts_with_escaped_newline (str b (TokenText t))) eqn:Hc.
    + apply andb_true_iff in Hc as [Hn Hs].
      pose proof (starts_with_escaped_newline_inv _ Hs) as Hl.
      rewrite Hx in Hn. simpl in Hn. apply Z.ltb_lt in Hn.
      set (t1 := set_TokenText (ref_substr (TokenText t) 2 None)
                   (set_LastNewlineOffset 2
                      (set_UserNewlinesBefore
                         (u32 (UserNewlinesBefore t + 1)) t))).
      assert (Hx1 : TokenText t1 = SrcRef (d + 2) (n - 2)).
      { subst t1. simpl. rewrite Hx. unfold ref_substr, ref_size.
        rewrite Z.min_l by lia. reflexivity. }
      assert (Hf1 : (Z.to_nat (n - 2) <= fuel)%nat) by lia.
      assert (Hd1 : 0 <= d + 2) by lia.
      destruct (IH t1 (u32 (WL + 2)) 0 (d + 2) (n - 2) Hx1 Hd1 Hf1)
        as (k & t' & WL' & col' & Hrun & Htxt & Hexit & Hnl & Hwl & Hk0
            & Hk & Htok).
      exists (S k), t', WL', col'. split; [exact Hrun|].
      split.
      { rewrite Hl. cbn [escaped_newlines app]. do 2 f_equal.
        rewrite <- Htxt, Hx, Hx1. simpl str. symmetry.
        apply sub_text_drop2; lia. }
      split; [exact Hexit|]. split.
      { rewrite Hnl. subst t1. simpl UserNewlinesBefore.
        rewrite u32_add_l. f_equal. lia. }
      split.
      { rewrite Hwl, u32_add_l. f_equal. lia. }
      split; [discriminate|]. split; [|exact Htok].
      intros _. destruct k as [|k'].
      * destruct (Hk0 eq_refl) as (-> & _ & ->). split; reflexivity.
      * apply Hk. discriminate.
    + exists O, t, WL, col. cbn [escaped_newlines app]. rewrite !Z.add_0_r.
      repeat split; try reflexivity; tauto.
Qed.

Lemma u32_range (x : Z) : 0 <= u32 x < 2 ^ 32.
Proof. unfold u32. apply Z.mod_pos_bound. lia. Qed.

Lemma u32_small (x : Z) : 0 <= x < 2 ^ 32 -> u32 x = x.
Proof. unfold u32. apply Z.mod_small. Qed.

Lemma strip_escaped_newlines_range (b : text) (fuel : nat) :
  forall (t : FormatToken) (WL col : Z),
  0 <= UserNewlinesBefore t < 2 ^ 32 -> 0 <= WL < 2 ^ 32 ->
  let r := strip_escaped_newlines fuel b (t, WL, col) in
  0 <= UserNewlinesBefore (fst (fst r)) < 2 ^ 32 /\
  0 <= snd (fst r) < 2 ^ 32.
Proof.
  induction fuel as [|fuel IH]; intros t WL col Hn Hw; [simpl; auto|].
  cbn [strip_escaped_newlines].
  destruct ((1 <? ref_size (TokenText t))
            && starts_with_escaped_newline (str b (TokenText t)));
    [|simpl; auto].
  apply IH; [simpl; apply u32_range | apply u32_range].
Qed.

(** X4: the loop that strips leading backslash-newline pairs from a
    token, run with the fuel [getNextToken] gives it, removes exactly the
    [k] pairs the text starts with: the text that is left no longer
    satisfies the loop condition, the newline count grew by [k] and the
    whitespace length by [2k]; if a pair was stripped the column is 0 and
    the last newline offset is 2, else nothing changed. *)
Theorem strip_escaped_newlines_strips_all (b : text) (t : FormatToken)
    (WL col d n : Z) :
  TokenText t = SrcRef d n -> 0 <= d ->
  0 <= UserNewlinesBefore t < 2 ^ 32 -> 0 <= WL < 2 ^ 32 ->
  exists k t' WL' col',
    strip_escaped_newlines (Z.to_nat (ref_size (TokenText t))) b (t, WL, col)
      = (t', WL', col') /\
    str b (TokenText t) = escaped_newlines k ++ str b (TokenText t') /\
    (1 <? ref_size (TokenText t'))
      && starts_with_escaped_newline (str b (TokenText t')) = false /\
    UserNewlinesBefore t' = u32 (UserNewlinesBefore t + Z.of_nat k) /\
    WL' = u32 (WL + 2 * Z.of_nat k) /\
    Tok t' = Tok t /\
    (k = O -> t' = t /\ WL' = WL /\ col' = col) /\
    (k <> O -> col' = 0 /\ LastNewlineOffset t' = 2).
Proof.
  intros Hx Hd Hn Hw.
  destruct (strip_escaped_newlines_loop b (Z.to_nat (ref_size (TokenText t)))
              t WL col d n Hx Hd)
    as (k & t' & WL' & col' & Hrun & Htxt & Hexit & Hnl & Hwl & Hk0 & Hk
        & Htok); [rewrite Hx; simpl; lia|].
  pose proof (strip_escaped_newlines_range b
                (Z.to_nat (ref_size (TokenText t))) t WL col Hn Hw) as Hr.
  rewrite Hrun in Hr. simpl in Hr. destruct Hr as [Hr1 Hr2].
  exists k, t', WL', col'. repeat split; auto.
  - now rewrite <- (u32_small _ Hr1).
  - now rewrite <- (u32_small _ Hr2).
  - now apply Hk0.
  - now apply Hk0.
  - now apply Hk0.
  - now apply Hk.
  - now apply Hk.
Qed.

Lemma strip_escaped_newlines_strips_all_witness :
  exists t',
    strip_escaped_newlines 5 continued_buffer (continued_token, 0, 7)
      = (t', 4, 0) /\
    str continued_buffer (TokenText t') = ["x"%char] /\
    UserNewlinesBefore t' = 2.
Proof.
  destruct (strip_escaped_newlines_strips_all continued_buffer
              continued_token 0 7 0 5 eq_refl)
    as (k & t' & WL' & col' & Hrun & _); try (simpl; lia).
  vm_compute in Hrun. injection Hrun as <- <- <-.
  eexists. split; [reflexivity|]. split; reflexivity.
Defined.

(** ** Runs of [<] *)

(** X5: [tryMergeLessLess] leaves the last three tokens alone when the
    token before them or the last of them is a [<], or when whitespace
    separates the two middle ones: a run of three or more [<] and a spaced
    [< <] are never turned into a shift operator. *)
Theorem tryMergeLessLess_leaves_runs (s : State) (pre : list nat)
    (q p0 p1 p2 : nat) (tq t0 t1 t2 : FormatToken) :
  Tokens s = pre ++ [q; p0; p1; p2] ->
  Arena s !! q = Some tq -> Arena s !! p0 = Some t0 ->
  Arena s !! p1 = Some t1 -> Arena s !! p2 = Some t2 ->
  is_kind tq tk_less || is_kind t2 tk_less || has_whitespace_before t1 = true ->
  tryMergeLessLess s = Ok (s, false).
Proof.
  intros Ht Hq H0 H1 H2 Hc. unfold tryMergeLessLess.
  assert (Hlen : length (Tokens s) = (length pre + 4)%nat)
    by (rewrite Ht, length_app; reflexivity).
  destruct (Nat.ltb_spec (length (Tokens s)) 3) as [|_]; [lia|].
  destruct (Nat.ltb_spec 3 (length (Tokens s))) as [_|]; [|lia].
  rewrite (Tokens_from_end_app s pre _ 4 Ht) by (simpl; lia).
  rewrite (Tokens_from_end_app s pre _ 3 Ht) by (simpl; lia).
  rewrite (Tokens_from_end_app s pre _ 2 Ht) by (simpl; lia).
  rewrite (Tokens_from_end_app s pre _ 1 Ht) by (simpl; lia).
  simpl. rewrite (deref_Some _ _ _ Hq), (deref_Some _ _ _ H0),
    (deref_Some _ _ _ H1), (deref_Some _ _ _ H2). simpl.
  destruct (is_kind t2 tk_less); [reflexivity|].
  destruct (is_kind t1 tk_less); [|reflexivity]. simpl.
  destruct (is_kind t0 tk_less); [|reflexivity]. simpl.
  destruct (is_kind tq tk_less); [reflexivity|].
  simpl in Hc. now rewrite Hc.
Qed.

Lemma tryMergeLessLess_leaves_runs_witness :
  tryMergeLessLess less_run_state = Ok (less_run_state, false).
Proof.
  apply (tryMergeLessLess_leaves_runs less_run_state [] 0 1 2 3
           (plain_token tk_less 0 1 0) (plain_token tk_less 1 1 1)
           (plain_token tk_less 2 1 2)
           (set_PrecedingWhitespaceRange (3, 4)
              (plain_token tk_identifier 4 1 4)));
    reflexivity.
Defined.

(** ** Stray characters in whitespace *)



Lemma type_eqb_neq (a b : TokenType) : a <> b -> type_eqb a b = false.
Proof.
  intros H. destruct (type_eqb a b) eqn:Hab; [|reflexivity].
  apply type_eqb_eq in Hab. contradiction.
Qed.




(** ** Unterminated string literals *)

Lemma sub_text_head (b : text) (pos len : Z) (c : ascii) :
  char_at b pos = Some c -> 0 < len ->
  exists r, sub_text b pos len = c :: r.
Proof.
  unfold char_at, sub_text. intros H Hlen.
  destruct (pos <? 0); [discriminate|].
  rewrite (drop_S _ _ _ H).
  destruct (Z.to_nat len) as [|k] eqn:Hk; [lia|]. simpl. eauto.
Qed.

(** X7: when the raw lexer hands back an unknown token that starts with
    a double quote, [readRawToken] turns it into a string literal flagged
    as unterminated; the whitespace loop then leaves it alone, whatever
    the token holds after the quote. *)
Theorem readRawToken_unterminated_literal (E : Env) (p : nat) (s : State)
    (t : FormatToken) (len : Z) :
  Arena s !! p = Some t ->
  LexFromRawLexer E (LexPos s) = (tk_unknown, len) -> 0 < len ->
  char_at (Buffer E) (LexPos s) = Some ch_dquote ->
  exists s' t',
    readRawToken E p s = Ok s' /\
    Arena s' !! p = Some t' /\
    Kind (Tok t') = tk_string_literal /\
    IsUnterminatedLiteral t' = true /\
    TokenText t' = SrcRef (LexPos s) len /\
    LexPos s' = LexPos s + len /\
    FormattingDisabled s' = FormattingDisabled s /\
    forall fuel WL, fold_whitespace E fuel p WL s' = Ok (s', WL).
Proof.
  intros Hp Hlex Hlen Hq. unfold readRawToken.
  rewrite (deref_Some _ _ _ Hp). simpl bind. rewrite Hlex. cbv zeta.
  destruct (sub_text_head _ _ _ _ Hq Hlen) as [r Hr].
  match goal with
  | |- context [is_kind ?x tk_unknown] => set (t1 := x)
  end.
  assert (Ht1 : text_of E t1 = ch_dquote :: r) by exact Hr.
  assert (Hk1 : is_kind t1 tk_unknown = true) by reflexivity.
  rewrite Hk1, Ht1, Ascii.eqb_refl.
  match goal with
  | |- context [set_Finalized _ ?x] => set (t2 := x)
  end.
  assert (Hk2 : is_kind t2 tk_comment = false) by reflexivity.
  rewrite Hk2. cbn [andb].
  change (is_kind (set_Finalized (FormattingDisabled (set_LexPos
            (LexPos s + len) s)) t2) tk_comment) with (is_kind t2 tk_comment).
  rewrite Hk2. cbn [andb].
  rewrite (update_Some _ p _ t) by exact Hp.
  eexists. eexists. split; [reflexivity|].
  split; [simpl; now apply (lookup_updated _ _ t)|].
  repeat split.
  intros fuel WL.
  match goal with
  | |- fold_whitespace E fuel p WL ?st = _ =>
      assert (Hd : exists t', deref st p = Ok t' /\ is_kind t' tk_unknown = false)
  end.
  { eexists. split.
    - apply deref_Some. simpl. now apply (lookup_updated _ _ t).
    - reflexivity. }
  destruct Hd as (t' & Hd & Hk).
  destruct fuel; cbn [fold_whitespace]; rewrite Hd; simpl bind; rewrite Hk;
    reflexivity.
Qed.

Lemma readRawToken_unterminated_literal_witness :
  exists s' t',
    readRawToken unterminated_env 0 fresh_token_state = Ok s' /\
    Arena s' !! 0%nat = Some t' /\
    Kind (Tok t') = tk_string_literal /\ IsUnterminatedLiteral t' = true.
Proof.
  destruct (readRawToken_unterminated_literal unterminated_env 0
              fresh_token_state new_FormatToken 4)
    as (s' & t' & Hrun & Ha & Hk & Hu & _);
    try reflexivity.
  exists s', t'. repeat split; assumption.
Defined.

(** ** Trailing blanks of comments *)

Lemma count_leading_split (p : ascii -> bool) (l : text) :
  exists a b, l = a ++ b /\ count_leading p l = Z.of_nat (length a) /\
    Forall (fun c => p c = true) a /\
    match b with [] => True | c :: _ => p c = false end.
Proof.
  induction l as [|c l IH].
  - exists [], []. repeat split. constructor.
  - simpl. destruct (p c) eqn:Hc.
    + destruct IH as (a & b & -> & Hn & Ha & Hb).
      exists (c :: a), b. repeat split; auto.
      rewrite Hn. simpl length. lia.
    + exists [], (c :: l). repeat split; auto.
Qed.

Lemma sub_text_length (b : text) (d n : Z) :
  (Z.to_nat d + Z.to_nat n <= length b)%nat ->
  length (sub_text b d n) = Z.to_nat n.
Proof.
  intros H. unfold sub_text. rewrite length_take, length_drop. lia.
Qed.

(** X8: on a comment, [adjust_kind] cuts the blanks, tabs, vertical tabs
    and form feeds off the end of the text: the old text is the new one
    followed by the characters cut off, the new text does not end in such
    a character, and [TrailingWhitespace] is the number of characters cut
    off. *)
Theorem adjust_kind_trims_comment (E : Env) (p : nat) (s : State)
    (t : FormatToken) (d n : Z) :
  Arena s !! p = Some t -> is_kind t tk_comment = true ->
  TokenText t = SrcRef d n -> 0 <= n < 2 ^ 32 ->
  (Z.to_nat d + Z.to_nat n <= length (Buffer E))%nat ->
  exists s' t' blanks,
    adjust_kind E p s = Ok s' /\ Arena s' !! p = Some t' /\
    text_of E t = text_of E t' ++ blanks /\
    Forall (fun c => is_trimmed_char c = true) blanks /\
    (forall c, list.last (text_of E t') = Some c ->
               is_trimmed_char c = false) /\
    TrailingWhitespace s' = Z.of_nat (length blanks) /\
    Tok t' = Tok t /\ Tokens s' = Tokens s.
Proof.
  intros Hp Hk Hx Hn Hb. unfold adjust_kind.
  rewrite (deref_Some _ _ _ Hp). simpl bind. rewrite Hk.
  rewrite (update_Some _ p _ t) by exact Hp. simpl bind.
  pose proof (sub_text_length (Buffer E) d n Hb) as Hlen.
  destruct (count_leading_split is_trimmed_char (rev (sub_text (Buffer E) d n)))
    as (a & b & Hab & Hcnt & Ha & Hhd).
  assert (Hsplit : sub_text (Buffer E) d n = rev b ++ rev a).
  { rewrite <- (rev_involutive (sub_text (Buffer E) d n)), Hab.
    apply rev_app_distr. }
  assert (Hla : (length a + length b = Z.to_nat n)%nat).
  { rewrite <- Hlen, Hsplit, length_app, !length_rev. lia. }
  assert (Htrim : ref_rtrim (Buffer E) (TokenText t)
                  = SrcRef d (n - Z.of_nat (length a))).
  { rewrite Hx. unfold ref_rtrim. cbn [str]. now rewrite Hcnt. }
  assert (Hnew : sub_text (Buffer E) d (n - Z.of_nat (length a)) = rev b).
  { unfold sub_text in *.
    replace (Z.to_nat (n - Z.of_nat (length a))) with (length (rev b))
      by (rewrite length_rev; lia).
    transitivity (take (length (rev b)) (rev b ++ rev a));
      [|apply take_app_length].
    rewrite <- Hsplit, take_take. f_equal. rewrite length_rev. lia. }
  exists (set_TrailingWhitespace
            (u32 (ref_size (TokenText t)
                  - ref_size (ref_rtrim (Buffer E) (TokenText t))))
            (set_Arena (<[p := set_TokenText
                                 (ref_rtrim (Buffer E) (TokenText t)) t]>
                          (Arena s)) (set_TrailingWhitespace 0 s))),
    (set_TokenText (ref_rtrim (Buffer E) (TokenText t)) t), (rev a).
  split; [reflexivity|].
  split; [simpl; now apply (lookup_updated _ _ t)|].
  unfold text_of. cbn [TokenText set_TokenText].
  rewrite Htrim, Hx. cbn [str ref_size]. rewrite Hnew.
  split; [exact Hsplit|].
  split; [apply Forall_forall; intros c Hc; apply in_rev in Hc;
          rewrite Forall_forall in Ha; now apply Ha|].
  split.
  { intros c Hc. destruct b as [|c0 b]; [discriminate|].
    simpl in Hc. rewrite last_snoc in Hc. injection Hc as <-. exact Hhd. }
  split; [|split; reflexivity].
  simpl. rewrite length_rev.
  replace (n - (n - Z.of_nat (length a))) with (Z.of_nat (length a)) by lia.
  apply u32_small. lia.
Qed.

Lemma adjust_kind_trims_comment_witness :
  exists s' t',
    adjust_kind comment_env 0 comment_state = Ok s' /\
    Arena s' !! 0%nat = Some t' /\
    text_of comment_env t' = lit "// c" /\ TrailingWhitespace s' = 2.
Proof.
  destruct (adjust_kind_trims_comment comment_env 0 comment_state
              (plain_token tk_comment 0 6 0) 0 6)
    as (s' & t' & blanks & Hrun & Ha & _);
    try reflexivity; try (simpl; lia).
  vm_compute in Hrun. injection Hrun as <-.
  vm_compute in Ha. injection Ha as <-.
  eexists. eexists. split; [reflexivity|]. split; [reflexivity|].
  split; reflexivity.
Defined.

(** ** Tokens that span several lines *)

Lemma find_from_first (p : ascii -> bool) (a : text) (c : ascii) (r : text) :
  Forall (fun x => p x = false) a -> p c = true ->
  forall i, find_from p (a ++ c :: r) i = Some (i + Z.of_nat (length a)).
Proof.
  intros Ha Hc. induction Ha as [|x a Hx Ha IH]; intros i.
  - simpl. rewrite Hc. f_equal. lia.
  - cbn [app find_from]. rewrite Hx, IH. f_equal. simpl length. lia.
Qed.

Lemma last_index_none (p : ascii -> bool) (a : text) :
  Forall (fun x => p x = false) a ->
  forall i acc, last_index p a i acc = acc.
Proof.
  intros Ha. induction Ha as [|x a Hx Ha IH]; intros i acc; [reflexivity|].
  cbn [last_index]. now rewrite Hx, IH.
Qed.

Lemma last_index_last (p : ascii -> bool) (a : text) (c : ascii) (r : text) :
  p c = true -> Forall (fun x => p x = false) r ->
  forall i acc, last_index p (a ++ c :: r) i acc = Some (i + length a)%nat.
Proof.
  intros Hc Hr. induction a as [|x a IH]; intros i acc.
  - cbn [app last_index]. rewrite Hc, (last_index_none p r Hr).
    f_equal. simpl. lia.
  - cbn [app last_index]. rewrite IH. f_equal. simpl. lia.
Qed.

(** X9: for a token whose text holds a newline, [measure_token] flags the
    token as multi-line, measures its first line (up to the first newline)
    from the current column and its last line (after the last newline)
    from column 0, and leaves the running column at the width of the last
    line. *)
Theorem measure_token_multiline (E : Env) (p : nat) (s : State)
    (t : FormatToken) (first rest pre last : text) :
  Arena s !! p = Some t ->
  text_of E t = first ++ ch_nl :: rest ->
  Forall (fun c => is_char ch_nl c = false) first ->
  text_of E t = pre ++ ch_nl :: last ->
  Forall (fun c => is_char ch_nl c = false) last ->
  exists s' t',
    measure_token E p s = Ok s' /\ Arena s' !! p = Some t' /\
    IsMultiline t' = true /\
    FirstLineColumnWidth t'
      = columnWidthWithTabs E first (Column s) (TabWidth E) /\
    LastLineColumnWidth t' = columnWidthWithTabs E last 0 (TabWidth E) /\
    Column s' = columnWidthWithTabs E last 0 (TabWidth E) /\
    Tok t' = Tok t /\ TokenText t' = TokenText t.
Proof.
  intros Hp Hf Hfirst Hl Hlast. unfold measure_token.
  rewrite (deref_Some _ _ _ Hp). simpl bind. cbv zeta.
  assert (Hfind : text_find (is_char ch_nl) (text_of E t) 0
                  = Some (Z.of_nat (length first))).
  { unfold text_find. change (Z.to_nat 0) with O. rewrite drop_0, Hf.
    rewrite (find_from_first _ _ _ _ Hfirst) by apply Ascii.eqb_refl.
    f_equal. lia. }
  rewrite Hfind.
  assert (Hlastnl : last_index (is_char ch_nl) (text_of E t) 0 None
                    = Some (length pre)).
  { rewrite Hl.
    rewrite (last_index_last _ pre ch_nl last (Ascii.eqb_refl _) Hlast).
    reflexivity. }
  rewrite Hlastnl.
  assert (Htake : take (Z.to_nat (Z.of_nat (length first))) (text_of E t)
                  = first).
  { rewrite Nat2Z.id, Hf. apply take_app_length. }
  assert (Hdrop : drop (S (length pre)) (text_of E t) = last).
  { rewrite Hl. change (pre ++ ch_nl :: last) with (pre ++ [ch_nl] ++ last).
    rewrite app_assoc.
    replace (S (length pre)) with (length (pre ++ [ch_nl]))
      by (rewrite length_app; simpl; lia).
    apply drop_app_length. }
  rewrite Htake, Hdrop.
  rewrite (update_Some _ p _ t) by exact Hp. simpl bind.
  eexists. eexists. split; [reflexivity|].
  split; [simpl; now apply (lookup_updated _ _ t)|].
  repeat split.
Qed.

Lemma measure_token_multiline_witness :
  exists s' t',
    measure_token multiline_env 0 multiline_state = Ok s' /\
    Arena s' !! 0%nat = Some t' /\ IsMultiline t' = true /\
    FirstLineColumnWidth t' = 4 /\ LastLineColumnWidth t' = 5 /\
    Column s' = 5.
Proof.
  destruct (measure_token_multiline multiline_env 0 multiline_state
              (plain_token tk_comment 0 10 0)
              (lit "/* a") (lit " b */") (lit "/* a") (lit " b */"))
    as (s' & t' & Hrun & Ha & Hm & Hf & Hl & Hc & _);
    try reflexivity; try (repeat constructor).
  exists s', t'. repeat split; assumption.
Defined.

(** ** The conflict-marker rule on the first token of a line *)

(** X10: when the last token of the vector is itself the token at
    [FirstInLineIndex] (the first token of a file that starts with a blank
    line), sits on a new line and that line starts with a conflict marker,
    the rule marks the token and appends it a second time: the vector
    grows by one and its last two entries are the same token. *)
Theorem tryMergeConflictMarkers_repeats_line_start (E : Env) (s : State)
    (pre : list nat) (p : nat) (t : FormatToken) :
  Tokens s = pre ++ [p] -> FirstInLineIndex s = length pre ->
  Arena s !! p = Some t ->
  UserNewlinesBefore t <> 0 \/ Kind (Tok t) = tk_eof ->
  conflict_type (LineStart E (getStartOfNonWhitespace t)) <> TT_Unknown ->
  exists s',
    tryMergeConflictMarkers E s = Ok (s', true) /\
    Tokens s' = pre ++ [p; p] /\
    Arena s' = <[p := conflict_merged
                         (conflict_type
                            (LineStart E (getStartOfNonWhitespace t))) t]>
                 (Arena s).
Proof.
  intros Ht Hf Hp Hg Hty. unfold tryMergeConflictMarkers.
  rewrite (Tokens_back_snoc _ _ _ Ht). simpl bind.
  rewrite (deref_Some _ _ _ Hp). simpl bind.
  assert (Hgate : (UserNewlinesBefore t =? 0) && negb (is_kind t tk_eof)
                  = false).
  { destruct Hg as [Hn|Hk].
    - apply Z.eqb_neq in Hn. now rewrite Hn.
    - unfold is_kind. rewrite Hk. simpl. apply andb_false_r. }
  rewrite Hgate. unfold Tokens_at.
  assert (Hat : Tokens s !! FirstInLineIndex s = Some p).
  { rewrite Ht, Hf. apply list_lookup_middle. reflexivity. }
  rewrite Hat. simpl bind. rewrite (deref_Some _ _ _ Hp). simpl bind.
  rewrite (type_eqb_neq _ _ Hty).
  assert (Htake : take (FirstInLineIndex s + 1) (Tokens s) = pre ++ [p]).
  { rewrite Ht, Hf. apply take_ge. rewrite length_app. simpl. lia. }
  rewrite Htake.
  rewrite (Tokens_back_snoc (set_Tokens (pre ++ [p]) s) pre p eq_refl).
  simpl bind.
  rewrite (update_Some _ p _ t) by exact Hp. simpl bind.
  eexists. split; [reflexivity|]. simpl. rewrite <- app_assoc.
  split; reflexivity.
Qed.

Lemma tryMergeConflictMarkers_repeats_line_start_witness :
  exists s',
    tryMergeConflictMarkers leading_newline_conflict_env
      leading_newline_conflict_state = Ok (s', true) /\
    Tokens s' = [0; 0]%nat.
Proof.
  destruct (tryMergeConflictMarkers_repeats_line_start
              leading_newline_conflict_env leading_newline_conflict_state
              [] 0 leading_newline_conflict_token)
    as (s' & Hrun & Ht & _);
    try reflexivity.
  - left. discriminate.
  - vm_compute. discriminate.
  - exists s'. split; assumption.
Defined.

(** The whole run on that buffer: the marker token comes out twice. *)
Example leading_newline_conflict_marker_twice :
  outcome_map (fun s => (Tokens s, kinds_and_texts
                                     leading_newline_conflict_env s))
    (lex leading_newline_conflict_env 8 initial_state)
  = Ok ([0; 0; 3]%nat,
        [Some (tk_kw___unknown_anytype, "=="%string);
         Some (tk_kw___unknown_anytype, "=="%string);
         Some (tk_eof, EmptyString)]).
Proof. vm_compute. reflexivity. Qed.

(** ** Instances of the driver results *)

Lemma lex_exactly_one_eof_witness :
  lex shift_env 6 initial_state = Ok shift_final /\
  exactly_one_eof shift_final.
Proof.
  assert (Hrun : lex shift_env 6 initial_state = Ok shift_final)
    by (vm_compute; reflexivity).
  split; [exact Hrun|]. exact (lex_exactly_one_eof shift_env 6 _ Hrun).
Defined.

Lemma readRawToken_finalized_witness :
  exists t', Arena format_off_read !! 0%nat = Some t' /\
    Finalized t' = false /\ FormattingDisabled format_off_read = true.
Proof.
  assert (Hrun : readRawToken format_off_on_env 0 fresh_token_state
                 = Ok format_off_read) by (vm_compute; reflexivity).
  destruct (readRawToken_finalized format_off_on_env 0 fresh_token_state
              format_off_read new_FormatToken eq_refl Hrun)
    as (t' & Ha & Hf & Hd).
  exists t'. split; [exact Ha|]. split; [exact Hf|]. reflexivity.
Defined.

Lemma tryMergeConflictMarkers_index_out_of_range_witness :
  tryMergeConflictMarkers leading_newline_conflict_env stale_index_state
  = Undefined.
Proof.
  apply (tryMergeConflictMarkers_index_out_of_range
           leading_newline_conflict_env stale_index_state [] 0
           leading_newline_conflict_token);
    [reflexivity | reflexivity | left; discriminate | simpl; lia].
Defined.

(** ** What [getNextToken] leaves alone *)

(** X14: under the loop invariant a call of [getNextToken] allocates
    exactly one token, at the end of the arena, and returns a pointer to
    it; every token that existed before is still there unchanged, the
    token vector and [FirstInLineIndex] are untouched, and the state stack
    is again [NORMAL] or a pending second half on top of [NORMAL]. *)
Theorem getNextToken_frame (E : Env) (fuel : nat) (s s' : State) (p : nat) :
  driver_invariant s -> getNextToken E fuel s = Ok (s', p) ->
  p = length (Arena s) /\
  length (Arena s') = S (length (Arena s)) /\
  is_Some (Arena s' !! p) /\
  (forall q t, Arena s !! q = Some t -> Arena s' !! q = Some t) /\
  Tokens s' = Tokens s /\ FirstInLineIndex s' = FirstInLineIndex s /\
  stack_inv s'.
Proof.
  intros Hinv H.
  destruct (getNextToken_appends E fuel s s' p Hinv H)
    as (-> & t' & Ha & Ht & Hf & Hs).
  split; [reflexivity|].
  split; [rewrite Ha, length_app; simpl; lia|].
  split; [rewrite Ha, lookup_snoc_fresh; eauto|].
  split; [|auto].
  intros q t Hq. rewrite Ha. apply lookup_app_l_Some. exact Hq.
Qed.

Lemma getNextToken_frame_witness :
  getNextToken shift_env 4 shift_state = Ok shift_next /\
  snd shift_next = 1%nat /\
  length (Arena (fst shift_next)) = 2%nat /\
  Tokens (fst shift_next) = Tokens shift_state.
Proof.
  assert (Hrun : getNextToken shift_env 4 shift_state
                 = Ok (fst shift_next, snd shift_next))
    by (vm_compute; reflexivity).
  assert (Hinv : driver_invariant shift_state).
  { split; [|left; reflexivity].
    repeat constructor. eexists. split; [reflexivity|discriminate]. }
  destruct (getNextToken_frame shift_env 4 shift_state _ _ Hinv Hrun)
    as (Hp & Hl & _ & _ & Ht & _).
  split; [exact Hrun|]. split; [exact Hp|]. split; [exact Hl|exact Ht].
Defined.

(** ** The whitespace range of a token *)

Lemma readRawToken_position (E : Env) (p : nat) (s s' : State)
    (t : FormatToken) :
  Arena s !! p = Some t -> readRawToken E p s = Ok s' ->
  exists t', Arena s' !! p = Some t' /\
    Loc (Tok t') = LexPos s /\
    Length (Tok t') = snd (LexFromRawLexer E (LexPos s)) /\
    TokenText t' = SrcRef (Loc (Tok t')) (Length (Tok t')) /\
    LexPos s' = LexPos s + snd (LexFromRawLexer E (LexPos s)) /\
    TrailingWhitespace s' = TrailingWhitespace s.
Proof.
  intros Ht H. unfold readRawToken in H.
  rewrite (deref_Some _ _ _ Ht) in H. simpl bind in H.
  destruct (LexFromRawLexer E (LexPos s)) as [k len]. cbv zeta in H.
  apply update_inv in H as (x & Hx & ->).
  eexists. split.
  { simpl. apply (lookup_updated _ _ x).
    repeat match goal with
    | |- context [if ?b then _ else _] => destruct b
    end; exact Hx. }
  repeat split;
    repeat match goal with
    | |- context [if ?b then _ else _] => destruct b
    | |- context [match ?l with [] => _ | _ :: _ => _ end] => destruct l
    end; reflexivity.
Qed.

Lemma fold_whitespace_position (E : Env) (p : nat) (WS : Z) (fuel : nat) :
  raw_lexer_in_bounds E -> 0 <= WS ->
  forall (WL : Z) (s s' : State) (WL' : Z) (t : FormatToken),
  Arena s !! p = Some t ->
  TokenText t = SrcRef (Loc (Tok t)) (Length (Tok t)) ->
  Loc (Tok t) = WS + WL -> 0 <= WL -> 0 <= Length (Tok t) ->
  LexPos s = Loc (Tok t) + Length (Tok t) ->
  LexPos s <= Z.of_nat (length (Buffer E)) ->
  fold_whitespace E fuel p WL s = Ok (s', WL') ->
  exists t', Arena s' !! p = Some t' /\
    TokenText t' = SrcRef (Loc (Tok t')) (Length (Tok t')) /\
    Loc (Tok t') = WS + WL' /\ 0 <= WL' /\ 0 <= Length (Tok t') /\
    LexPos s' = Loc (Tok t') + Length (Tok t') /\
    LexPos s' <= Z.of_nat (length (Buffer E)) /\
    TrailingWhitespace s' = TrailingWhitespace s.
Proof.
  intros [Hsize Hraw] HWS.
  induction fuel as [|fuel IH];
    intros WL s s' WL' t Hp Hx Hloc HWL Hlen Hpos Hbound H.
  - simpl in H. rewrite (deref_Some _ _ _ Hp) in H. simpl bind in H.
    destruct (negb (is_kind t tk_unknown)); [|discriminate].
    injection H as <- <-. exists t. repeat split; auto.
  - cbn [fold_whitespace] in H.
    rewrite (deref_Some _ _ _ Hp) in H. simpl bind in H.
    destruct (negb (is_kind t tk_unknown)).
    { injection H as <- <-. exists t. repeat split; auto. }
    cbv zeta in H.
    pose proof (fold_chars_keeps E (text_of E t) WL (text_of E t) 0 t
                  (Column s)) as Hkeep.
    destruct (fold_chars E (text_of E t) WL 0 (text_of E t) (t, Column s))
      as [t1 col1].
    simpl in Hkeep. destruct Hkeep as (HT & HX & _ & _).
    inv_bind H as s1 Hs1. apply update_inv in Hs1 as (x & Hx1 & ->).
    assert (Hp1 : Arena (set_Arena (<[p := t1]> (Arena (set_Column col1 s)))
                           (set_Column col1 s)) !! p = Some t1)
      by (simpl; now apply (lookup_updated _ _ t)).
    destruct (type_eqb (Type_ t1) TT_ImplicitStringLiteral).
    + injection H as <- <-. exists t1. rewrite HT, HX.
      split; [exact Hp1|]. repeat split; auto.
    + inv_bind H as s2 Hs2.
      destruct (readRawToken_position E p _ s2 t1 Hp1 Hs2)
        as (t2 & Hp2 & Hl2 & Hn2 & Hx2 & Hpos2 & Htw2).
      simpl in Hl2, Hn2, Hpos2, Htw2.
      assert (Hin : 0 <= LexPos s <= Z.of_nat (length (Buffer E))) by lia.
      destruct (Hraw _ Hin) as [Hr1 Hr2].
      rewrite HT in H.
      assert (Hu : u32 (WL + Length (Tok t)) = WL + Length (Tok t))
        by (apply u32_small; lia).
      rewrite Hu in H.
      destruct (IH (WL + Length (Tok t)) s2 s' WL' t2 Hp2 Hx2)
        as (t' & Ht'); try exact H; try lia.
      exists t'. destruct Ht' as (? & ? & ? & ? & ? & ? & ? & Htw).
      repeat split; auto. now rewrite Htw, Htw2.
Qed.

Lemma strip_escaped_newlines_position (b : text) (bound WS : Z)
    (fuel : nat) :
  0 <= WS -> bound < 2 ^ 32 ->
  forall (t : FormatToken) (WL col d n : Z),
  TokenText t = SrcRef d n -> d = WS + WL -> 0 <= WL -> 0 <= n ->
  d + n <= bound ->
  exists t' WL' col' d' n',
    strip_escaped_newlines fuel b (t, WL, col) = (t', WL', col') /\
    TokenText t' = SrcRef d' n' /\ d' = WS + WL' /\ 0 <= WL' /\ 0 <= n' /\
    d' + n' = d + n.
Proof.
  intros HWS Hbound. induction fuel as [|fuel IH];
    intros t WL col d n Hx Hd HWL Hn Hdn.
  - exists t, WL, col, d, n. repeat split; auto.
  - cbn [strip_escaped_newlines]. rewrite Hx. cbn [ref_size].
    destruct (Z.ltb_spec 1 n) as [Hn1|Hn1]; cbn [andb];
      [|exists t, WL, col, d, n; repeat split; auto].
    destruct (starts_with_escaped_newline (str b (SrcRef d n)));
      [|exists t, WL, col, d, n; repeat split; auto].
    assert (Hu : u32 (WL + 2) = WL + 2) by (apply u32_small; lia).
    rewrite Hu.
    match goal with
    | |- context [strip_escaped_newlines fuel b (?tok, _, _)] =>
        destruct (IH tok (WL + 2) 0 (d + 2) (n - 2))
          as (t' & WL' & col' & d' & n' & Hrun & Hx' & Hd' & HWL' & Hn'
              & Hdn'); try lia
    end.
    { cbn [TokenText set_TokenText ref_substr ref_size].
      rewrite Z.min_l by lia. reflexivity. }
    exists t', WL', col', d', n'. repeat split; auto. lia.
Qed.

Lemma fetch_token_position (E : Env) (fuel : nat) (s s' : State) (p : nat) :
  raw_lexer_in_bounds E -> lexer_in_bounds E s ->
  fetch_token E fuel s = Ok (s', p) ->
  exists t' d n, Arena s' !! p = Some t' /\ TokenText t' = SrcRef d n /\
    PrecedingWhitespaceRange t'
      = (LexPos s - TrailingWhitespace s, d) /\
    0 <= n /\ LexPos s - TrailingWhitespace s <= d /\
    d + n = LexPos s' /\ LexPos s' <= Z.of_nat (length (Buffer E)).
Proof.
  intros HE [Htw Hpos] H. unfold fetch_token, allocate in H.
  set (p0 := length (Arena s)) in *.
  set (s0 := set_FormatTok (Some p0)
               (set_Arena (Arena s ++ [new_FormatToken]) s)) in *.
  assert (H0 : Arena s0 !! p0 = Some new_FormatToken)
    by (subst s0 p0; simpl; apply lookup_snoc_fresh).
  inv_bind H as s1 Hs1.
  destruct (readRawToken_position E p0 s0 s1 _ H0 Hs1)
    as (t1 & Hp1 & Hl1 & Hn1 & Hx1 & Hpos1 & Htw1).
  change (LexPos s0) with (LexPos s) in *.
  change (TrailingWhitespace s0) with (TrailingWhitespace s) in *.
  inv_bind H as t1' Ht1'. apply deref_inv in Ht1'.
  assert (t1' = t1) by congruence. subst t1'.
  inv_bind H as s2 Hs2. apply update_inv in Hs2 as (x & Hx & ->).
  inv_bind H as r3 Hs3. destruct r3 as [s3 WL3].
  simpl fst in H. simpl snd in H.
  set (t2 := set_IsFirst (IsFirstToken s1) t1) in *.
  assert (Hx2 : x = t1) by congruence. subst x.
  destruct HE as [Hsize Hraw].
  destruct (Hraw (LexPos s)) as [Hr1 Hr2]; [lia|].
  match type of Hs3 with
  | fold_whitespace E fuel p0 ?wl ?st = _ =>
      destruct (fold_whitespace_position E p0
                  (LexPos s - TrailingWhitespace s) fuel
                  (conj Hsize Hraw) ltac:(lia) wl st s3 WL3 t2)
        as (t3 & Hp3 & Hx3 & Hl3 & HWL3 & Hn3 & Hpos3 & Hb3 & _);
        try exact Hs3
  end.
  { simpl. now apply (lookup_updated _ _ t1). }
  { exact Hx1. }
  { simpl. rewrite Hl1, Htw1. lia. }
  { simpl. lia. }
  { simpl. lia. }
  { simpl. rewrite Hpos1, Hl1, Hn1. reflexivity. }
  { simpl. lia. }
  inv_bind H as t3' Ht3'. apply deref_inv in Ht3'.
  assert (t3' = t3) by congruence. subst t3'.
  destruct (strip_escaped_newlines_position (Buffer E)
              (Z.of_nat (length (Buffer E)))
              (LexPos s - TrailingWhitespace s)
              (Z.to_nat (ref_size (TokenText t3))) ltac:(lia) Hsize
              t3 WL3 (Column s3) _ _ Hx3 Hl3 HWL3 Hn3 ltac:(lia))
    as (t4 & WL4 & col4 & d4 & n4 & Hrun & Hx4 & Hd4 & HWL4 & Hn4 & Hdn4).
  rewrite Hrun in H.
  inv_bind H as s4 Hs4. injection H as <- <-.
  apply update_inv in Hs4 as (y & Hy & ->).
  eexists. exists d4, n4. split.
  { simpl. now apply (lookup_updated _ _ y). }
  simpl. split; [exact Hx4|].
  split; [rewrite Hd4, Hl1, Htw1; reflexivity|].
  repeat split; lia.
Qed.

Lemma count_leading_bound (p : ascii -> bool) (l : text) :
  0 <= count_leading p l <= Z.of_nat (length l).
Proof.
  induction l as [|c l IH]; simpl; [lia|]. destruct (p c); lia.
Qed.

Lemma u32_le (x : Z) : 0 <= x -> u32 x <= x.
Proof. intros H. unfold u32. apply Z.mod_le; lia. Qed.

Lemma adjust_kind_position (E : Env) (p : nat) (s s' : State)
    (t : FormatToken) (d n : Z) :
  Arena s !! p = Some t -> TokenText t = SrcRef d n ->
  0 <= d -> 0 <= n -> d + n = LexPos s ->
  adjust_kind E p s = Ok s' ->
  exists t' n', Arena s' !! p = Some t' /\ TokenText t' = SrcRef d n' /\
    PrecedingWhitespaceRange t' = PrecedingWhitespaceRange t /\
    LexPos s' = LexPos s /\ 0 <= TrailingWhitespace s' <= LexPos s'.
Proof.
  intros Hp Hx Hd Hn Hpos H. unfold adjust_kind in H.
  rewrite (deref_Some _ _ _ Hp) in H. simpl bind in H.
  destruct (is_kind t tk_comment).
  { inv_bind H as s1 Hs1. injection H as <-.
    apply update_inv in Hs1 as (x & Hx1 & ->).
    assert (x = t) by (simpl in Hx1; congruence). subst x.
    rewrite Hx. cbn [ref_rtrim str ref_size].
    pose proof (count_leading_bound is_trimmed_char
                  (rev (sub_text (Buffer E) d n))) as Hc.
    assert (Hl : (length (rev (sub_text (Buffer E) d n)) <= Z.to_nat n)%nat).
    { rewrite length_rev. unfold sub_text. rewrite length_take. lia. }
    eexists. eexists. split; [simpl; now apply (lookup_updated _ _ t)|].
    split; [reflexivity|]. split; [reflexivity|]. split; [reflexivity|].
    simpl.
    replace (n - (n - count_leading is_trimmed_char
                        (rev (sub_text (Buffer E) d n))))
      with (count_leading is_trimmed_char (rev (sub_text (Buffer E) d n)))
      by lia.
    pose proof (u32_range (count_leading is_trimmed_char
                             (rev (sub_text (Buffer E) d n)))) as Hr.
    pose proof (u32_le (count_leading is_trimmed_char
                          (rev (sub_text (Buffer E) d n)))) as Hle.
    lia. }
  destruct (is_kind t tk_raw_identifier).
  { apply update_inv in H as (x & Hx1 & ->).
    assert (x = t) by (simpl in Hx1; congruence). subst x.
    eexists. exists n. split; [simpl; now apply (lookup_updated _ _ t)|].
    simpl. repeat split; auto; lia. }
  assert (Hhalf : forall k s0,
            (let* s1 := update p (fun t => set_TokenText
                           (ref_substr (TokenText t) 0 (Some 1))
                           (set_Tok (setKind k (Tok t)) t))
                          (set_TrailingWhitespace 0 s) in
             Ok (set_StateStack (TOKEN_STASHED :: StateStack s1)
                   (set_Column (u32 (Column s1 + 1)) s1))) = Ok s0 ->
            exists t' n', Arena s0 !! p = Some t' /\
              TokenText t' = SrcRef d n' /\
              PrecedingWhitespaceRange t' = PrecedingWhitespaceRange t /\
              LexPos s0 = LexPos s /\
              0 <= TrailingWhitespace s0 <= LexPos s0).
  { intros k s0 H0. inv_bind H0 as s1 Hs1. injection H0 as <-.
    apply update_inv in Hs1 as (x & Hx1 & ->).
    assert (x = t) by (simpl in Hx1; congruence). subst x.
    eexists. eexists. split; [simpl; now apply (lookup_updated _ _ t)|].
    simpl. rewrite Hx. cbn [ref_substr ref_size].
    rewrite Z.min_l by lia. rewrite Z.add_0_r.
    split; [reflexivity|]. repeat split; lia. }
  destruct (is_kind t tk_greatergreater); [now apply (Hhalf tk_greater)|].
  destruct (is_kind t tk_lessless); [now apply (Hhalf tk_less)|].
  injection H as <-. exists t, n. simpl. repeat split; auto; lia.
Qed.

Lemma measure_token_position (E : Env) (p : nat) (s s' : State)
    (t : FormatToken) :
  Arena s !! p = Some t -> measure_token E p s = Ok s' ->
  exists t', Arena s' !! p = Some t' /\ TokenText t' = TokenText t /\
    PrecedingWhitespaceRange t' = PrecedingWhitespaceRange t /\
    LexPos s' = LexPos s /\ TrailingWhitespace s' = TrailingWhitespace s /\
    Tok t' = Tok t /\ StateStack s' = StateStack s.
Proof.
  intros Hp H. unfold measure_token in H.
  rewrite (deref_Some _ _ _ Hp) in H. simpl bind in H.
  destruct (text_find (is_char ch_nl) (text_of E t) 0);
    inv_bind H as s1 Hs1; injection H as <-;
    apply update_inv in Hs1 as (x & Hx1 & ->);
    (assert (x = t) by congruence); subst x;
    (eexists; split; [simpl; now apply (lookup_updated _ _ t)|]);
    repeat split.
Qed.

Lemma classify_position (E : Env) (p : nat) (s s' : State)
    (t : FormatToken) :
  Arena s !! p = Some t -> classify E p s = Ok s' ->
  exists t', Arena s' !! p = Some t' /\ TokenText t' = TokenText t /\
    PrecedingWhitespaceRange t' = PrecedingWhitespaceRange t /\
    LexPos s' = LexPos s /\ TrailingWhitespace s' = TrailingWhitespace s /\
    Tok t' = Tok t /\ StateStack s' = StateStack s.
Proof.
  intros Hp H. unfold classify in H.
  rewrite (deref_Some _ _ _ Hp) in H. simpl bind in H.
  inv_bind H as def Hdef.
  assert (Hset : forall ty, update p (set_Type ty) s = Ok s' ->
            exists t', Arena s' !! p = Some t' /\
              TokenText t' = TokenText t /\
              PrecedingWhitespaceRange t' = PrecedingWhitespaceRange t /\
              LexPos s' = LexPos s /\
              TrailingWhitespace s' = TrailingWhitespace s /\
              Tok t' = Tok t /\ StateStack s' = StateStack s).
  { intros ty Hu. apply update_inv in Hu as (x & Hx1 & ->).
    assert (x = t) by congruence. subst x.
    eexists. split; [simpl; now apply (lookup_updated _ _ t)|].
    repeat split. }
  assert (Hid : Ok s = Ok s' ->
            exists t', Arena s' !! p = Some t' /\
              TokenText t' = TokenText t /\
              PrecedingWhitespaceRange t' = PrecedingWhitespaceRange t /\
              LexPos s' = LexPos s /\
              TrailingWhitespace s' = TrailingWhitespace s /\
              Tok t' = Tok t /\ StateStack s' = StateStack s).
  { intros Heq. injection Heq as <-. exists t. repeat split; auto. }
  destruct (negb def && is_ForEachMacro E t); [eapply Hset; exact H|].
  destruct (is_kind t tk_identifier); [|now apply Hid].
  destruct (MacroBlockBeginRegex E (text_of E t)); [eapply Hset; exact H|].
  destruct (MacroBlockEndRegex E (text_of E t)); [eapply Hset; exact H|].
  now apply Hid.
Qed.

(** X15: for a token read from the raw lexer, the whitespace range that
    [getNextToken] records starts where the previous token ended (the
    lexer position minus the trailing whitespace cut off that token) and
    ends exactly where the text of the new token starts, whatever
    whitespace tokens and escaped newlines were folded in between; the
    lexer is left inside the buffer again. *)
Theorem getNextToken_whitespace_range (E : Env) (fuel : nat) (s s' : State)
    (p : nat) (rest : list LexerState) :
  raw_lexer_in_bounds E -> lexer_in_bounds E s ->
  StateStack s = NORMAL :: rest ->
  getNextToken E fuel s = Ok (s', p) ->
  (exists t' d n, Arena s' !! p = Some t' /\ TokenText t' = SrcRef d n /\
     PrecedingWhitespaceRange t'
       = (LexPos s - TrailingWhitespace s, d)) /\
  lexer_in_bounds E s'.
Proof.
  intros HE Hs Hst H. unfold getNextToken in H. rewrite Hst in H.
  inv_bind H as r Hf. destruct r as [s1 q]. simpl fst in H. simpl snd in H.
  destruct (fetch_token_position E fuel s s1 q HE Hs Hf)
    as (t1 & d & n & Hp1 & Hx1 & Hr1 & Hn & Hd & Hdn & Hb).
  destruct Hs as [Htw Hpos].
  inv_bind H as s2 Hs2.
  destruct (adjust_kind_position E q s1 s2 t1 d n Hp1 Hx1 ltac:(lia) Hn Hdn
              Hs2)
    as (t2 & n2 & Hp2 & Hx2 & Hr2 & Hl2 & Htw2).
  inv_bind H as s3 Hs3.
  destruct (measure_token_position E q s2 s3 t2 Hp2 Hs3)
    as (t3 & Hp3 & Hx3 & Hr3 & Hl3 & Htw3 & _).
  inv_bind H as s4 Hs4. injection H as <- <-.
  destruct (classify_position E q s3 s4 t3 Hp3 Hs4)
    as (t4 & Hp4 & Hx4 & Hr4 & Hl4 & Htw4 & _).
  split.
  - exists t4, d, n2. split; [exact Hp4|].
    split; [congruence|]. congruence.
  - unfold lexer_in_bounds. rewrite Hl4, Hl3, Htw4, Htw3. lia.
Qed.

Lemma getNextToken_whitespace_range_witness :
  exists t', Arena (fst shift_next) !! 1%nat = Some t' /\
    PrecedingWhitespaceRange t' = (1, 2).
Proof.
  assert (Hrun : getNextToken shift_env 4 shift_state
                 = Ok (fst shift_next, 1%nat))
    by (vm_compute; reflexivity).
  assert (HE : raw_lexer_in_bounds shift_env).
  { split; [simpl; lia|]. intros pos Hpos. simpl in Hpos.
    unfold shift_env, simple_env. cbn [LexFromRawLexer raw_token_at].
    repeat match goal with
    | |- context [pos =? ?k] =>
        destruct (Z.eqb_spec pos k); [subst; simpl; lia|]
    end.
    simpl. lia. }
  assert (Hs : lexer_in_bounds shift_env shift_state)
    by (unfold lexer_in_bounds; simpl; lia).
  destruct (getNextToken_whitespace_range shift_env 4 shift_state _ _ []
              HE Hs eq_refl Hrun)
    as [(t' & d & n & Ha & Hx & Hr) _].
  vm_compute in Ha. injection Ha as <-.
  eexists. split; [reflexivity|]. reflexivity.
Defined.

Lemma readRawToken_after_reset_witness :
  exists s' t',
    readRawToken format_off_on_env 0 (resetLexer 20 fresh_token_state)
      = Ok s' /\
    Arena s' !! 0%nat = Some t' /\ Loc (Tok t') = 20 /\ LexPos s' = 21.
Proof.
  destruct (readRawToken_after_reset format_off_on_env 20 fresh_token_state
              0 new_FormatToken eq_refl)
    as (s' & t' & Hrun & Ha & Hl & _ & Hp).
  exists s', t'. repeat split; assumption.
Defined.

(** ** Counting newlines in whitespace *)

Lemma fold_char_newlines (E : Env) (Text : text) (WL i : Z) (c : ascii)
    (t : FormatToken) (col : Z) :
  UserNewlinesBefore (fst (fold_char E Text WL i c (t, col)))
  = if Ascii.eqb c ch_nl then u32 (UserNewlinesBefore t + 1)
    else UserNewlinesBefore t.
Proof.
  unfold fold_char.
  destruct (Ascii.eqb c ch_nl); [reflexivity|].
  repeat match goal with
  | |- context [if ?b then _ else _] => destruct b
  | |- context [match char_at ?a ?b with _ => _ end] => destruct (char_at a b)
  end; reflexivity.
Qed.

Lemma u32_idem_add (a b : Z) : u32 (u32 a + b) = u32 (a + b).
Proof. unfold u32. apply Zplus_mod_idemp_l. Qed.

(** X17: when the character loop runs through a whitespace text without
    hitting a stray character, the newline count of the pending token has
    grown by the number of line feeds in the text (as an [unsigned]);
    carriage returns, blanks, tabs and escaped newlines add nothing. *)
Theorem fold_chars_counts_newlines (E : Env) (Text : text) (WL : Z)
    (rest : text) :
  forall (i : Z) (t : FormatToken) (col : Z),
  0 <= UserNewlinesBefore t < 2 ^ 32 ->
  Type_ (fst (fold_chars E Text WL i rest (t, col)))
    <> TT_ImplicitStringLiteral ->
  UserNewlinesBefore (fst (fold_chars E Text WL i rest (t, col)))
  = u32 (UserNewlinesBefore t + count_char ch_nl rest).
Proof.
  induction rest as [|c rest IH]; intros i t col Hn Hty.
  - simpl. rewrite Z.add_0_r. symmetry. now apply u32_small.
  - cbn [fold_chars count_char] in *.
    pose proof (fold_char_newlines E Text WL i c t col) as Hc.
    destruct (fold_char E Text WL i c (t, col)) as [t1 col1].
    simpl fst in *.
    destruct (type_eqb (Type_ t1) TT_ImplicitStringLiteral) eqn:Himp.
    { apply type_eqb_eq in Himp. simpl in Hty. contradiction. }
    assert (Hn1 : 0 <= UserNewlinesBefore t1 < 2 ^ 32).
    { rewrite Hc. destruct (Ascii.eqb c ch_nl); [apply u32_range|exact Hn]. }
    rewrite (IH (i + 1) t1 col1 Hn1 Hty), Hc.
    destruct (Ascii.eqb c ch_nl).
    + rewrite u32_idem_add. f_equal. lia.
    + f_equal.
Qed.

Lemma fold_chars_counts_newlines_witness :
  UserNewlinesBefore
    (fst (fold_chars tabs_env blank_lines_text 0 0 blank_lines_text
            (new_FormatToken, 0)))
  = 3.
Proof.
  rewrite (fold_chars_counts_newlines tabs_env blank_lines_text 0
             blank_lines_text 0 new_FormatToken 0).
  - reflexivity.
  - simpl. lia.
  - vm_compute. discriminate.
Defined.

(** ** No pending half at the end of the file *)

Lemma adjust_kind_pushes_half (E : Env) (p : nat) (s s' : State)
    (t t' : FormatToken) :
  Arena s !! p = Some t -> adjust_kind E p s = Ok s' ->
  Arena s' !! p = Some t' ->
  StateStack s' = StateStack s \/
  (Kind (Tok t') = tk_greater \/ Kind (Tok t') = tk_less).
Proof.
  intros Ht H Ht'. unfold adjust_kind in H.
  rewrite (deref_Some _ _ _ Ht) in H. simpl bind in H.
  destruct (is_kind t tk_comment).
  { inv_bind H as s1 Hs1. injection H as <-.
    apply update_inv in Hs1 as (? & _ & ->). now left. }
  destruct (is_kind t tk_raw_identifier).
  { apply update_inv in H as (? & _ & ->). now left. }
  assert (Hhalf : forall k s0,
            (let* s1 := update p (fun t => set_TokenText
                           (ref_substr (TokenText t) 0 (Some 1))
                           (set_Tok (setKind k (Tok t)) t))
                          (set_TrailingWhitespace 0 s) in
             Ok (set_StateStack (TOKEN_STASHED :: StateStack s1)
                   (set_Column (u32 (Column s1 + 1)) s1))) = Ok s0 ->
            Arena s0 !! p = Some t' -> Kind (Tok t') = k).
  { intros k s0 H0 H0'. inv_bind H0 as s1 Hs1. injection H0 as <-.
    apply update_inv in Hs1 as (x & Hx1 & ->). simpl in H0'.
    rewrite (lookup_updated _ _ x) in H0' by exact Hx1.
    injection H0' as <-. reflexivity. }
  destruct (is_kind t tk_greatergreater);
    [right; left; exact (Hhalf _ _ H Ht')|].
  destruct (is_kind t tk_lessless);
    [right; right; exact (Hhalf _ _ H Ht')|].
  injection H as <-. now left.
Qed.

(** A token that [getNextToken] hands out while it leaves a second half
    pending is a [>] or a [<]. *)
Lemma getNextToken_pending_kind (E : Env) (fuel : nat) (s s' : State)
    (p : nat) (t' : FormatToken) :
  driver_invariant s -> getNextToken E fuel s = Ok (s', p) ->
  Arena s' !! p = Some t' ->
  StateStack s' = [NORMAL] \/
  (Kind (Tok t') = tk_greater \/ Kind (Tok t') = tk_less).
Proof.
  intros [Hne Hstk] H Ht'.
  destruct Hstk as [Hst|(Hst & pOld & old & Hf & Ho & Hi)].
  - unfold getNextToken in H. rewrite Hst in H.
    inv_bind H as r1 Hf. destruct r1 as [s1 p1].
    simpl fst in H. simpl snd in H.
    destruct (fetch_token_spec E fuel s s1 p1 Hf)
      as (-> & ta & Ha1 & _ & _ & _ & Hs1 & _ & _).
    assert (Hl1 : Arena s1 !! length (Arena s) = Some ta)
      by (rewrite Ha1; apply lookup_snoc_fresh).
    inv_bind H as s2 Hadj.
    destruct (adjust_kind_spec E _ s1 s2 ta Hl1 Hadj) as (tb & Hr2 & _).
    pose proof (rewrites_lookup _ _ _ _ _ Hr2) as Hl2.
    pose proof (adjust_kind_pushes_half E _ s1 s2 ta tb Hl1 Hadj Hl2) as Hk.
    inv_bind H as s3 Hme.
    destruct (measure_token_position E _ s2 s3 tb Hl2 Hme)
      as (tc & Hl3 & _ & _ & _ & _ & Htok3 & Hs3).
    inv_bind H as s4 Hcl. injection H as <- <-.
    destruct (classify_position E _ s3 s4 tc Hl3 Hcl)
      as (td & Hl4 & _ & _ & _ & _ & Htok4 & Hs4).
    assert (td = t') by congruence. subst td.
    destruct Hk as [Hk|Hk].
    + left. rewrite Hs4, Hs3, Hk, Hs1. exact Hst.
    + right. rewrite Htok4, Htok3. exact Hk.
  - unfold getNextToken in H. rewrite Hst in H.
    rewrite (getStashedToken_result _ pOld old) in H by assumption.
    injection H as <- <-. now left.
Qed.

Lemma tryMergePreviousTokens_stack (E : Env) (s s' : State) :
  tryMergePreviousTokens E s = Ok s' -> StateStack s' = StateStack s.
Proof.
  intros H. unfold tryMergePreviousTokens in H.
  inv_bind H as r1 H1. destruct r1 as [s1 b1].
  assert (Hs1 : StateStack s1 = StateStack s).
  { apply tryMerge_TMacro_inv in H1 as [[-> _]|[_ H1]]; [reflexivity|].
    destruct H1 as (? & ? & ? & ? & ? & ? & ? & ? & ? & ? & H1).
    destruct H1 as (_ & _ & _ & _ & _ & _ & _ & _ & _ & _ & Hs).
    exact Hs. }
  simpl in H. destruct b1; [injection H as <-; exact Hs1|].
  inv_bind H as r2 H2. destruct r2 as [s2 b2].
  assert (Hs2 : StateStack s2 = StateStack s1).
  { apply tryMergeConflictMarkers_inv in H2 as [[-> _]|[_ H2]];
      [reflexivity|].
    destruct H2 as (? & ? & ? & ? & ? & H2).
    destruct H2 as (_ & _ & _ & _ & _ & _ & _ & Hs). exact Hs. }
  simpl in H. destruct b2; [injection H as <-; congruence|].
  inv_bind H as r3 H3. destruct r3 as [s3 b3]. injection H as <-.
  simpl.
  apply tryMergeLessLess_inv in H3 as [[-> _]|[_ H3]]; [congruence|].
  destruct H3 as (? & ? & ? & ? & ? & ? & ? & H3).
  destruct H3 as (_ & _ & _ & _ & _ & _ & _ & _ & _ & _ & _ & _ & Hs).
  congruence.
Qed.

(** The merge rules never leave an end-of-file token at the end of a
    vector that ended in a [>] or a [<]. *)
Lemma tryMergePreviousTokens_last_half (E : Env) (s s' : State)
    (pre : list nat) (p : nat) (t : FormatToken) :
  Tokens s = pre ++ [p] -> Arena s !! p = Some t ->
  Kind (Tok t) = tk_greater \/ Kind (Tok t) = tk_less ->
  tryMergePreviousTokens E s = Ok s' ->
  exists pre' q b, Tokens s' = pre' ++ [q] /\ Arena s' !! q = Some b /\
    Kind (Tok b) <> tk_eof.
Proof.
  intros Ht Hp Hk H.
  assert (Hne : Kind (Tok t) <> tk_eof)
    by (destruct Hk as [Hk|Hk]; rewrite Hk; discriminate).
  assert (Hsame : exists pre' q b, Tokens s = pre' ++ [q] /\
            Arena s !! q = Some b /\ Kind (Tok b) <> tk_eof)
    by (exists pre, p, t; auto).
  unfold tryMergePreviousTokens in H.
  inv_bind H as r1 H1. destruct r1 as [s1 b1].
  apply tryMerge_TMacro_inv in H1 as [[-> ->]|[-> H1]].
  2:{ destruct H1 as (pre4 & pM & pP & pS & pL & tM & tP & tS & tL & span &
                      Ht4 & _ & _ & _ & HL & Hpat & _).
      exfalso. rewrite Ht in Ht4.
      change (pre4 ++ [pM; pP; pS; pL]) with (pre4 ++ [pM; pP; pS] ++ [pL])
        in Ht4.
      rewrite app_assoc in Ht4. apply app_inj_tail in Ht4 as [_ ->].
      assert (tL = t) by congruence. subst tL.
      unfold TMacro_pattern in Hpat.
      repeat (apply andb_true_iff in Hpat as [Hpat ?]).
      unfold is_kind in Hpat.
      destruct Hk as [Hk|Hk]; rewrite Hk in Hpat; discriminate. }
  simpl in H.
  inv_bind H as r2 H2. destruct r2 as [s2 b2].
  apply tryMergeConflictMarkers_inv in H2 as [[-> ->]|[-> H2]].
  2:{ simpl in H. injection H as <-.
      destruct H2 as (pre0 & pNext & pFirst & First & ty &
                      Ht0 & _ & HFt & Ht' & Ha' & _).
      rewrite Ht in Ht0. apply app_inj_tail in Ht0 as [<- <-].
      exists (take (FirstInLineIndex s) (Tokens s) ++ [pFirst]), p.
      destruct (decide (pFirst = p)) as [->|Hd].
      - exists (conflict_merged ty First).
        split; [rewrite Ht', <- app_assoc; reflexivity|].
        split; [rewrite Ha'; now apply (lookup_updated _ _ First)|].
        simpl. discriminate.
      - exists t. split; [rewrite Ht', <- app_assoc; reflexivity|].
        split; [rewrite Ha', lookup_not_updated by exact Hd; exact Hp|].
        exact Hne. }
  simpl in H.
  inv_bind H as r3 H3. destruct r3 as [s3 b3]. injection H as <-. simpl.
  apply tryMergeLessLess_inv in H3 as [[-> _]|[_ H3]]; [exact Hsame|].
  destruct H3 as (pre3 & p0 & p1 & p2 & t0 & t1 & t2 &
                  Ht3 & H0 & _ & H2 & _ & _ & _ & _ & Ht' & Ha' & _).
  rewrite Ht in Ht3.
  change (pre3 ++ [p0; p1; p2]) with (pre3 ++ [p0; p1] ++ [p2]) in Ht3.
  rewrite app_assoc in Ht3. apply app_inj_tail in Ht3 as [_ ->].
  exists (pre3 ++ [p0]), p2.
  destruct (decide (p0 = p2)) as [->|Hd].
  - exists (lessless_merged t0).
    split; [rewrite Ht', <- app_assoc; reflexivity|].
    split; [rewrite Ha'; now apply (lookup_updated _ _ t0)|].
    simpl. discriminate.
  - exists t. split; [rewrite Ht', <- app_assoc; reflexivity|].
    split; [rewrite Ha', lookup_not_updated by exact Hd; exact Hp|].
    exact Hne.
Qed.

Lemma lex_step_last_round (E : Env) (fuel : nat) (s s' : State) :
  driver_invariant s -> lex_step E fuel s = Ok (s', false) ->
  StateStack s' = [NORMAL].
Proof.
  intros Hinv H. unfold lex_step in H.
  inv_bind H as r Hnext. destruct r as [s1 p].
  destruct (getNextToken_appends E fuel s s1 p Hinv Hnext)
    as (-> & t' & Ha1 & Hk1 & _ & _).
  assert (Hl1 : Arena s1 !! length (Arena s) = Some t')
    by (rewrite Ha1; apply lookup_snoc_fresh).
  pose proof (getNextToken_pending_kind E fuel s s1 _ t' Hinv Hnext Hl1)
    as Hpk.
  simpl fst in H. simpl snd in H.
  set (s2 := set_Tokens (Tokens s1 ++ [length (Arena s)]) s1) in *.
  inv_bind H as s3 Hmerge.
  pose proof (tryMergePreviousTokens_stack E s2 s3 Hmerge) as Hstk3.
  inv_bind H as pBack Hb. inv_bind H as Back HB. apply deref_inv in HB.
  match type of H with
  | context [Tokens_back ?st] => set (s4 := st) in *
  end.
  assert (Ht4 : Tokens s4 = Tokens s3)
    by (subst s4; destruct (_ || _); reflexivity).
  assert (Ha4 : Arena s4 = Arena s3)
    by (subst s4; destruct (_ || _); reflexivity).
  assert (Hs4 : StateStack s4 = StateStack s3)
    by (subst s4; destruct (_ || _); reflexivity).
  inv_bind H as pBack' Hb'. inv_bind H as Back' HB'. apply deref_inv in HB'.
  injection H as <- Heof. apply negb_false_iff in Heof.
  destruct Hpk as [Hn|Hk]; [rewrite Hs4, Hstk3; exact Hn|].
  exfalso.
  destruct (tryMergePreviousTokens_last_half E s2 s3 (Tokens s1)
              (length (Arena s)) t' eq_refl Hl1 Hk Hmerge)
    as (pre' & q & b & Htq & Hq & Hne).
  unfold Tokens_back in Hb'. rewrite Ht4, Htq, last_snoc in Hb'.
  injection Hb' as <-. rewrite Ha4 in HB'.
  assert (Back' = b) by congruence. subst Back'.
  apply kind_eqb_eq in Heof. contradiction.
Qed.

Lemma lex_loop_without_stash (E : Env) (tokfuel : nat) (fuel : nat) :
  forall s s', driver_invariant s ->
  lex_loop E fuel tokfuel s = Ok s' -> StateStack s' = [NORMAL].
Proof.
  induction fuel as [|fuel IH]; intros s s' Hinv H; [discriminate|].
  simpl in H. inv_bind H as r Hstep. destruct r as [s1 cont].
  simpl in H. destruct cont.
  - pose proof (lex_step_invariant E tokfuel s s1 true Hinv Hstep) as Hs1.
    simpl in Hs1. exact (IH s1 s' Hs1 H).
  - injection H as <-. exact (lex_step_last_round E tokfuel s s1 Hinv Hstep).
Qed.

(** X18: [lex] never returns with the second half of a split [<<] or
    [>>] still pending: when it returns, the state stack holds [NORMAL]
    alone, so every half that was stashed has been handed out before the
    end-of-file token. *)
Theorem lex_returns_without_stash (E : Env) (fuel : nat) (s' : State) :
  lex E fuel initial_state = Ok s' -> StateStack s' = [NORMAL].
Proof.
  unfold lex. simpl. apply lex_loop_without_stash.
  split; [constructor | now left].
Qed.

Lemma lex_returns_without_stash_witness :
  lex stash_env 6 initial_state = Ok stash_final /\
  length (Tokens stash_final) = 5%nat /\
  StateStack stash_final = [NORMAL].
Proof.
  assert (Hrun : lex stash_env 6 initial_state = Ok stash_final)
    by (vm_compute; reflexivity).
  split; [exact Hrun|]. split; [reflexivity|].
  exact (lex_returns_without_stash stash_env 6 _ Hrun).
Defined.

(** ** For-each macros *)

Lemma previous_is_define_iff (E : Env) (s : State) :
  tokens_allocated s ->
  exists d, previous_is_define E s = Ok d /\
            (d = true <-> preceded_by_define E s).
Proof.
  intros Hall. unfold previous_is_define, preceded_by_define.
  destruct (list.last (Tokens s)) as [q|] eqn:Hl.
  - pose proof Hl as Hl'. apply last_Some in Hl' as [pre Hpre].
    unfold tokens_allocated in Hall.
    rewrite Hpre, Forall_app, Forall_singleton in Hall.
    destruct Hall as [_ [prev Hq]].
    rewrite (deref_Some _ _ _ Hq). simpl bind.
    destruct (IdentInfo (Tok prev)) as [name|] eqn:Hi.
    + eexists. split; [reflexivity|]. split.
      * intros Hd. exists q, prev, name. repeat split; auto.
        destruct (getPPKeywordID E name); [discriminate|reflexivity|
                                           discriminate].
      * intros (q' & prev' & name' & Hq' & Hp' & Hi' & Hpp).
        assert (q' = q) by congruence. subst q'.
        assert (prev' = prev) by congruence. subst prev'.
        assert (name' = name) by congruence. subst name'.
        now rewrite Hpp.
    + exists false. split; [reflexivity|]. split; [discriminate|].
      intros (q' & prev' & name' & Hq' & Hp' & Hi' & _).
      assert (q' = q) by congruence. subst q'. congruence.
  - exists false. split; [reflexivity|]. split; [discriminate|].
    intros (q' & _ & _ & Hq' & _). discriminate.
Qed.

(** Only a raw identifier is looked up in the identifier table. *)
Lemma adjust_kind_identifier (E : Env) (p : nat) (s s' : State)
    (t t' : FormatToken) :
  Arena s !! p = Some t -> IdentInfo (Tok t) = None ->
  adjust_kind E p s = Ok s' -> Arena s' !! p = Some t' ->
  IdentInfo (Tok t')
    = (if is_kind t tk_raw_identifier then Some (text_of E t) else None) /\
  (is_kind t tk_raw_identifier = true -> TokenText t' = TokenText t).
Proof.
  intros Ht Hid H Ht'. unfold adjust_kind in H.
  rewrite (deref_Some _ _ _ Ht) in H. simpl bind in H.
  assert (Hupd : forall (f : FormatToken -> FormatToken) (s0 s1 : State),
            Arena s0 = Arena s -> update p f s0 = Ok s1 ->
            Arena s1 !! p = Some (f t)).
  { intros f s0 s1 Ha Hu. apply update_inv in Hu as (x & Hx & ->).
    rewrite Ha in Hx. assert (x = t) by congruence. subst x.
    simpl. rewrite Ha. now apply (lookup_updated _ _ t). }
  destruct (is_kind t tk_comment) eqn:Kc.
  { inv_bind H as s1 Hs1. injection H as <-.
    pose proof (Hupd _ (set_TrailingWhitespace 0 s) _ eq_refl Hs1) as Hl. simpl in Ht'.
    assert (t' = set_TokenText (ref_rtrim (Buffer E) (TokenText t)) t)
      by congruence. subst t'.
    apply kind_eqb_eq in Kc. unfold is_kind. rewrite Kc. simpl.
    split; [exact Hid|discriminate]. }
  destruct (is_kind t tk_raw_identifier) eqn:Kr.
  { pose proof (Hupd _ (set_TrailingWhitespace 0 s) _ eq_refl H) as Hl.
    assert (t' = set_Tok (setKind (getTokenID E (text_of E t))
                            (setIdentifierInfo (Some (text_of E t)) (Tok t)))
                   t) by congruence.
    subst t'. split; reflexivity. }
  destruct (is_kind t tk_greatergreater).
  { inv_bind H as s1 Hs1. injection H as <-.
    pose proof (Hupd _ (set_TrailingWhitespace 0 s) _ eq_refl Hs1) as Hl. simpl in Ht'.
    split; [|discriminate].
    replace t' with (set_TokenText (ref_substr (TokenText t) 0 (Some 1))
                       (set_Tok (setKind tk_greater (Tok t)) t))
      by congruence.
    exact Hid. }
  destruct (is_kind t tk_lessless).
  { inv_bind H as s1 Hs1. injection H as <-.
    pose proof (Hupd _ (set_TrailingWhitespace 0 s) _ eq_refl Hs1) as Hl. simpl in Ht'.
    split; [|discriminate].
    replace t' with (set_TokenText (ref_substr (TokenText t) 0 (Some 1))
                       (set_Tok (setKind tk_less (Tok t)) t))
      by congruence.
    exact Hid. }
  injection H as <-. simpl in Ht'.
  assert (t' = t) by congruence. subst t'. split; [exact Hid|discriminate].
Qed.

(** C8: the token [getNextToken] produces is tagged for-each-macro
    exactly when the scanner delivered an identifier for it whose text is
    one of the configured for-each macro names and the token before it in
    the stream is not the [define] keyword; the text of the produced token
    is that identifier; a token so tagged has no other semantic type.  The
    second half of a split operator is never tagged. *)
Theorem ForEachMacro_tagging (E : Env) (fuel : nat) (s s' : State) (p : nat)
    (t' : FormatToken) :
  tokens_allocated s ->
  getNextToken E fuel s = Ok (s', p) -> Arena s' !! p = Some t' ->
  (Type_ t' = TT_ForEachMacro <->
   exists name, scanned_identifier E fuel s = Some name /\
                In name (ForEachMacros E) /\ ~ preceded_by_define E s) /\
  (forall name, scanned_identifier E fuel s = Some name ->
                text_of E t' = name) /\
  (Type_ t' = TT_ForEachMacro ->
   Type_ t' <> TT_MacroBlockBegin /\ Type_ t' <> TT_MacroBlockEnd).
Proof.
  intros Hall H Hp.
  destruct (previous_is_define_iff E s Hall) as (d & Hd & Hdiff).
  split; [|split; [|intros ->; split; discriminate]];
    destruct (StateStack s) as [|[|] rest] eqn:Hst;
    try (unfold getNextToken in H; rewrite Hst in H; discriminate).
  - (* a token read from the scanner *)
    unfold getNextToken in H. rewrite Hst in H.
    inv_bind H as r1 Hf. destruct r1 as [s1 p1].
    simpl fst in H. simpl snd in H.
    destruct (fetch_token_spec E fuel s s1 p1 Hf)
      as (-> & ta & Ha1 & Hk1 & _ & _ & _ & Hu1 & Hi1).
    assert (Hl1 : Arena s1 !! length (Arena s) = Some ta)
      by (rewrite Ha1; apply lookup_snoc_fresh).
    assert (Hscan : scanned_identifier E fuel s
                    = if is_kind ta tk_raw_identifier
                      then Some (text_of E ta) else None).
    { unfold scanned_identifier. rewrite Hst, Hf. cbn [fst snd].
      now rewrite Hl1. }
    inv_bind H as s2 Hadj.
    destruct (adjust_kind_spec E _ s1 s2 ta Hl1 Hadj)
      as (tb & Hr2 & Hty2 & _ & _).
    pose proof (rewrites_lookup _ _ _ _ _ Hr2) as Hl2.
    destruct (adjust_kind_identifier E _ s1 s2 ta tb Hl1 Hi1 Hadj Hl2)
      as [Hid2 _].
    inv_bind H as s3 Hme.
    destruct (measure_token_spec E _ s2 s3 tb Hl2 Hme)
      as (tc & Hr3 & Hty3 & Htok3 & _ & _ & _).
    inv_bind H as s4 Hcl. injection H as <- <-.
    pose proof (rewrites_trans _ _ _ _ _ _ _ Hr2 Hr3) as Hr23.
    pose proof (rewrites_snoc _ _ _ _ _ _ Ha1 eq_refl Hr23) as Ha3.
    assert (Hk3 : Tokens s3 = Tokens s)
      by (destruct Hr23 as (_ & _ & Hk & _); congruence).
    pose proof (previous_is_define_frame E s s3 tc d Ha3 Hk3 Hd) as Hd3.
    destruct (classify_spec E _ s3 s4 tc d
                (rewrites_lookup _ _ _ _ _ Hr3) Hd3 Hcl)
      as (td & Hr4 & _ & _ & _ & Hty4 & _).
    assert (td = t')
      by (pose proof (rewrites_lookup _ _ _ _ _ Hr4); congruence).
    subst td.
    assert (Hident : IdentInfo (Tok tc) = scanned_identifier E fuel s)
      by (rewrite Htok3, Hid2, Hscan; reflexivity).
    assert (Hun : unclassified tc)
      by (unfold unclassified in *; rewrite Hty3, Hty2; exact Hu1).
    assert (Htag : Type_ t' = TT_ForEachMacro <->
                   negb d && is_ForEachMacro E tc = true).
    { rewrite Hty4. unfold classified_type.
      destruct (negb d && is_ForEachMacro E tc); [tauto|].
      split; [|discriminate]. intros Hc. exfalso.
      unfold unclassified in Hun.
      destruct (is_kind tc tk_identifier);
        [destruct (MacroBlockBeginRegex E (text_of E tc));
         [discriminate|
          destruct (MacroBlockEndRegex E (text_of E tc));
          [discriminate|]]|];
        destruct Hun; congruence. }
    rewrite Htag, andb_true_iff, negb_true_iff, is_ForEachMacro_In, Hident.
    split.
    + intros [Hdf (name & Hn & Hin)]. exists name.
      split; [exact Hn|]. split; [exact Hin|].
      intros Hpre. apply Hdiff in Hpre. congruence.
    + intros (name & Hn & Hin & Hnp). split; [|eauto].
      destruct d; [|reflexivity]. exfalso. apply Hnp, Hdiff. reflexivity.
  - (* the second half of a split operator *)
    assert (Hscan : scanned_identifier E fuel s = None)
      by (unfold scanned_identifier; now rewrite Hst).
    unfold getNextToken in H. rewrite Hst in H.
    unfold getStashedToken in H.
    inv_bind H as pOld HpO. inv_bind H as old Hold.
    unfold allocate in H. cbv beta iota zeta in H.
    inv_bind H as s3 Hs3. injection H as <- <-.
    apply update_inv in Hs3 as (x & Hx & ->). simpl in Hp.
    rewrite (lookup_updated _ _ x) in Hp by exact Hx.
    injection Hp as <-. rewrite Hscan. simpl.
    split; [discriminate|]. intros (name & Hn & _). discriminate.
  - (* the text of a scanned identifier *)
    unfold getNextToken in H. rewrite Hst in H.
    inv_bind H as r1 Hf. destruct r1 as [s1 p1].
    simpl fst in H. simpl snd in H.
    destruct (fetch_token_spec E fuel s s1 p1 Hf)
      as (-> & ta & Ha1 & _ & _ & _ & _ & _ & Hi1).
    assert (Hl1 : Arena s1 !! length (Arena s) = Some ta)
      by (rewrite Ha1; apply lookup_snoc_fresh).
    intros name Hn. unfold scanned_identifier in Hn.
    rewrite Hst, Hf in Hn. cbn [fst snd] in Hn. rewrite Hl1 in Hn.
    destruct (is_kind ta tk_raw_identifier) eqn:Kr; [|discriminate].
    injection Hn as <-.
    inv_bind H as s2 Hadj.
    destruct (adjust_kind_spec E _ s1 s2 ta Hl1 Hadj) as (tb & Hr2 & _).
    pose proof (rewrites_lookup _ _ _ _ _ Hr2) as Hl2.
    destruct (adjust_kind_identifier E _ s1 s2 ta tb Hl1 Hi1 Hadj Hl2)
      as [_ Htx2].
    inv_bind H as s3 Hme.
    destruct (measure_token_position E _ s2 s3 tb Hl2 Hme)
      as (tc & Hl3 & Htxt3 & _).
    inv_bind H as s4 Hcl. injection H as <- <-.
    destruct (classify_position E _ s3 s4 tc Hl3 Hcl)
      as (td & Hl4 & Htxt4 & _).
    assert (td = t') by congruence. subst td.
    unfold text_of. now rewrite Htxt4, Htxt3, (Htx2 Kr).
  - intros name Hn. unfold scanned_identifier in Hn. rewrite Hst in Hn.
    discriminate.
Qed.

Lemma ForEachMacro_tagging_witness :
  (getNextToken foreach_use_env 2 initial_state = Ok foreach_use_next /\
   Arena (fst foreach_use_next) !! 0%nat = Some foreach_use_token /\
   text_of foreach_use_env foreach_use_token = lit "FOREACH" /\
   Type_ foreach_use_token = TT_ForEachMacro) /\
  (getNextToken foreach_env 2 foreach_state = Ok foreach_next /\
   Arena (fst foreach_next) !! 2%nat = Some foreach_token /\
   text_of foreach_env foreach_token = lit "FOREACH" /\
   Type_ foreach_token <> TT_ForEachMacro).
Proof.
  split.
  - assert (Hrun : getNextToken foreach_use_env 2 initial_state
                   = Ok (fst foreach_use_next, 0%nat))
      by (vm_compute; reflexivity).
    assert (Hp : Arena (fst foreach_use_next) !! 0%nat
                 = Some foreach_use_token) by (vm_compute; reflexivity).
    assert (Hscan : scanned_identifier foreach_use_env 2 initial_state
                    = Some (lit "FOREACH")) by (vm_compute; reflexivity).
    destruct (ForEachMacro_tagging foreach_use_env 2 initial_state
                (fst foreach_use_next) 0%nat foreach_use_token
                (Forall_nil _) Hrun Hp) as ([_ Hbw] & Htxt & _).
    split; [exact Hrun|]. split; [exact Hp|].
    split; [exact (Htxt _ Hscan)|].
    apply Hbw. exists (lit "FOREACH"). split; [exact Hscan|].
    split; [left; reflexivity|].
    intros (q & _ & _ & Hq & _). discriminate.
  - assert (Hrun : getNextToken foreach_env 2 foreach_state
                   = Ok (fst foreach_next, 2%nat))
      by (vm_compute; reflexivity).
    assert (Hp : Arena (fst foreach_next) !! 2%nat = Some foreach_token)
      by (vm_compute; reflexivity).
    assert (Hall : tokens_allocated foreach_state)
      by (repeat constructor; eexists; reflexivity).
    assert (Hpre : preceded_by_define foreach_env foreach_state).
    { exists 1%nat. eexists. exists (lit "define").
      repeat split; reflexivity. }
    destruct (ForEachMacro_tagging foreach_env 2 foreach_state
                (fst foreach_next) 2%nat foreach_token Hall Hrun Hp)
      as ([Hfw _] & _ & _).
    split; [exact Hrun|]. split; [exact Hp|]. split; [reflexivity|].
    intros Hc. destruct (Hfw Hc) as (name & _ & _ & Hnp). exact (Hnp Hpre).
Defined.

(** When the raw lexer's next token is an identifier that does not start
    with an escaped newline, that identifier is what the scanner delivers
    for the call. *)
Lemma scanned_identifier_direct (E : Env) (fuel : nat) (s : State)
    (rest : list LexerState) (len : Z) :
  StateStack s = NORMAL :: rest ->
  LexFromRawLexer E (LexPos s) = (tk_raw_identifier, len) ->
  starts_with_escaped_newline (sub_text (Buffer E) (LexPos s) len) = false ->
  scanned_identifier E fuel s = Some (sub_text (Buffer E) (LexPos s) len).
Proof.
  intros Hst Hlex Hesc. unfold scanned_identifier. rewrite Hst.
  unfold fetch_token, allocate.
  set (p := length (Arena s)).
  set (s0 := set_FormatTok (Some p)
               (set_Arena (Arena s ++ [new_FormatToken]) s)).
  assert (H0 : Arena s0 !! p = Some new_FormatToken)
    by (subst s0 p; simpl; apply lookup_snoc_fresh).
  assert (Hr : exists s1 t1, readRawToken E p s0 = Ok s1 /\
            Arena s1 !! p = Some t1 /\
            Kind (Tok t1) = tk_raw_identifier /\
            TokenText t1 = SrcRef (LexPos s) len).
  { unfold readRawToken. rewrite (deref_Some _ _ _ H0). simpl bind.
    change (LexPos s0) with (LexPos s). rewrite Hlex. cbv zeta.
    cbn [is_kind Tok set_Tok set_TokenText set_Finalized Kind kind_eqb andb].
    rewrite (update_Some _ p _ new_FormatToken) by exact H0.
    eexists. eexists. split; [reflexivity|].
    split; [simpl; now apply (lookup_updated _ _ new_FormatToken)|].
    split; reflexivity. }
  destruct Hr as (s1 & t1 & Hs1 & Hl1 & Hk1 & Hx1).
  rewrite Hs1. simpl bind. rewrite (deref_Some _ _ _ Hl1). simpl bind.
  rewrite (update_Some _ p _ t1) by exact Hl1. simpl bind.
  set (t2 := set_IsFirst (IsFirstToken s1) t1).
  match goal with
  | |- context [fold_whitespace E fuel p ?wl ?st] =>
      set (WL := wl); set (s2 := st)
  end.
  assert (Hl2 : Arena s2 !! p = Some t2)
    by (subst s2; simpl; now apply (lookup_updated _ _ t1)).
  assert (Hk2 : is_kind t2 tk_unknown = false)
    by (unfold is_kind; subst t2; simpl; now rewrite Hk1).
  assert (Hfold : fold_whitespace E fuel p WL s2 = Ok (s2, WL)).
  { destruct fuel; cbn [fold_whitespace]; rewrite (deref_Some _ _ _ Hl2);
      simpl bind; rewrite Hk2; reflexivity. }
  rewrite Hfold. simpl bind. cbn [fst snd].
  rewrite (deref_Some _ _ _ Hl2). simpl bind.
  assert (Hstrip : forall n, strip_escaped_newlines n (Buffer E)
                               (t2, WL, Column s2) = (t2, WL, Column s2)).
  { intros n. destruct n; [reflexivity|]. cbn [strip_escaped_newlines].
    replace (str (Buffer E) (TokenText t2))
      with (sub_text (Buffer E) (LexPos s) len)
      by (subst t2; simpl; now rewrite Hx1).
    now rewrite Hesc, andb_false_r. }
  rewrite Hstrip.
  rewrite (update_Some _ p _ t2) by exact Hl2. simpl bind. cbn [fst snd].
  cbn [Arena set_Arena set_Column].
  rewrite (lookup_updated _ _ t2) by exact Hl2.
  unfold is_kind, text_of. subst t2. simpl. rewrite Hk1, Hx1. reflexivity.
Qed.
